(** * blockstack_zones.parse_zone_file: a shallow embedding

    The zonefile parser of [src/blockstack_zones/parse_zone_file.py] is
    Python 2 code over byte strings.  A [str] is embedded as [string], a
    list of tokens as [list string], a dict as a [gmap] with string keys,
    and an exception as a constructor of [exn].  Every definition carries
    the name of the source function (or of the local variable) it embeds. *)

From Stdlib Require Import ZArith Ascii String List Bool Lia.
From stdpp Require Import base option list gmap strings fin_maps.

Local Open Scope string_scope.
Local Open Scope list_scope.

(** String concatenation unfolds on a constructor, as list concatenation does. *)
#[local] Arguments String.append !s1 s2 : simpl nomatch.

(** ** Python 2 byte-string primitives *)

Module Py.

(** The characters the source names. *)
Definition space : ascii := " "%char.
Definition tab : ascii := "009"%char.
Definition newline : ascii := "010"%char.
Definition dquote : ascii := "034"%char.
Definition backslash : ascii := "\"%char.
Definition semicolon : ascii := ";"%char.
Definition lparen : ascii := "("%char.
Definition rparen : ascii := ")"%char.
Definition dollar : ascii := "$"%char.

(** [c.isspace()] on a byte: HT, LF, VT, FF, CR and the space. *)
Definition isspace (c : ascii) : bool :=
  let n := nat_of_ascii c in
  ((9 <=? n)%nat && (n <=? 13)%nat) || (n =? 32)%nat.

(** [c.isdigit()] on a byte. *)
Definition isdigit (c : ascii) : bool :=
  let n := nat_of_ascii c in (48 <=? n)%nat && (n <=? 57)%nat.

(** A one-character string. *)
Definition chr (c : ascii) : string := String c EmptyString.

(** [len(s) > 0]. *)
Definition nonempty (s : string) : bool :=
  match s with EmptyString => false | String _ _ => true end.

(** [c in s] for a one-character [c]. *)
Fixpoint contains (c : ascii) (s : string) : bool :=
  match s with
  | EmptyString => false
  | String d s' => Ascii.eqb d c || contains c s'
  end.

(** [s.split(sep)] for a one-character separator: never the empty list. *)
Fixpoint split (sep : ascii) (s : string) : list string :=
  match s with
  | EmptyString => [EmptyString]
  | String c s' =>
      if Ascii.eqb c sep then EmptyString :: split sep s'
      else match split sep s' with
           | [] => [chr c]
           | w :: ws => String c w :: ws
           end
  end.

(** [sep.join(l)]. *)
Definition join (sep : string) (l : list string) : string := String.concat sep l.

(** [s.replace(c, r)] for a one-character [c]. *)
Fixpoint replace (c : ascii) (r : string) (s : string) : string :=
  match s with
  | EmptyString => EmptyString
  | String d s' => (if Ascii.eqb d c then r else chr d) ++ replace c r s'
  end.

(** Stripping the characters that satisfy [p] from the left, from the right
    and from both ends. *)
Fixpoint lstrip_by (p : ascii -> bool) (s : string) : string :=
  match s with
  | EmptyString => EmptyString
  | String d s' => if p d then lstrip_by p s' else s
  end.

Fixpoint rstrip_by (p : ascii -> bool) (s : string) : string :=
  match s with
  | EmptyString => EmptyString
  | String d s' =>
      match rstrip_by p s' with
      | EmptyString => if p d then EmptyString else chr d
      | r => String d r
      end
  end.

(** [s.lstrip(c)], [s.rstrip(c)] and [s.strip(c)] for a one-character [c]. *)
Definition lstrip (c : ascii) (s : string) : string :=
  lstrip_by (fun d => Ascii.eqb d c) s.

Definition rstrip (c : ascii) (s : string) : string :=
  rstrip_by (fun d => Ascii.eqb d c) s.

Definition strip (c : ascii) (s : string) : string := rstrip c (lstrip c s).

(** [s.startswith(c)] and [s.endswith(c)] for a one-character [c]. *)
Definition startswith (c : ascii) (s : string) : bool :=
  match s with
  | EmptyString => false
  | String d _ => Ascii.eqb d c
  end.

Fixpoint endswith (c : ascii) (s : string) : bool :=
  match s with
  | EmptyString => false
  | String d EmptyString => Ascii.eqb d c
  | String _ s' => endswith c s'
  end.

(** [s.lower()] on bytes. *)
Definition lower_char (c : ascii) : ascii :=
  let n := nat_of_ascii c in
  if (65 <=? n)%nat && (n <=? 90)%nat then ascii_of_nat (n + 32) else c.

Fixpoint lower (s : string) : string :=
  match s with
  | EmptyString => EmptyString
  | String c s' => String (lower_char c) (lower s')
  end.

(** [x in l] for a list of strings. *)
Definition mem (x : string) (l : list string) : bool :=
  existsb (String.eqb x) l.

End Py.

(** ** tokenize_line (source lines 84-147) *)

(** The local variables of the scanning loop. *)
Record tok_state := TokState {
  ret : list string;
  escape : bool;
  quote : bool;
  tokbuf : string
}.

Definition tok_init : tok_state := TokState [] false false "".

(** The [while] loop over the characters of the line; the [break] of the
    comment case ends the recursion. *)
Fixpoint tokenize_loop (ll : string) (st : tok_state) : tok_state :=
  match ll with
  | EmptyString => st
  | String c ll' =>
      let '(TokState ret escape quote tokbuf) := st in
      if Py.isspace c then
        if negb quote && negb escape then
          tokenize_loop ll'
            (TokState (if Py.nonempty tokbuf then ret ++ [tokbuf] else ret)
                      escape quote "")
        else if quote then
          tokenize_loop ll' (TokState ret escape quote (tokbuf ++ Py.chr c))
        else if escape then
          tokenize_loop ll' (TokState ret false quote (tokbuf ++ Py.chr c))
        else
          tokenize_loop ll' (TokState ret escape quote "")
      else if Ascii.eqb c Py.backslash then
        tokenize_loop ll' (TokState ret true quote tokbuf)
      else if Ascii.eqb c Py.dquote && negb escape then
        if quote then tokenize_loop ll' (TokState (ret ++ [tokbuf]) escape false "")
        else tokenize_loop ll' (TokState ret escape true tokbuf)
      else if Ascii.eqb c Py.semicolon && negb escape then
        TokState (ret ++ [tokbuf]) escape quote ""
      else
        tokenize_loop ll' (TokState ret false quote (tokbuf ++ Py.chr c))
  end.

(** The flush after the loop. *)
Definition tokenize_finish (st : tok_state) : list string :=
  if Py.nonempty (Py.strip Py.newline (Py.strip Py.space (tokbuf st)))
  then ret st ++ [tokbuf st]
  else ret st.

Definition tokenize_line (line : string) : list string :=
  tokenize_finish (tokenize_loop line tok_init).

(** ** serialize (source lines 150-166) *)

(** The format ['"%s"' % tok]. *)
Definition quoted (tok : string) : string :=
  String Py.dquote (tok ++ Py.chr Py.dquote).

(** The body of the [for] loop: the two rewrites of one token. *)
Definition serialize_tok (tok : string) : string :=
  let tok := if Py.contains Py.space tok then quoted tok else tok in
  if Py.contains Py.semicolon tok
  then Py.replace Py.semicolon "\;" tok
  else tok.

Definition serialize (tokens : list string) : string :=
  Py.join " " (map serialize_tok tokens).

(** ** remove_comments (source lines 169-182) *)

Definition remove_comments (text : string) : string :=
  let lines := Py.split Py.newline text in
  Py.join (Py.chr Py.newline)
    (omap (fun line =>
             if Py.nonempty line then Some (serialize (tokenize_line line))
             else None)
          lines).

(** ** flatten (source lines 185-228) *)

(** The first loop: the non-empty words of every non-empty line, each line
    closed by the empty token. *)
Definition flatten_tokens (lines : list string) : list string :=
  flat_map (fun l =>
              if Py.nonempty l then
                let l := Py.replace Py.tab " " l in
                List.filter Py.nonempty (Py.split Py.space l) ++ [""]
              else [])
           lines.

(** The local variables of the capturing loop. *)
Record flat_state := FlatState {
  capturing : bool;
  captured : list string;
  flattened : list string
}.

Definition flat_init : flat_state := FlatState false [] [].

Fixpoint flatten_loop (tokens : list string) (st : flat_state) : flat_state :=
  match tokens with
  | [] => st
  | tok :: tokens' =>
      let '(FlatState capturing captured flattened) := st in
      if negb capturing && negb (Py.nonempty tok) then
        (* normal end-of-line *)
        if negb (Nat.eqb (length captured) 0) then
          flatten_loop tokens'
            (FlatState capturing [] (flattened ++ [Py.join " " captured]))
        else flatten_loop tokens' st
      else
        (* begin grouping *)
        let '(tok, capturing) :=
          if Py.startswith Py.lparen tok
          then (Py.lstrip Py.lparen tok, true) else (tok, capturing) in
        (* end grouping *)
        let '(tok, capturing) :=
          if capturing && Py.endswith Py.rparen tok
          then (Py.rstrip Py.rparen tok, false) else (tok, capturing) in
        flatten_loop tokens' (FlatState capturing (captured ++ [tok]) flattened)
  end.

Definition flatten (text : string) : string :=
  let lines := Py.split Py.newline text in
  let tokens := flatten_tokens lines in
  Py.join (Py.chr Py.newline) (flattened (flatten_loop tokens flat_init)).

(** ** The configuration table *)

(** Modelled from the spec: the list [SUPPORTED_RECORDS] of
    [blockstack_zones/configs.py], which is not part of the sources at hand.
    Section 6 of the specification fixes the vocabulary, and the docstring
    that opens parse_zone_file.py lists the same thirteen names. *)
Definition SUPPORTED_RECORDS : list string :=
  ["$ORIGIN"; "$TTL"; "SOA"; "NS"; "A"; "AAAA"; "CNAME"; "MX"; "PTR";
   "TXT"; "SRV"; "SPF"; "URI"].

(** ** add_default_name (source lines 231-251) *)

(** The body of the [for] loop; [None] is the [continue] of a line without
    tokens. *)
Definition add_default_name_line (line : string) : option string :=
  let tokens := tokenize_line line in
  match tokens with
  | [] => None
  | tok0 :: _ =>
      let tokens :=
        if Py.mem tok0 SUPPORTED_RECORDS && negb (Py.startswith Py.dollar tok0)
        then "@" :: tokens else tokens in
      Some (serialize tokens)
  end.

Definition add_default_name (text : string) : string :=
  let lines := Py.split Py.newline text in
  Py.join (Py.chr Py.newline) (omap add_default_name_line lines).

(** ** Values, records and the zone file *)

(** The Python objects a parsed field can hold; [VNil] is the empty list. *)
Inductive value :=
| VStr (s : string)
| VInt (n : Z)
| VNone
| VTrue
| VNil.

#[global] Instance value_eq_dec : EqDecision value.
Proof. solve_decision. Defined.

(** An entry of the returned [defaultdict(list)]: the scalar of a directive,
    or the list of the records of one type. *)
Inductive entry :=
| Scalar (v : value)
| Records (l : list (gmap string value)).

(** The exceptions the parser can raise. *)
Inductive exn :=
| InvalidLineException (line : string)
| IndexError
| AssertionError
| TypeError
| KeyError
| AttributeError.

Inductive result (A : Type) :=
| Ok (a : A)
| Raise (e : exn).
Arguments Ok {A} a.
Arguments Raise {A} e.

#[global] Instance result_bind : MBind result := fun A B k r =>
  match r with
  | Ok a => k a
  | Raise e => Raise e
  end.

(** ** The argparse parser built by make_parser (source lines 23-81) *)

Inductive argtype := ArgStr | ArgInt.

(** A positional argument: its destination, its [type=] and whether it was
    declared with [nargs='?']. *)
Record positional := Positional {
  dest : string;
  argty : argtype;
  optional : bool
}.

Definition make_rr_subparser (rec_type : string)
    (args_and_types : list (string * argtype)) : string * list positional :=
  (rec_type,
   [Positional "name" ArgStr false;
    Positional "ttl" ArgInt true;
    Positional "class" ArgStr false;
    Positional rec_type ArgStr false]
   ++ map (fun '(argname, argtype) => Positional argname argtype false)
          args_and_types).

(** The subparsers, in the order of their registration. *)
Definition make_parser : list (string * list positional) :=
  [("$ORIGIN", [Positional "$ORIGIN" ArgStr false]);
   ("$TTL", [Positional "$TTL" ArgInt false]);
   make_rr_subparser "SOA"
     [("mname", ArgStr); ("rname", ArgStr); ("serial", ArgInt);
      ("refresh", ArgInt); ("retry", ArgInt); ("expire", ArgInt);
      ("minimum", ArgInt)];
   make_rr_subparser "NS" [("host", ArgStr)];
   make_rr_subparser "A" [("ip", ArgStr)];
   make_rr_subparser "AAAA" [("ip", ArgStr)];
   make_rr_subparser "CNAME" [("alias", ArgStr)];
   make_rr_subparser "MX" [("preference", ArgStr); ("host", ArgStr)];
   make_rr_subparser "TXT" [("txt", ArgStr)];
   make_rr_subparser "PTR" [("host", ArgStr)];
   make_rr_subparser "SRV"
     [("priority", ArgInt); ("weight", ArgInt); ("port", ArgInt);
      ("target", ArgStr)];
   make_rr_subparser "SPF" [("data", ArgStr)];
   make_rr_subparser "URI"
     [("priority", ArgInt); ("weight", ArgInt); ("target", ArgStr)]].

(** *** The library side: [int] and [ArgumentParser.parse_known_args]

    [argparse] and [int] belong to the Python 2 standard library, not to the
    repository; the definitions of this part model them (as of Python 2.7.4
    and later) on the parsers that [make_parser] builds: a choice of
    subparser by the first argument, then positional arguments only, one
    string each, the [ttl] filled when a string is left for it.  The first
    string that is two dashes is the end-of-options marker: it is no
    argument, and every string behind it is one. *)
Module Argparse.

Definition digit_value (c : ascii) : Z := Z.of_nat (nat_of_ascii c) - 48.

Fixpoint all_digits (s : string) : bool :=
  match s with
  | EmptyString => true
  | String c s' => Py.isdigit c && all_digits s'
  end.

Fixpoint digits_value (s : string) (acc : Z) : Z :=
  match s with
  | EmptyString => acc
  | String c s' => digits_value s' (10 * acc + digit_value c)
  end.

(** [int(s)] on the decimal literals: blanks around, a sign, digits.  Any
    other string is refused. *)
Definition py_int (s : string) : option Z :=
  let s := Py.rstrip_by Py.isspace (Py.lstrip_by Py.isspace s) in
  let unsigned (d : string) : option Z :=
    if Py.nonempty d && all_digits d then Some (digits_value d 0) else None in
  match s with
  | String "-" d => Z.opp <$> unsigned d
  | String "+" d => unsigned d
  | _ => unsigned s
  end.

(** [s.startswith(p)] for a string [p]. *)
Fixpoint has_prefix (p s : string) : bool :=
  match p, s with
  | EmptyString, _ => true
  | String a p', String b s' => Ascii.eqb a b && has_prefix p' s'
  | String _ _, EmptyString => false
  end.

(** The part of [s] before its first [c]. *)
Fixpoint before (c : ascii) (s : string) : string :=
  match s with
  | EmptyString => EmptyString
  | String d s' => if Ascii.eqb d c then EmptyString else String d (before c s')
  end.

(** The part of [s] after its first [c]; [None] without a [c]. *)
Fixpoint after (c : ascii) (s : string) : option string :=
  match s with
  | EmptyString => None
  | String d s' => if Ascii.eqb d c then Some s' else after c s'
  end.

(** The string without the line break that ends it, if one does: the
    dollar of a regular expression matches in front of that line break as
    it does at the end. *)
Fixpoint chomp (s : string) : string :=
  match s with
  | EmptyString => EmptyString
  | String c s' =>
      match s' with
      | EmptyString => if Ascii.eqb c Py.newline then EmptyString else s
      | String _ _ => String c (chomp s')
      end
  end.

(** The parser's [_negative_number_matcher]: a minus sign and digits, or a
    minus sign, digits if any, a dot and digits, up to the end of the
    string or to the line break that ends it. *)
Definition negative_number (s : string) : bool :=
  match chomp s with
  | String "-" r =>
      (Py.nonempty r && all_digits r)
      || match after "." r with
         | Some f => all_digits (before "." r) && Py.nonempty f && all_digits f
         | None => false
         end
  | _ => false
  end.

(** [_parse_optional] on a parser whose only options are [-h] and [--help]:
    [true] when the string is taken for an option rather than for a
    positional argument.  The parser asks this of the strings in front of
    the end-of-options marker only, never of the marker. *)
Definition option_like (s : string) : bool :=
  match s with
  | String "-" (String c r) =>
      if Ascii.eqb c "-" then
        has_prefix (before "=" s) "--help"
        || negb (negative_number s || Py.contains Py.space s)
      else
        Ascii.eqb c "h"
        || negb (negative_number s || Py.contains Py.space s)
  | _ => false
  end.

(** The end-of-options marker. *)
Definition marker : string := "--".

(** The strings in front of the first marker. *)
Fixpoint before_marker (args : list string) : list string :=
  match args with
  | [] => []
  | a :: args' => if String.eqb a marker then [] else a :: before_marker args'
  end.

(** The number of arguments among the strings: all of them but the first
    marker. *)
Definition count_args (args : list string) : nat :=
  length args - (if existsb (fun a => String.eqb a marker) args then 1 else 0).

(** The value of one argument string; [None] is the error of a failed
    [type=] conversion. *)
Definition get_value (ty : argtype) (s : string) : option value :=
  match ty with
  | ArgStr => Some (VStr s)
  | ArgInt => VInt <$> py_int s
  end.

(** A marker at the head of the strings, unless the marker was seen before:
    whether there is one, and the strings behind it. *)
Definition take_marker (seen : bool) (args : list string)
    : bool * list string :=
  match args with
  | a :: args' =>
      if negb seen && String.eqb a marker then (true, args') else (false, args)
  | [] => (false, [])
  end.

(** The argument string of a positional: a required one takes the next
    string and fails without one, an optional one takes a string while one
    is spare. *)
Definition take_arg (p : positional) (spare : nat) (args : list string)
    : option (option string * list string * nat) :=
  if optional p then
    match spare, args with
    | S spare', a :: args' => Some (Some a, args', spare')
    | _, _ => Some (None, args, spare)
    end
  else
    match args with
    | a :: args' => Some (Some a, args', spare)
    | [] => None
    end.

(** [_get_values] on the strings matched for a positional, its argument
    string [arg] if it has one and the marker if [marked]: the first string
    of two dashes is removed, which is the marker when it is among them, and
    else the argument string when that is two dashes; what is left is
    converted, and when nothing is left the value is the default [None] of
    an optional positional and the empty list of a required one. *)
Definition get_values (p : positional) (arg : option string) (marked : bool)
    : option value :=
  let left :=
    match arg with
    | Some a => if negb marked && String.eqb a marker then None else Some a
    | None => None
    end in
  match left with
  | Some a => get_value (argty p) a
  | None => Some (if optional p then VNone else VNil)
  end.

(** Matching the positionals against the argument strings; [seen] tells
    whether the marker lies behind, and [spare] is the number of arguments
    beyond the required positionals.  Each positional takes the marker in
    front of its argument string and behind it.  The result is the
    namespace and the strings left over. *)
Fixpoint consume_positionals (ps : list positional) (args : list string)
    (seen : bool) (spare : nat) (ns : gmap string value)
    : option (gmap string value * list string) :=
  match ps with
  | [] => Some (ns, args)
  | p :: ps' =>
      let '(m1, args) := take_marker seen args in
      let seen := seen || m1 in
      '(arg, args, spare) ← take_arg p spare args;
      let '(m2, args) := take_marker seen args in
      let seen := seen || m2 in
      v ← get_values p arg (m1 || m2);
      consume_positionals ps' args seen spare (<[dest p := v]> ns)
  end.

Definition required (ps : list positional) : nat :=
  length (List.filter (fun p => negb (optional p)) ps).

(** [parser.parse_known_args(args)]: the namespace as a dict and the
    unmatched strings; [None] is a call of [error] (or the exit of [-h]).
    A string taken for an option ends in the help exit, in an error or
    among the unmatched strings, and [parse_line] turns each of the three
    into the same exception: the three are one case here. *)
Definition parse_known_args (parser : list (string * list positional))
    (args : list string) : option (gmap string value * list string) :=
  match args with
  | [] => None
  | cmd :: args' =>
      '(_, ps) ← List.find (fun sp => String.eqb (fst sp) cmd) parser;
      if existsb option_like (before_marker args') then None
      else consume_positionals ps args' false
             (count_args args' - required ps) ∅
  end.

End Argparse.

(** ** parse_line (source lines 254-337) *)

(** [record_token[i]]; the index is in range wherever the source reads it. *)
Definition item (record_token : list string) (i : nat) : string :=
  nth i record_token "".

(** [len(record_token) >= i + 1 and record_token[i] in SUPPORTED_RECORDS]. *)
Definition supported_at (i : nat) (record_token : list string) : bool :=
  match record_token !! i with
  | Some tok => Py.mem tok SUPPORTED_RECORDS
  | None => false
  end.

(** [l.insert(i, x)]. *)
Definition list_insert_at {A} (i : nat) (x : A) (l : list A) : list A :=
  take i l ++ x :: drop i l.

(** [tok[0].isdigit()]; the index error of the empty token. *)
Definition first_isdigit (tok : string) : result bool :=
  match tok with
  | EmptyString => Raise IndexError
  | String c _ => Ok (Py.isdigit c)
  end.

(** Lines 268-290: the record type is put in front and the slots are
    normalised; the result is the new [record_token] and [class_inferred]. *)
Definition dispatch (record_token : list string) : result (list string * bool) :=
  if supported_at 1 record_token then
    (* RR has no TTL or CLASS *)
    let record_token := item record_token 1 :: record_token in
    Ok (list_insert_at 2 "IN" record_token, true)
  else if supported_at 2 record_token then
    (* RR has a TTL or CLASS *)
    let record_token := item record_token 2 :: record_token in
    d ← first_isdigit (item record_token 2);
    if d : bool then Ok (list_insert_at 3 "IN" record_token, true)
    else Ok (record_token, false)
  else if supported_at 3 record_token then
    (* RR has a TTL and CLASS *)
    let record_token := item record_token 3 :: record_token in
    d ← first_isdigit (item record_token 2);
    if negb d then
      Ok (<[2 := item record_token 3]> (<[3 := item record_token 2]> record_token),
          false)
    else Ok (record_token, false)
  else Ok (record_token, false).

(** [record_dict[key] == key]. *)
Definition value_is (v : value) (key : string) : bool :=
  match v with
  | VStr s => String.eqb s key
  | _ => false
  end.

(** Lines 302-311: the first key that names a supported record and is a
    directive or holds its own name; that key is deleted when it holds its own
    name.  [None] is the failure of the assertion.  The keys come in the
    order of the map, as those of a Python 2 dict come in no order one can
    rely on; a namespace of [make_parser] has one key at most that names a
    supported record (see [subparser_ok]), so that the order does not show. *)
Definition find_record_type (record_dict : gmap string value)
    : option (string * gmap string value) :=
  '(key, v) ← List.find
      (fun kv => Py.mem (fst kv) SUPPORTED_RECORDS
                 && (Py.startswith Py.dollar (fst kv) || value_is (snd kv) (fst kv)))
      (map_to_list record_dict);
  Some (key, if value_is v key then delete key record_dict else record_dict).

(** Lines 313-316: the fields that hold [None] are deleted. *)
Definition clean_fields (record_dict : gmap string value) : gmap string value :=
  filter (fun kv => snd kv ≠ VNone) record_dict.

(** Line 318: [record_dict.get('$ORIGIN', parsed_records.get('$ORIGIN', None))]. *)
Definition get_current_origin (record_dict : gmap string value)
    (parsed_records : gmap string entry) : entry :=
  match record_dict !! "$ORIGIN" with
  | Some v => Scalar v
  | None => default (Scalar VNone) (parsed_records !! "$ORIGIN")
  end.

(** Line 322: [record_dict['name'] + '.' + current_origin]. *)
Definition ptr_fullname (record_dict : gmap string value) (current_origin : entry)
    : result string :=
  match record_dict !! "name" with
  | None => Raise KeyError
  | Some (VStr name) =>
      match current_origin with
      | Scalar (VStr origin) => Ok (name ++ "." ++ origin)%string
      | _ => Raise TypeError
      end
  | Some _ => Raise TypeError
  end.

(** Lines 265-326: everything before the accumulator is written.  The
    result is [record_type] and the finished [record_dict]. *)
Definition parse_record (record_token : list string)
    (parsed_records : gmap string entry) : result (string * gmap string value) :=
  let line := Py.join " " record_token in
  '(record_token, class_inferred) ← dispatch record_token;
  match Argparse.parse_known_args make_parser record_token with
  | Some (record_dict, []) =>
      match find_record_type record_dict with
      | None => Raise AssertionError
      | Some (record_type, record_dict) =>
          let record_dict := clean_fields record_dict in
          let current_origin := get_current_origin record_dict parsed_records in
          record_dict ←
            (if String.eqb record_type "PTR" then
               fullname ← ptr_fullname record_dict current_origin;
               Ok (<["fullname" := VStr fullname]> record_dict)
             else Ok record_dict);
          let record_dict :=
            if class_inferred : bool
            then <["_missing_class" := VTrue]> record_dict else record_dict in
          Ok (record_type, record_dict)
      end
  | _ => Raise (InvalidLineException line)
  end.

(** Lines 328-337: the record is merged into the accumulator.  The result is
    the accumulator after the call and the exception, if one was raised. *)
Definition accumulate (record_type : string) (record_dict : gmap string value)
    (parsed_records : gmap string entry) : gmap string entry * option exn :=
  if negb (Nat.eqb (size record_dict) 0) then
    let record_dict_key := Py.lower record_type in
    if Py.startswith Py.dollar record_type then
      (* put the value directly *)
      match record_dict !! record_type with
      | Some v => (<[record_dict_key := Scalar v]> parsed_records, None)
      | None => (parsed_records, Some KeyError)
      end
    else
      match parsed_records !! record_dict_key with
      | None => (<[record_dict_key := Records [record_dict]]> parsed_records, None)
      | Some (Records l) =>
          (<[record_dict_key := Records (l ++ [record_dict])]> parsed_records, None)
      | Some (Scalar _) => (parsed_records, Some AttributeError)
      end
  else (parsed_records, None).

Definition parse_line (record_token : list string)
    (parsed_records : gmap string entry) : gmap string entry * option exn :=
  match parse_record record_token parsed_records with
  | Raise e => (parsed_records, Some e)
  | Ok (record_type, record_dict) =>
      accumulate record_type record_dict parsed_records
  end.

(** ** parse_lines (source lines 340-360) *)

Fixpoint parse_lines_loop (ignore_invalid : bool) (record_lines : list string)
    (json_zone_file : gmap string entry) : result (gmap string entry) :=
  match record_lines with
  | [] => Ok json_zone_file
  | record_line :: record_lines' =>
      let record_token := tokenize_line record_line in
      match parse_line record_token json_zone_file with
      | (json_zone_file, None) =>
          parse_lines_loop ignore_invalid record_lines' json_zone_file
      | (json_zone_file, Some (InvalidLineException line)) =>
          if ignore_invalid
          then parse_lines_loop ignore_invalid record_lines' json_zone_file
          else Raise (InvalidLineException line)
      | (_, Some e) => Raise e
      end
  end.

Definition parse_lines (text : string) (ignore_invalid : bool)
    : result (gmap string entry) :=
  parse_lines_loop ignore_invalid (Py.split Py.newline text) ∅.

(** ** parse_zone_file (source lines 363-371) *)

Definition parse_zone_file (text : string) (ignore_invalid : bool)
    : result (gmap string entry) :=
  let text := remove_comments text in
  let text := flatten text in
  let text := add_default_name text in
  parse_lines text ignore_invalid.

(** ** Vocabulary of the statements *)

(** A text of two physical lines. *)
Definition two_lines (l1 l2 : string) : string :=
  l1 ++ Py.chr Py.newline ++ l2.

(** Every character of [s] satisfies [p]. *)
Fixpoint all_chars (p : ascii -> bool) (s : string) : bool :=
  match s with
  | EmptyString => true
  | String c s' => p c && all_chars p s'
  end.

(** The three characters the tokenizer gives a meaning to. *)
Definition special (c : ascii) : bool :=
  Ascii.eqb c Py.backslash || Ascii.eqb c Py.dquote || Ascii.eqb c Py.semicolon.

(** No double quote, backslash or semicolon in the token. *)
Definition unspecial (tok : string) : bool :=
  all_chars (fun c => negb (special c)) tok.

(** No whitespace in the token. *)
Definition unspaced (tok : string) : bool :=
  all_chars (fun c => negb (Py.isspace c)) tok.

(** A bare word: a token the tokenizer reads back as it stands. *)
Definition bare_word (tok : string) : bool :=
  Py.nonempty tok && unspecial tok && unspaced tok.

(** A token that survives serialization: not empty, free of the special
    characters, and holding a space (so that it is quoted) whenever it holds
    whitespace at all. *)
Definition stable_token (tok : string) : bool :=
  Py.nonempty tok && unspecial tok && (Py.contains Py.space tok || unspaced tok).

(** The first token names a resource record type: supported, no directive. *)
Definition names_rr_type (tok0 : string) : bool :=
  Py.mem tok0 SUPPORTED_RECORDS && negb (Py.startswith Py.dollar tok0).

(** The scanner state holds no backslash. *)
Definition backslash_free (st : tok_state) : Prop :=
  Forall (fun t => Py.contains Py.backslash t = false) (ret st)
  /\ Py.contains Py.backslash (tokbuf st) = false.

(** The lines that [parse_lines] reads when [parse_zone_file] is given
    [text]: the text without comments, flattened and with default names. *)
Definition record_lines (text : string) : list string :=
  Py.split Py.newline (add_default_name (flatten (remove_comments text))).

(** The record type and the record that a line yields on its own, [None]
    for a line that the parser refuses. *)
Definition line_record (line : string) : option (string * gmap string value) :=
  match parse_record (tokenize_line line) ∅ with
  | Ok x => Some x
  | Raise _ => None
  end.

(** The line yields a resource record (not a directive). *)
Definition yields_record (line : string) : bool :=
  match line_record line with
  | Some (ty, _) => negb (Py.startswith Py.dollar ty)
  | None => false
  end.

(** The records of type [ty] that the lines yield, in the order of the lines. *)
Definition records_of_type (ty : string) (lines : list string)
    : list (gmap string value) :=
  omap (fun line =>
          match line_record line with
          | Some (ty', rd) => if String.eqb ty' ty then Some rd else None
          | None => None
          end)
       lines.

(** The list of records stored under [key], empty when there is none. *)
Definition records_under (key : string) (zf : gmap string entry)
    : list (gmap string value) :=
  match zf !! key with
  | Some (Records l) => l
  | _ => []
  end.

(** The number of records in a zone file, over all its entries. *)
Definition entry_count (e : entry) : nat :=
  match e with
  | Records l => length l
  | Scalar _ => 0
  end.

Definition record_count (zf : gmap string entry) : nat :=
  map_fold (fun _ e n => entry_count e + n) 0 zf.

(** The value that a line gives the directive [d]: the value in the record
    that the line yields on its own, for a line that the parser accepts as
    the directive [d]; [None] for any other line. *)
Definition directive_value (d : string) (line : string) : option value :=
  match line_record line with
  | Some (ty, rd) => if String.eqb ty d then rd !! d else None
  | None => None
  end.

(** The line is a [$TTL] directive: the parser accepts it as one. *)
Definition ttl_directive (line : string) : bool :=
  match directive_value "$TTL" line with
  | Some _ => true
  | None => false
  end.

(** The accumulator has no entry under the upper-cased [$ORIGIN], the key
    that line 318 reads. *)
Definition origin_free (pr : gmap string entry) : Prop :=
  pr !! "$ORIGIN" = None.

(** The entries under directive keys are scalars. *)
Definition directives_scalar (pr : gmap string entry) : Prop :=
  forall key l, pr !! key = Some (Records l) -> Py.startswith Py.dollar key = false.

(** The shape of a subparser: its own name is the only destination among the
    supported record names; a directive has that one positional; a resource
    record starts with the required string [name], declared once. *)
Definition subparser_ok (sp : string * list positional) : bool :=
  let '(cmd, ps) := sp in
  forallb (fun p => implb (Py.mem (dest p) SUPPORTED_RECORDS)
                          (String.eqb (dest p) cmd)) ps
  && Py.mem cmd SUPPORTED_RECORDS
  && match ps with
     | p :: rest =>
         if Py.startswith Py.dollar cmd
         then String.eqb (dest p) cmd && negb (optional p) && Nat.eqb (length rest) 0
         else String.eqb (dest p) "name" && negb (optional p)
              && match argty p with ArgStr => true | ArgInt => false end
              && negb (Py.mem "name" (map dest rest))
     | [] => false
     end.


(** A text made of the given physical lines. *)
Definition text_of_lines (lines : list string) : string :=
  Py.join (Py.chr Py.newline) lines.

(** The zone file of a result, empty when the parse raised. *)
Definition zone_of (r : result (gmap string entry)) : gmap string entry :=
  match r with
  | Ok zf => zf
  | Raise _ => ∅
  end.

(** A token that [serialize] writes so that the tokenizer reads it back:
    not empty, without double quote or backslash, and holding a space (so
    that it is quoted) whenever it holds whitespace at all.  Semicolons are
    allowed. *)
Definition serializable_token (tok : string) : bool :=
  Py.nonempty tok
  && negb (Py.contains Py.dquote tok)
  && negb (Py.contains Py.backslash tok)
  && (Py.contains Py.space tok || unspaced tok).

(** A physical line: a text without line break. *)
Definition single_line (l : string) : bool := negb (Py.contains Py.newline l).

(** The words of a physical line, as the first loop of [flatten] takes them:
    tabs read as spaces, the line cut at the spaces, the empty pieces left
    out. *)
Definition line_words (l : string) : list string :=
  List.filter Py.nonempty (Py.split Py.space (Py.replace Py.tab " " l)).

(** A word of the line starts with an opening parenthesis. *)
Definition opens_group (l : string) : bool :=
  existsb (Py.startswith Py.lparen) (line_words l).

(** The line has a word at all. *)
Definition has_words (l : string) : bool :=
  negb (Nat.eqb (length (line_words l)) 0).

(** The line is blank or a comment: after its leading whitespace it is at
    its end or at a semicolon. *)
Definition blank_or_comment (l : string) : bool :=
  match Py.lstrip_by Py.isspace l with
  | EmptyString => true
  | String c _ => Ascii.eqb c Py.semicolon
  end.

(** A record of the zone file: it holds the name of the record, a string,
    and no field of it holds [None]. *)
Definition record_ok (rd : gmap string value) : Prop :=
  (exists a, rd !! "name" = Some (VStr a))
  /\ forall k, rd !! k <> Some VNone.

(** An entry of the zone file under its key: the origin is a string, the
    TTL an integer, and every other entry a list, not empty, of records
    under the lower-cased name of a supported resource record. *)
Definition entry_ok (key : string) (e : entry) : Prop :=
  match e with
  | Scalar v =>
      (key = "$origin" /\ exists s, v = VStr s)
      \/ (key = "$ttl" /\ exists n, v = VInt n)
  | Records l =>
      l <> [] /\ Forall record_ok l
      /\ exists ty, names_rr_type ty = true /\ key = Py.lower ty
  end.

Definition zone_ok (zf : gmap string entry) : Prop :=
  forall key e, zf !! key = Some e -> entry_ok key e.

(** The one field of a resource record type that [make_parser] gives a
    single field, a string, beside the common slots: [host] for NS, [ip] for
    A and AAAA, [alias] for CNAME, [txt] for TXT, [data] for SPF.  PTR is
    left out: a PTR line goes through line 322. *)
Definition string_field (ty : string) : option string :=
  match List.find (fun sp => String.eqb (fst sp) ty) make_parser with
  | Some (_, [_; _; _; _; Positional f ArgStr false]) =>
      if String.eqb ty "PTR" then None else Some f
  | _ => None
  end.

(** The accumulator after [rd] is appended to the records of type [ty]. *)
Definition with_record (ty : string) (rd : gmap string value)
    (pr : gmap string entry) : gmap string entry :=
  <[Py.lower ty := Records (records_under (Py.lower ty) pr ++ [rd])]> pr.

(** No scalar is stored where the records of type [ty] go; so it is in
    every zone file that [parse_zone_file] builds. *)
Definition list_slot (ty : string) (pr : gmap string entry) : Prop :=
  forall x, pr !! Py.lower ty <> Some (Scalar x).

(** Neither parenthesis in the string. *)
Definition paren_free (s : string) : bool :=
  negb (Py.contains Py.lparen s) && negb (Py.contains Py.rparen s).

(** A word that opens a group and does not close it, and a word that closes
    a group, as [flatten] reads them (lines 216-224). *)
Definition group_opener (w : string) : bool :=
  Py.startswith Py.lparen w && negb (Py.contains Py.rparen w).

Definition group_closer (w : string) : bool :=
  negb (Py.startswith Py.lparen w) && Py.endswith Py.rparen w.

(** What [Argparse.consume_positionals] comes to on argument strings none
    of which is the marker: each positional takes one string. *)
Fixpoint consume_unmarked (ps : list positional) (args : list string)
    (spare : nat) (ns : gmap string value)
    : option (gmap string value * list string) :=
  match ps with
  | [] => Some (ns, args)
  | p :: ps' =>
      if optional p then
        match spare, args with
        | S spare', a :: args' =>
            v ← Argparse.get_value (argty p) a;
            consume_unmarked ps' args' spare' (<[dest p := v]> ns)
        | _, _ => consume_unmarked ps' args spare (<[dest p := VNone]> ns)
        end
      else
        match args with
        | a :: args' =>
            v ← Argparse.get_value (argty p) a;
            consume_unmarked ps' args' spare (<[dest p := v]> ns)
        | [] => None
        end
  end.

(** No string of the list is the marker. *)
Definition unmarked (args : list string) : bool :=
  forallb (fun a => negb (String.eqb a Argparse.marker)) args.

(** * Properties *)

(** ** Strings *)

Section StringFacts.

Lemma append_nil_r (s : string) : (s ++ "")%string = s.
Proof. induction s as [|c s IH]; simpl; [reflexivity | now rewrite IH]. Qed.

Lemma append_assoc (s t u : string) :
  ((s ++ t) ++ u)%string = (s ++ (t ++ u))%string.
Proof. induction s as [|c s IH]; simpl; [reflexivity | now rewrite IH]. Qed.

Lemma append_chr (s : string) (c : ascii) (t : string) :
  ((s ++ Py.chr c) ++ t)%string = (s ++ String c t)%string.
Proof. now rewrite append_assoc. Qed.

Lemma contains_append (c : ascii) (s t : string) :
  Py.contains c (s ++ t) = Py.contains c s || Py.contains c t.
Proof.
  induction s as [|d s IH]; simpl; [reflexivity|].
  now rewrite IH, orb_assoc.
Qed.

Lemma all_chars_contains (p : ascii -> bool) (c : ascii) (s : string) :
  all_chars p s = true -> p c = false -> Py.contains c s = false.
Proof.
  induction s as [|d s IH]; simpl; [reflexivity|].
  intros [Hd Hs]%andb_true_iff Hc.
  rewrite (IH Hs Hc), orb_false_r.
  destruct (Ascii.eqb_spec d c) as [->|]; congruence.
Qed.

Lemma lstrip_by_id (p : ascii -> bool) (s : string) :
  all_chars (fun c => negb (p c)) s = true -> Py.lstrip_by p s = s.
Proof.
  destruct s as [|c s]; simpl; [reflexivity|].
  intros [Hc _]%andb_true_iff. now apply negb_true_iff in Hc as ->.
Qed.

Lemma rstrip_by_id (p : ascii -> bool) (s : string) :
  all_chars (fun c => negb (p c)) s = true -> Py.rstrip_by p s = s.
Proof.
  induction s as [|c s IH]; simpl; [reflexivity|].
  intros [Hc Hs]%andb_true_iff. rewrite (IH Hs).
  apply negb_true_iff in Hc. rewrite Hc. now destruct s.
Qed.

Lemma all_chars_impl (p q : ascii -> bool) (s : string) :
  (forall c, p c = true -> q c = true) ->
  all_chars p s = true -> all_chars q s = true.
Proof.
  intros Hpq. induction s as [|c s IH]; simpl; [reflexivity|].
  intros [Hc Hs]%andb_true_iff. now rewrite (Hpq _ Hc), IH.
Qed.

Lemma split_no_sep (sep : ascii) (s : string) :
  Py.contains sep s = false -> Py.split sep s = [s].
Proof.
  induction s as [|c s IH]; simpl; [reflexivity|].
  intros [Hc Hs]%orb_false_iff. now rewrite Hc, (IH Hs).
Qed.

End StringFacts.

(** ** The tokenizer *)

Section Tokenizer.

(** A run of characters that are neither special nor, outside quotes,
    whitespace goes to the token buffer as it stands. *)
Lemma tokenize_loop_literal (w rest : string) (r : list string) (q : bool)
    (buf : string) :
  all_chars (fun c => negb (special c) && (q || negb (Py.isspace c))) w = true ->
  tokenize_loop (w ++ rest) (TokState r false q buf)
  = tokenize_loop rest (TokState r false q (buf ++ w)).
Proof.
  revert buf. induction w as [|c w IH]; intros buf; simpl.
  - now rewrite append_nil_r.
  - intros [[Hsp Hws]%andb_true_iff Hw]%andb_true_iff.
    apply negb_true_iff in Hsp. unfold special in Hsp.
    apply orb_false_iff in Hsp as [[Hb Hd]%orb_false_iff Hs].
    rewrite Hb, Hd, Hs. simpl.
    destruct (Py.isspace c) eqn:Hc.
    + rewrite orb_false_r in Hws. subst q. simpl.
      rewrite (IH _ Hw). now rewrite append_chr.
    + rewrite (IH _ Hw). now rewrite append_chr.
Qed.

Lemma bare_word_literal (w : string) :
  unspecial w = true -> unspaced w = true ->
  all_chars (fun c => negb (special c) && (false || negb (Py.isspace c))) w = true.
Proof.
  unfold unspecial, unspaced.
  induction w as [|c w IH]; simpl; [reflexivity|].
  intros [-> H1]%andb_true_iff [-> H2]%andb_true_iff. simpl. now apply IH.
Qed.

Lemma quoted_literal (w : string) :
  unspecial w = true ->
  all_chars (fun c => negb (special c) && (true || negb (Py.isspace c))) w = true.
Proof.
  unfold unspecial. apply all_chars_impl. intros c ->. reflexivity.
Qed.

Lemma backslash_free_flush (r : list string) (buf : string) :
  Forall (fun t => Py.contains Py.backslash t = false) r ->
  Py.contains Py.backslash buf = false ->
  Forall (fun t => Py.contains Py.backslash t = false) (r ++ [buf]).
Proof. intros Hr Hb. apply Forall_app; split; [assumption | now constructor]. Qed.

Lemma backslash_free_push (buf : string) (c : ascii) :
  Py.contains Py.backslash buf = false ->
  Ascii.eqb c Py.backslash = false ->
  Py.contains Py.backslash (buf ++ Py.chr c) = false.
Proof. intros Hb Hc. rewrite contains_append, Hb. simpl. now rewrite Hc. Qed.

Lemma isspace_not_backslash (c : ascii) :
  Py.isspace c = true -> Ascii.eqb c Py.backslash = false.
Proof.
  intros Hc. destruct (Ascii.eqb_spec c Py.backslash) as [->|]; [|reflexivity].
  discriminate Hc.
Qed.

Lemma tokenize_loop_backslash_free (ll : string) (st : tok_state) :
  backslash_free st -> backslash_free (tokenize_loop ll st).
Proof.
  revert st. induction ll as [|c ll IH]; intros [r e q buf] [Hr Hb]; simpl in *.
  - now split.
  - destruct (Py.isspace c) eqn:Hc.
    + pose proof (isspace_not_backslash c Hc) as Hnb.
      destruct (negb q && negb e); [|destruct q; [|destruct e]];
        apply IH; split; simpl; auto using backslash_free_push.
      destruct (Py.nonempty buf); auto using backslash_free_flush.
    + destruct (Ascii.eqb c Py.backslash) eqn:Hnb.
      { apply IH. now split. }
      destruct (Ascii.eqb c Py.dquote && negb e).
      { destruct q; apply IH; split; simpl; auto using backslash_free_flush. }
      destruct (Ascii.eqb c Py.semicolon && negb e).
      { split; simpl; auto using backslash_free_flush. }
      apply IH; split; simpl; auto using backslash_free_push.
Qed.

(** No token of any line holds a backslash. *)
Lemma tokenize_line_backslash_free (line tok : string) :
  In tok (tokenize_line line) -> Py.contains Py.backslash tok = false.
Proof.
  unfold tokenize_line, tokenize_finish.
  destruct (tokenize_loop_backslash_free line tok_init) as [Hr Hb].
  { split; [constructor | reflexivity]. }
  intros Hin. rewrite List.Forall_forall in Hr.
  destruct (Py.nonempty _).
  - apply in_app_or in Hin as [Hin|[<-|[]]]; [now apply Hr | assumption].
  - now apply Hr.
Qed.

End Tokenizer.

(** ** The specification of the tokenizer *)

(** C8. The four fixtures of the tokenizer: [A B] gives the tokens A and B;
    A followed by the quoted [B C] gives A and [B C]; A, a backslash, a
    space and B give the one token [A B]; and [A ; comment] gives A and the
    empty token, the buffer flushed at the semicolon. *)
Theorem tokenize_line_fixtures :
  tokenize_line "A B" = ["A"; "B"]
  /\ tokenize_line ("A " ++ quoted "B C") = ["A"; "B C"]
  /\ tokenize_line "A\ B" = ["A B"]
  /\ tokenize_line "A ; comment" = ["A"; ""].
Proof. repeat split; reflexivity. Qed.

(** C7, as the code has it.  A backslash sets the escape flag and is
    consumed in every state of the scanner, the escaped state included: the
    buffer is left as it was and the flag stays set.  So no token that
    [tokenize_line] returns holds a backslash, whatever the line. *)
Theorem backslash_always_consumed :
  (forall ll st,
      tokenize_loop (String Py.backslash ll) st
      = tokenize_loop ll (TokState (ret st) true (quote st) (tokbuf st)))
  /\ (forall line tok,
         In tok (tokenize_line line) -> Py.contains Py.backslash tok = false).
Proof.
  split.
  - intros ll [r e q buf]. reflexivity.
  - apply tokenize_line_backslash_free.
Qed.

Lemma backslash_always_consumed_witness :
  In "ab" (tokenize_line "a\\b") /\ Py.contains Py.backslash "ab" = false.
Proof.
  split; [left; reflexivity|].
  apply (proj2 backslash_always_consumed "a\\b" "ab"). left; reflexivity.
Defined.

(** C7, as the specification words it, fails: in the escaped state a backslash is not
    emitted and the flag is not cleared, and no line with two backslashes in
    a row yields a token that holds one. *)
Lemma backslash_never_emitted :
  tokenize_loop "\" (TokState [] true false "a") = TokState [] true false "a"
  /\ tokenize_line "a\\b" = ["ab"]
  /\ ~ (exists pre post tok,
           In tok (tokenize_line (pre ++ "\\" ++ post))
           /\ Py.contains Py.backslash tok = true).
Proof.
  split; [reflexivity|]. split; [reflexivity|].
  intros (pre & post & tok & Hin & Hc).
  rewrite (tokenize_line_backslash_free _ _ Hin) in Hc. discriminate.
Qed.

(** C10. A semicolon that is not escaped ends the scan inside a quoted region
    as well: on a line made of a bare word [a], a space, an opening quote, a
    text [b] free of special characters, a semicolon and anything else [c],
    the tokens are [a] and [b], and [c] is never read. *)
Theorem semicolon_truncates_inside_quotes (a b c : string) :
  bare_word a = true ->
  unspecial b = true ->
  tokenize_line (a ++ " " ++ String Py.dquote (b ++ ";" ++ c)) = [a; b]
  /\ (forall r buf,
         tokenize_loop (String Py.semicolon c) (TokState r false true buf)
         = TokState (r ++ [buf]) false true "").
Proof.
  intros Ha Hb. split; [|reflexivity].
  unfold bare_word in Ha.
  apply andb_true_iff in Ha as [[Hne Hsp]%andb_true_iff Hws].
  unfold tokenize_line, tok_init.
  rewrite tokenize_loop_literal by now apply bare_word_literal.
  simpl. rewrite Hne.
  rewrite tokenize_loop_literal by now apply quoted_literal.
  reflexivity.
Qed.

Lemma semicolon_truncates_inside_quotes_witness :
  tokenize_line ("a " ++ quoted "b;c") = ["a"; "b"].
Proof.
  exact (proj1 (semicolon_truncates_inside_quotes "a" "b" ("c" ++ Py.chr Py.dquote)
                  eq_refl eq_refl)).
Defined.

(** ** Serialization followed by tokenization *)

Section RoundTrip.

Lemma unspecial_no_semicolon (tok : string) :
  unspecial tok = true -> Py.contains Py.semicolon tok = false.
Proof. intros H. now apply (all_chars_contains _ _ _ H). Qed.

(** What [serialize] writes for a stable token: the token in quotes when it
    holds a space, the token itself otherwise. *)
Lemma serialize_tok_stable (tok : string) :
  unspecial tok = true ->
  serialize_tok tok = if Py.contains Py.space tok then quoted tok else tok.
Proof.
  intros Hu. unfold serialize_tok.
  destruct (Py.contains Py.space tok).
  - unfold quoted. simpl. rewrite contains_append.
    now rewrite (unspecial_no_semicolon _ Hu).
  - now rewrite (unspecial_no_semicolon _ Hu).
Qed.

(** A serialized token followed by the separating space is read back as
    that token. *)
Lemma tokenize_loop_token_sep (tok rest : string) (r : list string) :
  stable_token tok = true ->
  tokenize_loop (serialize_tok tok ++ " " ++ rest) (TokState r false false "")
  = tokenize_loop rest (TokState (r ++ [tok]) false false "").
Proof.
  unfold stable_token.
  intros [[Hne Hu]%andb_true_iff Hq]%andb_true_iff.
  rewrite (serialize_tok_stable _ Hu).
  destruct (Py.contains Py.space tok).
  - unfold quoted. simpl. rewrite append_assoc.
    rewrite tokenize_loop_literal by now apply quoted_literal.
    reflexivity.
  - simpl in Hq.
    rewrite tokenize_loop_literal by now apply bare_word_literal.
    simpl. now rewrite Hne.
Qed.

(** The last serialized token of a line is read back as that token. *)
Lemma tokenize_loop_token_last (tok : string) (r : list string) :
  stable_token tok = true ->
  tokenize_finish (tokenize_loop (serialize_tok tok) (TokState r false false ""))
  = r ++ [tok].
Proof.
  unfold stable_token.
  intros [[Hne Hu]%andb_true_iff Hq]%andb_true_iff.
  rewrite (serialize_tok_stable _ Hu).
  destruct (Py.contains Py.space tok).
  - unfold quoted. simpl.
    rewrite tokenize_loop_literal by now apply quoted_literal.
    reflexivity.
  - simpl in Hq.
    rewrite <- (append_nil_r tok) at 1.
    rewrite tokenize_loop_literal by now apply bare_word_literal.
    unfold tokenize_finish. simpl.
    assert (Hs : Py.strip Py.space tok = tok).
    { unfold Py.strip, Py.lstrip, Py.rstrip.
      rewrite lstrip_by_id, rstrip_by_id; try reflexivity;
        revert Hq; apply all_chars_impl; intros c Hc;
        destruct (Ascii.eqb_spec c Py.space) as [->|]; auto; discriminate. }
    assert (Hn : Py.strip Py.newline tok = tok).
    { unfold Py.strip, Py.lstrip, Py.rstrip.
      rewrite lstrip_by_id, rstrip_by_id; try reflexivity;
        revert Hq; apply all_chars_impl; intros c Hc;
        destruct (Ascii.eqb_spec c Py.newline) as [->|]; auto; discriminate. }
    now rewrite Hs, Hn, Hne.
Qed.

Lemma tokenize_serialize_from (tokens r : list string) :
  forallb stable_token tokens = true ->
  tokenize_finish (tokenize_loop (serialize tokens) (TokState r false false ""))
  = r ++ tokens.
Proof.
  revert r. induction tokens as [|tok tokens IH]; intros r Hall.
  - simpl. now rewrite List.app_nil_r.
  - simpl in Hall. apply andb_true_iff in Hall as [Htok Hall].
    destruct tokens as [|tok' tokens].
    + now apply tokenize_loop_token_last.
    + change (serialize (tok :: tok' :: tokens))
        with (serialize_tok tok ++ " " ++ serialize (tok' :: tokens))%string.
      rewrite tokenize_loop_token_sep by assumption.
      rewrite (IH _ Hall). now rewrite <- List.app_assoc.
Qed.

End RoundTrip.

(** C2, as the code has it.  For every sequence of stable tokens (each one
    not empty, without double quote, backslash or semicolon, and without
    whitespace unless it holds a space), tokenizing the serialized sequence
    gives the sequence back. *)
Theorem tokenize_serialize_stable (tokens : list string) :
  forallb stable_token tokens = true ->
  tokenize_line (serialize tokens) = tokens.
Proof. intros H. apply (tokenize_serialize_from tokens [] H). Qed.

Lemma tokenize_serialize_stable_witness :
  tokenize_line (serialize ["www"; "TXT"; "hello big world"])
  = ["www"; "TXT"; "hello big world"].
Proof.
  exact (tokenize_serialize_stable ["www"; "TXT"; "hello big world"] eq_refl).
Defined.

(** C2, as the specification words it, fails on the empty token, which the
    tokenizer itself produces in front of a comment: the token sequence of
    [A ; comment] is serialized to A and a space, and read back as A alone. *)
Lemma tokenize_serialize_drops_empty_token :
  ~ (forall tokens : list string,
        forallb unspecial tokens = true ->
        tokenize_line (serialize tokens) = tokens).
Proof.
  intros H. specialize (H (tokenize_line "A ; comment") eq_refl).
  discriminate H.
Qed.

(** ** The specification of flatten and add_default_name *)

(** C6, as the code has it.  The two physical lines [NS ( host1] and
    [host2 )] are flattened to one line that keeps the tokens in their
    order and holds neither parenthesis nor line break; each parenthesis
    and the line break leave an empty word behind, so that the line reads
    NS, two spaces, host1, two spaces, host2, one space, and its tokens
    are NS, host1 and host2. *)
Theorem flatten_group_over_two_lines :
  flatten (two_lines "NS ( host1" "host2 )") = "NS  host1  host2 "
  /\ tokenize_line (flatten (two_lines "NS ( host1" "host2 )"))
     = ["NS"; "host1"; "host2"]
  /\ Py.contains Py.newline (flatten (two_lines "NS ( host1" "host2 )")) = false
  /\ Py.contains Py.lparen (flatten (two_lines "NS ( host1" "host2 )")) = false
  /\ Py.contains Py.rparen (flatten (two_lines "NS ( host1" "host2 )")) = false.
Proof. repeat split; reflexivity. Qed.

(** C6, as the specification words it, fails: the flattened line is not the text
    with single spaces. *)
Lemma flatten_group_keeps_empty_words :
  flatten (two_lines "NS ( host1" "host2 )") <> "NS host1 host2".
Proof. discriminate. Qed.

Lemma add_default_name_single_line (line : string) :
  Py.contains Py.newline line = false ->
  add_default_name line = default "" (add_default_name_line line).
Proof.
  intros Hnl. unfold add_default_name. rewrite (split_no_sep _ _ Hnl). simpl.
  now destruct (add_default_name_line line).
Qed.

(** C3, as the code has it.  The line [A 1.2.3.4] becomes [@ A 1.2.3.4],
    and so does every line whose first token is a supported record type
    other than a directive, the line [A 3600 IN A 1.2.3.4] included; a line
    with any other first token is re-serialized without the default name.
    When the tokens of the line are stable, the tokens of the result are
    those of the line, behind the default name in the first case. *)
Theorem add_default_name_by_first_token :
  add_default_name "A 1.2.3.4" = "@ A 1.2.3.4"
  /\ add_default_name "A 3600 IN A 1.2.3.4" = "@ A 3600 IN A 1.2.3.4"
  /\ add_default_name "www 3600 IN A 1.2.3.4" = "www 3600 IN A 1.2.3.4"
  /\ (forall line tok0 rest,
         Py.contains Py.newline line = false ->
         tokenize_line line = tok0 :: rest ->
         add_default_name line
         = serialize (if names_rr_type tok0 then "@" :: tok0 :: rest
                      else tok0 :: rest))
  /\ (forall line tok0 rest,
         Py.contains Py.newline line = false ->
         tokenize_line line = tok0 :: rest ->
         forallb stable_token (tok0 :: rest) = true ->
         tokenize_line (add_default_name line)
         = if names_rr_type tok0 then "@" :: tok0 :: rest else tok0 :: rest).
Proof.
  assert (Hgen : forall line tok0 rest,
             Py.contains Py.newline line = false ->
             tokenize_line line = tok0 :: rest ->
             add_default_name line
             = serialize (if names_rr_type tok0 then "@" :: tok0 :: rest
                          else tok0 :: rest)).
  { intros line tok0 rest Hnl Htok.
    rewrite (add_default_name_single_line _ Hnl).
    unfold add_default_name_line, names_rr_type. rewrite Htok. simpl.
    now destruct (_ && _). }
  repeat split; try reflexivity; [exact Hgen|].
  intros line tok0 rest Hnl Htok Hst.
  rewrite (Hgen _ _ _ Hnl Htok). unfold tokenize_line, tok_init.
  destruct (names_rr_type tok0).
  - now rewrite (tokenize_serialize_from ("@" :: tok0 :: rest) []).
  - now rewrite (tokenize_serialize_from (tok0 :: rest) []).
Qed.

Lemma add_default_name_by_first_token_witness :
  tokenize_line (add_default_name "MX 10 mail.example.com")
  = ["@"; "MX"; "10"; "mail.example.com"].
Proof.
  exact (proj2 (proj2 (proj2 (proj2 add_default_name_by_first_token)))
           "MX 10 mail.example.com" "MX" ["10"; "mail.example.com"]
           eq_refl eq_refl eq_refl).
Defined.

(** C3, as the specification words it, fails: the line [A 3600 IN A 1.2.3.4], whose
    name is A, does not come back unchanged. *)
Lemma add_default_name_changes_named_line :
  add_default_name "A 3600 IN A 1.2.3.4" <> "A 3600 IN A 1.2.3.4".
Proof. discriminate. Qed.

(** ** The grammar dispatcher *)

Section Dispatcher.

#[local] Arguments Py.mem : simpl never.

(** A line's raw text appears in the result of [parse_record] only as the
    message of [InvalidLineException]: two token lists with the same
    normalised slots give the same record. *)
Lemma parse_record_same_dispatch (toks1 toks2 : list string)
    (pr : gmap string entry) (x : string * gmap string value) :
  dispatch toks1 = dispatch toks2 ->
  parse_record toks1 pr = Ok x -> parse_record toks2 pr = Ok x.
Proof.
  unfold parse_record. intros <-.
  destruct (dispatch toks1) as [[argv ci]|e]; simpl; [|discriminate].
  destruct (Argparse.parse_known_args make_parser argv) as [[rd [|u us]]|];
    simpl; try discriminate.
  auto.
Qed.

Lemma parse_line_same_dispatch (toks1 toks2 : list string)
    (pr pr' : gmap string entry) :
  dispatch toks1 = dispatch toks2 ->
  parse_line toks1 pr = (pr', None) -> parse_line toks2 pr = (pr', None).
Proof.
  unfold parse_line. intros Hd.
  destruct (parse_record toks1 pr) as [x|e] eqn:H1; [|discriminate].
  now rewrite (parse_record_same_dispatch _ _ _ _ Hd H1).
Qed.

(** With a TTL and a class in front of the type, both orders are normalised
    to TTL before class. *)
Lemma dispatch_ttl_class (name ttl cls ty : string) (rest : list string) :
  Py.mem ttl SUPPORTED_RECORDS = false ->
  Py.mem cls SUPPORTED_RECORDS = false ->
  Py.mem ty SUPPORTED_RECORDS = true ->
  first_isdigit ttl = Ok true ->
  first_isdigit cls = Ok false ->
  dispatch (name :: cls :: ttl :: ty :: rest)
  = Ok (ty :: name :: ttl :: cls :: ty :: rest, false)
  /\ dispatch (name :: ttl :: cls :: ty :: rest)
     = Ok (ty :: name :: ttl :: cls :: ty :: rest, false).
Proof.
  intros Httl Hcls Hty Hd Hnd.
  unfold dispatch, supported_at, item. simpl.
  rewrite Httl, Hcls, Hty, Hd, Hnd. simpl. split; reflexivity.
Qed.

End Dispatcher.

(** C4. The lines [www IN 3600 A 1.2.3.4] and [www 3600 IN A 1.2.3.4] parse
    to the same zone file, whose one A record has ttl 3600 and class IN.  In
    general, when a TTL (a token that starts with a digit) and a class (one
    that does not) stand in front of a supported type, both orders are
    normalised to the same slots, and a line accepted in one order is
    accepted in the other with the same result. *)
Theorem ttl_class_order_commutes :
  parse_zone_file "www IN 3600 A 1.2.3.4" false
  = parse_zone_file "www 3600 IN A 1.2.3.4" false
  /\ (exists r,
         parse_zone_file "www IN 3600 A 1.2.3.4" false = Ok {[ "a" := Records [r] ]}
         /\ r !! "ttl" = Some (VInt 3600)
         /\ r !! "class" = Some (VStr "IN")
         /\ r !! "name" = Some (VStr "www")
         /\ r !! "ip" = Some (VStr "1.2.3.4"))
  /\ (forall name ttl cls ty rest pr pr',
         Py.mem ttl SUPPORTED_RECORDS = false ->
         Py.mem cls SUPPORTED_RECORDS = false ->
         Py.mem ty SUPPORTED_RECORDS = true ->
         first_isdigit ttl = Ok true ->
         first_isdigit cls = Ok false ->
         dispatch (name :: cls :: ttl :: ty :: rest)
         = dispatch (name :: ttl :: cls :: ty :: rest)
         /\ (parse_line (name :: cls :: ttl :: ty :: rest) pr = (pr', None)
             <-> parse_line (name :: ttl :: cls :: ty :: rest) pr = (pr', None))).
Proof.
  split; [vm_compute; reflexivity|]. split.
  - eexists. split; [vm_compute; reflexivity|].
    repeat split; vm_compute; reflexivity.
  - intros name ttl cls ty rest pr pr' Httl Hcls Hty Hd Hnd.
    destruct (dispatch_ttl_class name ttl cls ty rest Httl Hcls Hty Hd Hnd)
      as [H1 H2].
    assert (He : dispatch (name :: cls :: ttl :: ty :: rest)
                 = dispatch (name :: ttl :: cls :: ty :: rest))
      by now rewrite H1, H2.
    split; [exact He|].
    split; apply parse_line_same_dispatch; [exact He | now symmetry].
Qed.

Lemma ttl_class_order_commutes_witness :
  parse_line ["mail"; "IN"; "300"; "MX"; "10"; "mx.example.com"] ∅
  = parse_line ["mail"; "300"; "IN"; "MX"; "10"; "mx.example.com"] ∅.
Proof.
  pose proof (proj2 (proj2 ttl_class_order_commutes)
                "mail" "300" "IN" "MX" ["10"; "mx.example.com"] ∅
                (fst (parse_line ["mail"; "300"; "IN"; "MX"; "10"; "mx.example.com"] ∅))
                eq_refl eq_refl eq_refl eq_refl eq_refl) as [_ [_ H]].
  rewrite H; vm_compute; reflexivity.
Defined.

(** ** Keys of the accumulator *)

Section Keys.

Lemma lower_char_dollar (c : ascii) :
  Ascii.eqb (Py.lower_char c) Py.dollar = Ascii.eqb c Py.dollar.
Proof. destruct c as [[] [] [] [] [] [] [] []]; reflexivity. Qed.

Lemma lower_char_not_capital_o (c : ascii) : Py.lower_char c <> "O"%char.
Proof. destruct c as [[] [] [] [] [] [] [] []]; discriminate. Qed.

Lemma lower_startswith_dollar (s : string) :
  Py.startswith Py.dollar (Py.lower s) = Py.startswith Py.dollar s.
Proof. destruct s as [|c s]; simpl; [reflexivity | apply lower_char_dollar]. Qed.

(** No lower-cased key is the upper-cased [$ORIGIN]. *)
Lemma lower_not_origin (s : string) : Py.lower s <> "$ORIGIN".
Proof.
  destruct s as [|c0 [|c1 s]]; simpl; try discriminate.
  intros H. injection H as _ H _. now apply lower_char_not_capital_o in H.
Qed.

Lemma mem_supported (s : string) :
  Py.mem s SUPPORTED_RECORDS = true -> In s SUPPORTED_RECORDS.
Proof.
  unfold Py.mem. intros (x & Hin & Heq)%existsb_exists.
  apply String.eqb_eq in Heq. now subst.
Qed.

(** A property of the thirteen supported names, name by name. *)
Lemma supported_cases (P : string -> Prop) :
  P "$ORIGIN" -> P "$TTL" -> P "SOA" -> P "NS" -> P "A" -> P "AAAA" ->
  P "CNAME" -> P "MX" -> P "PTR" -> P "TXT" -> P "SRV" -> P "SPF" -> P "URI" ->
  forall s, Py.mem s SUPPORTED_RECORDS = true -> P s.
Proof.
  intros H1 H2 H3 H4 H5 H6 H7 H8 H9 H10 H11 H12 H13 s Hs%mem_supported.
  simpl in Hs.
  repeat (destruct Hs as [<-|Hs]; [assumption|]). contradiction.
Qed.

(** Lower-casing tells the supported record names apart. *)
Lemma lower_inj_supported (a b : string) :
  Py.mem a SUPPORTED_RECORDS = true ->
  Py.mem b SUPPORTED_RECORDS = true ->
  Py.lower a = Py.lower b -> a = b.
Proof.
  intros Ha%mem_supported Hb%mem_supported.
  simpl in Ha, Hb.
  repeat (destruct Ha as [<-|Ha]; [|]); try contradiction;
    repeat (destruct Hb as [<-|Hb]; [|]); try contradiction;
    simpl; intros H; try reflexivity; discriminate H.
Qed.

End Keys.

(** ** The record of a line *)

Section Records.

#[local] Arguments Py.mem : simpl never.

Lemma get_current_origin_ext (rd : gmap string value)
    (pr1 pr2 : gmap string entry) :
  pr1 !! "$ORIGIN" = pr2 !! "$ORIGIN" ->
  get_current_origin rd pr1 = get_current_origin rd pr2.
Proof. unfold get_current_origin. now intros ->. Qed.

(** [parse_record] reads the accumulator under the key [$ORIGIN] only. *)
Lemma parse_record_ext (toks : list string) (pr1 pr2 : gmap string entry) :
  pr1 !! "$ORIGIN" = pr2 !! "$ORIGIN" ->
  parse_record toks pr1 = parse_record toks pr2.
Proof.
  intros H. unfold parse_record.
  destruct (dispatch toks) as [[argv ci]|e]; simpl; [|reflexivity].
  destruct (Argparse.parse_known_args make_parser argv) as [[rd [|u us]]|];
    try reflexivity.
  destruct (find_record_type rd) as [[ty rd1]|]; [|reflexivity].
  now rewrite (get_current_origin_ext _ _ _ H).
Qed.

Lemma parse_record_origin_free (toks : list string) (pr : gmap string entry) :
  origin_free pr -> parse_record toks pr = parse_record toks ∅.
Proof. intros H. apply parse_record_ext. now rewrite H, lookup_empty. Qed.

Lemma first_isdigit_raise (tok : string) (e : exn) :
  first_isdigit tok = Raise e -> e = IndexError.
Proof. destruct tok; simpl; congruence. Qed.

Lemma dispatch_raise (toks : list string) (e : exn) :
  dispatch toks = Raise e -> e = IndexError.
Proof.
  unfold dispatch.
  destruct (supported_at 1 toks); [discriminate|].
  destruct (supported_at 2 toks).
  { destruct (first_isdigit _) as [[]|e'] eqn:H; simpl; try discriminate.
    intros [= <-]. eapply first_isdigit_raise, H. }
  destruct (supported_at 3 toks); [|discriminate].
  destruct (first_isdigit _) as [[]|e'] eqn:H; simpl; try discriminate.
  intros [= <-]. eapply first_isdigit_raise, H.
Qed.

Lemma ptr_fullname_raise (rd : gmap string value) (o : entry) (e : exn) :
  ptr_fullname rd o = Raise e -> e = KeyError \/ e = TypeError.
Proof.
  unfold ptr_fullname.
  destruct (rd !! "name") as [[]|]; try (intros [= <-]; auto).
  destruct o as [[]|]; intros [= <-]; auto.
Qed.

(** [InvalidLineException] is raised before the accumulator is read, and
    with the joined tokens of the line. *)
Lemma parse_record_invalid (toks : list string) (pr : gmap string entry)
    (m : string) :
  parse_record toks pr = Raise (InvalidLineException m) ->
  m = Py.join " " toks
  /\ forall pr2, parse_record toks pr2 = Raise (InvalidLineException m).
Proof.
  unfold parse_record.
  destruct (dispatch toks) as [[argv ci]|e] eqn:Hd; simpl.
  2:{ intros [= ->]. now apply dispatch_raise in Hd. }
  destruct (Argparse.parse_known_args make_parser argv) as [[rd [|u us]]|];
    try (intros [= <-]; split; reflexivity).
  destruct (find_record_type rd) as [[ty rd1]|]; [|discriminate].
  destruct (String.eqb ty "PTR"); simpl; [|discriminate].
  destruct (ptr_fullname _ _) as [fn|e] eqn:Hp; simpl; [discriminate|].
  intros [= ->]. apply ptr_fullname_raise in Hp as [|]; discriminate.
Qed.

(** *** The parser table *)

Lemma make_parser_ok : forallb subparser_ok make_parser = true.
Proof. vm_compute. reflexivity. Qed.

Lemma make_parser_find (cmd c : string) (ps : list positional) :
  List.find (fun sp => String.eqb (fst sp) cmd) make_parser = Some (c, ps) ->
  c = cmd /\ subparser_ok (cmd, ps) = true.
Proof.
  intros [Hin Heq]%find_some. simpl in Heq. apply String.eqb_eq in Heq.
  subst c. split; [reflexivity|].
  pose proof make_parser_ok as Hok. rewrite forallb_forall in Hok.
  now apply Hok.
Qed.

(** *** Matching the positionals *)

(** One positional and what it takes. *)
Lemma consume_positionals_inv (p : positional) (ps : list positional)
    (args : list string) (seen : bool) (spare : nat)
    (ns rd : gmap string value) (u : list string) :
  Argparse.consume_positionals (p :: ps) args seen spare ns = Some (rd, u) ->
  exists m1 args1 arg args2 spare2 m2 args3 v,
    Argparse.take_marker seen args = (m1, args1)
    /\ Argparse.take_arg p spare args1 = Some (arg, args2, spare2)
    /\ Argparse.take_marker (seen || m1) args2 = (m2, args3)
    /\ Argparse.get_values p arg (m1 || m2) = Some v
    /\ Argparse.consume_positionals ps args3 (seen || m1 || m2) spare2
         (<[dest p := v]> ns) = Some (rd, u).
Proof.
  cbn [Argparse.consume_positionals].
  destruct (Argparse.take_marker seen args) as [m1 args1] eqn:Hm1.
  destruct (Argparse.take_arg p spare args1) as [[[arg args2] spare2]|] eqn:Ht;
    [|discriminate].
  cbn [mbind option_bind].
  destruct (Argparse.take_marker (seen || m1) args2) as [m2 args3] eqn:Hm2.
  destruct (Argparse.get_values p arg (m1 || m2)) as [v|] eqn:Hv;
    [|discriminate].
  cbn [mbind option_bind]. intros H.
  exists m1, args1, arg, args2, spare2, m2, args3, v.
  split; [reflexivity|]. split; [exact Ht|]. split; [exact Hm2|].
  split; [exact Hv | exact H].
Qed.

Lemma consume_positionals_lookup (ps : list positional) :
  forall args seen spare ns rd u k v,
    Argparse.consume_positionals ps args seen spare ns = Some (rd, u) ->
    rd !! k = Some v ->
    ns !! k = Some v \/ In k (map dest ps).
Proof.
  induction ps as [|p ps IH]; intros args seen spare ns rd u k v Hc Hk.
  - injection Hc as <- <-. now left.
  - apply consume_positionals_inv in Hc
      as (m1 & args1 & arg & args2 & spare2 & m2 & args3 & x & _ & _ & _ & _ & Hc).
    destruct (IH _ _ _ _ _ _ _ _ Hc Hk) as [Hx|Hin]; [|right; now right].
    destruct (decide (dest p = k)) as [He|Hne].
    + right. now left.
    + rewrite lookup_insert_ne in Hx by assumption. now left.
Qed.

Lemma consume_positionals_keep (ps : list positional) :
  forall args seen spare ns rd u k v,
    Argparse.consume_positionals ps args seen spare ns = Some (rd, u) ->
    ns !! k = Some v ->
    ~ In k (map dest ps) ->
    rd !! k = Some v.
Proof.
  induction ps as [|p ps IH]; intros args seen spare ns rd u k v Hc Hk Hnin.
  - injection Hc as <- <-. assumption.
  - apply consume_positionals_inv in Hc
      as (m1 & args1 & arg & args2 & spare2 & m2 & args3 & x & _ & _ & _ & _ & Hc).
    simpl in Hnin. eapply IH; [exact Hc| |tauto].
    rewrite lookup_insert_ne; [assumption | tauto].
Qed.

(** The argument string of the first positional is converted as it stands:
    if it is two dashes, the marker is in front of it. *)
Lemma first_arg_value (p : positional) (args args1 args2 : list string)
    (spare spare2 : nat) (m1 m2 : bool) (a : string) :
  Argparse.take_marker false args = (m1, args1) ->
  Argparse.take_arg p spare args1 = Some (Some a, args2, spare2) ->
  Argparse.get_values p (Some a) (m1 || m2) = Argparse.get_value (argty p) a.
Proof.
  intros Hm Ht. unfold Argparse.get_values.
  destruct m1; [reflexivity|].
  assert (Ha : String.eqb a Argparse.marker = false).
  { unfold Argparse.take_marker in Hm. destruct args as [|x r].
    - injection Hm as <-. unfold Argparse.take_arg in Ht.
      destruct (optional p); [destruct spare|]; discriminate.
    - cbn [negb andb] in Hm.
      destruct (String.eqb x Argparse.marker) eqn:Hx; [discriminate|].
      injection Hm as <-. unfold Argparse.take_arg in Ht.
      destruct (optional p); [destruct spare|]; congruence. }
  rewrite Ha, andb_false_r. reflexivity.
Qed.

(** *** The record type *)

Lemma find_record_type_some (rd0 rd1 : gmap string value) (ty : string) :
  find_record_type rd0 = Some (ty, rd1) ->
  Py.mem ty SUPPORTED_RECORDS = true
  /\ exists v, rd0 !! ty = Some v
               /\ rd1 = (if value_is v ty then delete ty rd0 else rd0).
Proof.
  unfold find_record_type.
  destruct (List.find _ _) as [[k v]|] eqn:Hf; simpl; [|discriminate].
  intros [= <- <-]. apply find_some in Hf as [Hin Hp]. simpl in Hp.
  apply andb_true_iff in Hp as [Hmem _]. split; [assumption|].
  exists v. split; [|reflexivity].
  apply elem_of_map_to_list, list_elem_of_In, Hin.
Qed.

(** What a call of the parser that returns went through. *)
Lemma parse_known_args_inv (cmd : string) (args u : list string)
    (rd0 : gmap string value) :
  Argparse.parse_known_args make_parser (cmd :: args) = Some (rd0, u) ->
  exists ps,
    List.find (fun sp => String.eqb (fst sp) cmd) make_parser = Some (cmd, ps)
    /\ subparser_ok (cmd, ps) = true
    /\ existsb Argparse.option_like (Argparse.before_marker args) = false
    /\ Argparse.consume_positionals ps args false
         (Argparse.count_args args - Argparse.required ps) ∅ = Some (rd0, u).
Proof.
  unfold Argparse.parse_known_args.
  destruct (List.find _ make_parser) as [[c ps]|] eqn:Hfind;
    cbn [mbind option_bind]; [|discriminate].
  pose proof (make_parser_find _ _ _ Hfind) as [-> Hok].
  destruct (existsb _ _); [discriminate|]. intros Hp. eauto.
Qed.

(** The record type that is found is the name of the chosen subparser. *)
Lemma record_type_is_command (cmd : string) (args u : list string)
    (rd0 rd1 : gmap string value) (ty : string) :
  Argparse.parse_known_args make_parser (cmd :: args) = Some (rd0, u) ->
  find_record_type rd0 = Some (ty, rd1) ->
  ty = cmd.
Proof.
  intros (ps & _ & Hok & _ & Hp)%parse_known_args_inv Hf.
  apply find_record_type_some in Hf as (Hmem & v & Hv & _).
  destruct (consume_positionals_lookup _ _ _ _ _ _ _ _ _ Hp Hv) as [He|Hin].
  { now rewrite lookup_empty in He. }
  unfold subparser_ok in Hok.
  apply andb_true_iff in Hok as [[Hall _]%andb_true_iff _].
  rewrite forallb_forall in Hall.
  apply in_map_iff in Hin as (p & <- & Hp').
  specialize (Hall p Hp'). rewrite Hmem in Hall. simpl in Hall.
  now apply String.eqb_eq in Hall.
Qed.

(** *** Accepted lines *)

(** What an accepted line went through: its normalised slots, the namespace
    of the subparser, the record type, and the fields that reach the record. *)
Lemma parse_record_ok_inv (toks : list string) (pr : gmap string entry)
    (ty : string) (rd : gmap string value) :
  parse_record toks pr = Ok (ty, rd) ->
  exists cmd args ci rd0 rd1,
    dispatch toks = Ok (cmd :: args, ci)
    /\ Argparse.parse_known_args make_parser (cmd :: args) = Some (rd0, [])
    /\ find_record_type rd0 = Some (ty, rd1)
    /\ (forall k v, rd1 !! k = Some v -> v <> VNone ->
                    k <> "fullname" -> k <> "_missing_class" ->
                    rd !! k = Some v).
Proof.
  unfold parse_record.
  destruct (dispatch toks) as [[argv ci]|e]; simpl; [|discriminate].
  destruct argv as [|cmd args]; [discriminate|].
  destruct (Argparse.parse_known_args make_parser (cmd :: args))
    as [[rd0 [|u us]]|] eqn:Hp; try discriminate.
  destruct (find_record_type rd0) as [[ty' rd1]|] eqn:Hf; [|discriminate].
  intros H. exists cmd, args, ci, rd0, rd1.
  assert (Hclean : forall k v, rd1 !! k = Some v -> v <> VNone ->
                               clean_fields rd1 !! k = Some v).
  { intros k v Hk Hv. unfold clean_fields. now apply map_lookup_filter_Some. }
  split; [reflexivity|]. split; [exact Hp|].
  destruct (String.eqb ty' "PTR").
  - destruct (ptr_fullname _ _) as [fn|e]; simpl in H; [|discriminate].
    injection H as <- <-. split; [exact Hf|].
    intros k v Hk Hv Hn1 Hn2. destruct ci.
    + rewrite !lookup_insert_ne by congruence. auto.
    + rewrite lookup_insert_ne by congruence. auto.
  - simpl in H. injection H as <- <-. split; [exact Hf|].
    intros k v Hk Hv Hn1 Hn2. destruct ci.
    + rewrite lookup_insert_ne by congruence. auto.
    + auto.
Qed.

(** The record type of an accepted line is a supported one. *)
Lemma parse_record_supported (toks : list string) (pr : gmap string entry)
    (ty : string) (rd : gmap string value) :
  parse_record toks pr = Ok (ty, rd) -> Py.mem ty SUPPORTED_RECORDS = true.
Proof.
  intros (cmd & args & ci & rd0 & rd1 & _ & _ & Hf & _)%parse_record_ok_inv.
  now apply find_record_type_some in Hf as [H _].
Qed.

Lemma mem_false_not_in (x : string) (l : list string) :
  Py.mem x l = false -> ~ In x l.
Proof.
  unfold Py.mem. intros H Hin.
  assert (existsb (String.eqb x) l = true) as Ht.
  { apply existsb_exists. exists x. split; [assumption | apply String.eqb_refl]. }
  congruence.
Qed.

(** The namespace of a resource record holds the name of the record, as
    the string it was written. *)
Lemma namespace_name (cmd : string) (args u : list string)
    (rd0 : gmap string value) :
  Argparse.parse_known_args make_parser (cmd :: args) = Some (rd0, u) ->
  Py.startswith Py.dollar cmd = false ->
  exists a, rd0 !! "name" = Some (VStr a).
Proof.
  intros (ps & _ & Hok & _ & Hp)%parse_known_args_inv Hty.
  unfold subparser_ok in Hok. rewrite Hty in Hok.
  apply andb_true_iff in Hok as [_ Hok].
  destruct ps as [|p rest]; [discriminate|].
  apply andb_true_iff in Hok as [[[Hd Ho]%andb_true_iff Ht]%andb_true_iff Hn].
  apply String.eqb_eq in Hd. apply negb_true_iff in Ho, Hn.
  apply mem_false_not_in in Hn.
  apply consume_positionals_inv in Hp
    as (m1 & args1 & arg & args2 & spare2 & m2 & args3 & v
        & Hm1 & Htake & _ & Hv & Hp).
  assert (Harg : exists a, arg = Some a).
  { unfold Argparse.take_arg in Htake. rewrite Ho in Htake.
    destruct args1 as [|a r]; [discriminate|]. injection Htake as <- _ _. eauto. }
  destruct Harg as [a ->].
  rewrite (first_arg_value _ _ _ _ _ _ _ _ _ Hm1 Htake) in Hv.
  destruct (argty p); [|discriminate]. injection Hv as <-.
  exists a. eapply consume_positionals_keep; [exact Hp| |exact Hn].
  rewrite Hd. apply lookup_insert_eq.
Qed.

(** The record of a resource record line holds the name of the record. *)
Lemma rr_record_has_name (toks : list string) (pr : gmap string entry)
    (ty : string) (rd : gmap string value) :
  parse_record toks pr = Ok (ty, rd) ->
  Py.startswith Py.dollar ty = false ->
  exists a, rd !! "name" = Some (VStr a).
Proof.
  intros (cmd & args & ci & rd0 & rd1 & _ & Hp & Hf & Hrd)%parse_record_ok_inv Hty.
  pose proof (record_type_is_command _ _ _ _ _ _ Hp Hf) as ->.
  destruct (namespace_name _ _ _ _ Hp Hty) as [a H0].
  apply find_record_type_some in Hf as (Hmem & v & Hv & Hrd1).
  exists a. apply Hrd; try discriminate.
  subst rd1. destruct (value_is v cmd); [|assumption].
  rewrite lookup_delete_ne; [assumption|].
  intros ->. discriminate Hmem.
Qed.

(** Where the dispatcher rewrites the slots, it leaves four or more. *)
Lemma dispatch_short (toks argv : list string) (ci : bool) :
  dispatch toks = Ok (argv, ci) ->
  (length argv <= 3)%nat ->
  toks = argv /\ supported_at 1 toks = false /\ supported_at 2 toks = false.
Proof.
  unfold dispatch, supported_at.
  destruct toks as [|t0 [|t1 [|t2 [|t3 rest]]]]; simpl;
    try (intros [= <- <-]; auto);
    repeat (destruct (Py.mem _ _); simpl);
    repeat (destruct (first_isdigit _) as [[]|]; simpl);
    try discriminate;
    intros [= <- <-]; simpl; auto; lia.
Qed.

(** A parser of one required positional takes one argument string, with
    the marker in front of it or behind it or without it. *)
Lemma single_positional (p : positional) (args : list string) (spare : nat)
    (rd0 : gmap string value) :
  optional p = false ->
  Argparse.consume_positionals [p] args false spare ∅ = Some (rd0, []) ->
  exists a v,
    Argparse.get_value (argty p) a = Some v
    /\ rd0 = {[ dest p := v ]}
    /\ (args = [a] \/ args = [Argparse.marker; a] \/ args = [a; Argparse.marker]).
Proof.
  intros Ho Hp.
  assert (Hget : forall a (r : list string) marked,
             marked = true \/ String.eqb a Argparse.marker = false ->
             (v ← Argparse.get_values p (Some a) marked;
              Some (<[dest p := v]> (∅ : gmap string value), r))
             = Some (rd0, []) ->
             r = []
             /\ exists v, Argparse.get_value (argty p) a = Some v
                          /\ rd0 = {[ dest p := v ]}).
  { intros a r marked Hm. unfold Argparse.get_values.
    assert (negb marked && String.eqb a Argparse.marker = false) as ->.
    { destruct Hm as [->| ->]; [reflexivity | apply andb_false_r]. }
    destruct (Argparse.get_value (argty p) a) as [v|]; [|discriminate].
    cbn [mbind option_bind]. intros [= <- ->]. eauto. }
  cbn [Argparse.consume_positionals] in Hp.
  unfold Argparse.take_arg in Hp. rewrite Ho in Hp.
  destruct args as [|x [|y r]];
    cbn [Argparse.take_marker negb andb orb mbind option_bind] in Hp.
  - discriminate.
  - destruct (String.eqb x Argparse.marker) eqn:Hx;
      cbn [Argparse.take_marker negb andb orb mbind option_bind] in Hp;
      [discriminate|].
    apply Hget in Hp as (_ & v & Hv & ->); [|now right].
    exists x, v. auto.
  - destruct (String.eqb x Argparse.marker) eqn:Hx;
      cbn [Argparse.take_marker negb andb orb mbind option_bind] in Hp.
    + apply String.eqb_eq in Hx as ->.
      destruct r as [|z r];
        cbn [Argparse.take_marker negb andb orb mbind option_bind] in Hp;
        apply Hget in Hp as (Hr & v & Hv & ->); try (now left);
        [|discriminate].
      exists y, v. auto.
    + destruct (String.eqb y Argparse.marker) eqn:Hy;
        cbn [Argparse.take_marker negb andb orb mbind option_bind] in Hp.
      * apply String.eqb_eq in Hy as ->.
        apply Hget in Hp as (-> & v & Hv & ->); [|now left].
        exists x, v. auto.
      * apply Hget in Hp as (Hr & _); [|now right]. discriminate.
Qed.

(** A string that is not taken for an option is not the marker. *)
Lemma not_option_not_marker (s : string) :
  Argparse.option_like s = false -> String.eqb s Argparse.marker = false.
Proof.
  intros H. destruct (String.eqb_spec s Argparse.marker) as [->|];
    [discriminate H | reflexivity].
Qed.

(** The parser of a directive on one argument string. *)
Lemma parse_known_args_directive (d s : string) (p : positional) :
  List.find (fun sp => String.eqb (fst sp) d) make_parser = Some (d, [p]) ->
  optional p = false ->
  dest p = d ->
  Argparse.parse_known_args make_parser [d; s]
  = if Argparse.option_like s then None
    else v ← Argparse.get_value (argty p) s; Some ({[ d := v ]}, []).
Proof.
  intros Hfind Ho Hd. unfold Argparse.parse_known_args. rewrite Hfind.
  cbn [mbind option_bind Argparse.before_marker Argparse.consume_positionals
       Argparse.take_marker negb andb].
  unfold Argparse.take_arg. rewrite Ho.
  destruct (String.eqb s Argparse.marker) eqn:Hs.
  - apply String.eqb_eq in Hs as ->. reflexivity.
  - cbn [existsb orb mbind option_bind Argparse.take_marker negb andb].
    rewrite orb_false_r.
    destruct (Argparse.option_like s); [reflexivity|].
    unfold Argparse.get_values. rewrite Hs, andb_false_r, Hd.
    destruct (Argparse.get_value (argty p) s); reflexivity.
Qed.

(** *** Argument strings without marker *)

Lemma option_free_unmarked (args : list string) :
  existsb Argparse.option_like args = false -> unmarked args = true.
Proof.
  induction args as [|a args IH]; simpl; [reflexivity|].
  intros [Ha Hr]%orb_false_iff.
  now rewrite (not_option_not_marker _ Ha), (IH Hr).
Qed.

Lemma before_marker_unmarked (args : list string) :
  unmarked args = true -> Argparse.before_marker args = args.
Proof.
  induction args as [|a args IH]; simpl; [reflexivity|].
  intros [Ha%negb_true_iff Hr]%andb_true_iff. now rewrite Ha, (IH Hr).
Qed.

Lemma count_args_unmarked (args : list string) :
  unmarked args = true -> Argparse.count_args args = length args.
Proof.
  intros H. unfold Argparse.count_args.
  assert (existsb (fun a => String.eqb a Argparse.marker) args = false) as ->.
  { induction args as [|a args IH]; simpl; [reflexivity|].
    simpl in H. apply andb_true_iff in H as [Ha%negb_true_iff Hr].
    now rewrite Ha, (IH Hr). }
  apply Nat.sub_0_r.
Qed.

Lemma take_marker_unmarked (seen : bool) (args : list string) :
  unmarked args = true -> Argparse.take_marker seen args = (false, args).
Proof.
  destruct args as [|a args]; simpl; [reflexivity|].
  intros [Ha%negb_true_iff _]%andb_true_iff.
  now rewrite Ha, andb_false_r.
Qed.

Lemma consume_positionals_unmarked (ps : list positional) :
  forall args seen spare ns,
    unmarked args = true ->
    Argparse.consume_positionals ps args seen spare ns
    = consume_unmarked ps args spare ns.
Proof.
  induction ps as [|p ps IH]; intros args seen spare ns Hu;
    cbn [Argparse.consume_positionals consume_unmarked]; [reflexivity|].
  rewrite (take_marker_unmarked _ _ Hu). unfold Argparse.take_arg.
  assert (Hstep : forall a args' sp,
             unmarked (a :: args') = true ->
             (let '(m2, args0) := Argparse.take_marker (seen || false) args' in
              v ← Argparse.get_values p (Some a) (false || m2);
              Argparse.consume_positionals ps args0 (seen || false || m2) sp
                (<[dest p := v]> ns))
             = v ← Argparse.get_value (argty p) a;
               consume_unmarked ps args' sp (<[dest p := v]> ns)).
  { intros a args' sp Ha. simpl in Ha.
    apply andb_true_iff in Ha as [Ha%negb_true_iff Hr].
    rewrite (take_marker_unmarked _ _ Hr). unfold Argparse.get_values.
    rewrite Ha, andb_false_r.
    destruct (Argparse.get_value (argty p) a); [|reflexivity].
    cbn [mbind option_bind]. now apply IH. }
  destruct (optional p) eqn:Ho.
  - destruct spare as [|spare'];
      [| destruct args as [|a args']; [|now apply Hstep]];
      cbn [mbind option_bind]; rewrite (take_marker_unmarked _ _ Hu);
      unfold Argparse.get_values; rewrite Ho; cbn [mbind option_bind];
      now apply IH.
  - destruct args as [|a args']; [reflexivity|]. now apply Hstep.
Qed.

(** The parser on argument strings none of which is taken for an option. *)
Lemma parse_known_args_unmarked (parser : list (string * list positional))
    (cmd : string) (args : list string) :
  existsb Argparse.option_like args = false ->
  Argparse.parse_known_args parser (cmd :: args)
  = '(_, ps) ← List.find (fun sp => String.eqb (fst sp) cmd) parser;
    consume_unmarked ps args (length args - Argparse.required ps) ∅.
Proof.
  intros Ho. pose proof (option_free_unmarked _ Ho) as Hu.
  unfold Argparse.parse_known_args.
  destruct (List.find _ parser) as [[c ps]|]; [|reflexivity].
  cbn [mbind option_bind].
  rewrite (before_marker_unmarked _ Hu), Ho, (count_args_unmarked _ Hu).
  now apply consume_positionals_unmarked.
Qed.

(** The namespace of a directive: its one value, converted from the one
    argument string. *)
Lemma directive_namespace (cmd : string) (args : list string)
    (rd0 : gmap string value) :
  Argparse.parse_known_args make_parser (cmd :: args) = Some (rd0, []) ->
  Py.startswith Py.dollar cmd = true ->
  exists a v,
    rd0 = {[ cmd := v ]}
    /\ (args = [a] \/ args = [Argparse.marker; a] \/ args = [a; Argparse.marker])
    /\ ((cmd = "$ORIGIN" /\ v = VStr a)
        \/ (cmd = "$TTL" /\ exists n, Argparse.py_int a = Some n /\ v = VInt n)).
Proof.
  intros (ps & Hfind & Hok & _ & Hp)%parse_known_args_inv Hty.
  assert (Hmem : Py.mem cmd SUPPORTED_RECORDS = true).
  { unfold subparser_ok in Hok.
    now apply andb_true_iff in Hok as [[_ H]%andb_true_iff _]. }
  revert Hty ps Hfind Hok Hp. pattern cmd.
  apply supported_cases; [..|exact Hmem]; cbv beta;
    try discriminate; intros _ ps Hfind _ Hp;
    vm_compute in Hfind; injection Hfind as <-;
    apply single_positional in Hp as (a & v & Hv & -> & Hargs);
    try reflexivity; exists a, v; (split; [reflexivity|]);
    (split; [exact Hargs|]).
  - left. split; [reflexivity|]. now injection Hv as <-.
  - right. split; [reflexivity|]. cbn [argty Argparse.get_value] in Hv.
    destruct (Argparse.py_int a) as [n|]; [|discriminate].
    injection Hv as <-. eauto.
Qed.

(** An accepted directive line: the directive and its value, with the
    marker in front of the value or behind it or without it; the value is
    not the name of a supported record, and the record holds it converted,
    a string for [$ORIGIN] and an integer for [$TTL]. *)
Lemma directive_line_shape (toks : list string) (pr : gmap string entry)
    (ty : string) (rd : gmap string value) :
  parse_record toks pr = Ok (ty, rd) ->
  Py.startswith Py.dollar ty = true ->
  exists a v,
    (toks = [ty; a] \/ toks = [ty; Argparse.marker; a]
     \/ toks = [ty; a; Argparse.marker])
    /\ Py.mem a SUPPORTED_RECORDS = false
    /\ rd !! ty = Some v
    /\ ((ty = "$ORIGIN" /\ v = VStr a)
        \/ (ty = "$TTL" /\ exists n, Argparse.py_int a = Some n /\ v = VInt n)).
Proof.
  intros (cmd & args & ci & rd0 & rd1 & Hd & Hp & Hf & Hrd)%parse_record_ok_inv Hty.
  pose proof (record_type_is_command _ _ _ _ _ _ Hp Hf) as ->.
  destruct (directive_namespace _ _ _ Hp Hty) as (a & v & -> & Hargs & Hv).
  assert (Hlen : (length (cmd :: args) <= 3)%nat).
  { destruct Hargs as [->|[->| ->]]; simpl; lia. }
  destruct (dispatch_short _ _ _ Hd Hlen) as (-> & H1 & H2).
  assert (Ha : Py.mem a SUPPORTED_RECORDS = false).
  { unfold supported_at in H1, H2.
    destruct Hargs as [->|[->| ->]]; simpl in H1, H2; assumption. }
  assert (Hvne : v <> VNone /\ value_is v cmd = false).
  { destruct Hv as [[-> ->]|[-> (n & _ & ->)]]; (split; [discriminate|]);
      [|reflexivity].
    simpl. destruct (String.eqb_spec a "$ORIGIN") as [->|]; [|reflexivity].
    discriminate Ha. }
  destruct Hvne as [Hvne Hvis].
  apply find_record_type_some in Hf as (_ & v' & Hv' & ->).
  rewrite lookup_singleton_eq in Hv'. injection Hv' as <-. rewrite Hvis in Hrd.
  exists a, v.
  split; [destruct Hargs as [->|[->| ->]]; auto|].
  split; [exact Ha|]. split; [|exact Hv].
  apply Hrd; [apply lookup_singleton_eq | exact Hvne | |];
    intros ->; discriminate Hty.
Qed.

End Records.

(** ** One line against the accumulator *)

Section Accumulator.

Lemma parse_line_raise_state (toks : list string) (pr pr' : gmap string entry)
    (e : exn) :
  parse_line toks pr = (pr', Some e) -> pr' = pr.
Proof.
  unfold parse_line, accumulate.
  destruct (parse_record toks pr) as [[ty rd]|e']; [|now intros [= <- _]].
  destruct (negb _); [|discriminate].
  destruct (Py.startswith _ _).
  - destruct (rd !! ty); [discriminate | now intros [= <- _]].
  - destruct (pr !! Py.lower ty) as [[v|l]|]; try discriminate.
    now intros [= <- _].
Qed.

(** A refused line leaves the accumulator as it was, whatever it holds. *)
Lemma parse_line_refused (toks : list string) (pr pr' : gmap string entry)
    (m : string) :
  parse_line toks pr = (pr', Some (InvalidLineException m)) ->
  pr' = pr
  /\ m = Py.join " " toks
  /\ parse_record toks ∅ = Raise (InvalidLineException m)
  /\ forall pr2, parse_line toks pr2 = (pr2, Some (InvalidLineException m)).
Proof.
  intros H. split; [eapply parse_line_raise_state, H|].
  unfold parse_line, accumulate in H.
  destruct (parse_record toks pr) as [[ty rd]|e'] eqn:Hr.
  - destruct (negb _); [|discriminate].
    destruct (Py.startswith _ _).
    + destruct (rd !! ty); discriminate.
    + destruct (pr !! Py.lower ty) as [[v|l]|]; discriminate.
  - injection H as _ ->.
    apply parse_record_invalid in Hr as [-> Hall].
    split; [reflexivity|]. split; [apply Hall|].
    intros pr2. unfold parse_line. now rewrite Hall.
Qed.

(** An accepted line: its record is the one the line yields on its own; a
    directive stores a scalar under its lower-cased name, and a resource
    record is appended to the list under its lower-cased type. *)
Lemma parse_line_accepted (toks : list string) (pr pr' : gmap string entry) :
  origin_free pr ->
  parse_line toks pr = (pr', None) ->
  exists ty rd,
    parse_record toks ∅ = Ok (ty, rd)
    /\ Py.mem ty SUPPORTED_RECORDS = true
    /\ if Py.startswith Py.dollar ty
       then pr' = pr \/ exists v, pr' = <[Py.lower ty := Scalar v]> pr
       else (pr !! Py.lower ty = None \/ exists l, pr !! Py.lower ty = Some (Records l))
            /\ pr' = <[Py.lower ty :=
                         Records (records_under (Py.lower ty) pr ++ [rd])]> pr.
Proof.
  intros Hof H. unfold parse_line in H.
  destruct (parse_record toks pr) as [[ty rd]|e] eqn:Hr; [|discriminate].
  exists ty, rd.
  split; [now rewrite <- (parse_record_origin_free _ _ Hof)|].
  split; [eapply parse_record_supported, Hr|].
  unfold accumulate in H.
  destruct (Py.startswith Py.dollar ty) eqn:Hty.
  - destruct (negb _); [|left; congruence].
    destruct (rd !! ty) as [v|]; [|discriminate].
    right. exists v. congruence.
  - destruct (rr_record_has_name _ _ _ _ Hr Hty) as [a Ha].
    destruct (Nat.eqb_spec (size rd) 0) as [Hz|_].
    { apply map_size_empty_iff in Hz. subst rd. now rewrite lookup_empty in Ha. }
    simpl in H. unfold records_under.
    destruct (pr !! Py.lower ty) as [[v|l]|]; try discriminate;
      injection H as <-; split; eauto.
Qed.

Lemma parse_line_origin_free (toks : list string) (pr pr' : gmap string entry)
    (o : option exn) :
  origin_free pr -> parse_line toks pr = (pr', o) -> origin_free pr'.
Proof.
  intros Hof H. destruct o as [e|].
  - now rewrite (parse_line_raise_state _ _ _ _ H).
  - destruct (parse_line_accepted _ _ _ Hof H) as (ty & rd & _ & _ & Hc).
    unfold origin_free in *.
    destruct (Py.startswith Py.dollar ty).
    + destruct Hc as [->|[v ->]]; [assumption|].
      rewrite lookup_insert_ne; [assumption | apply lower_not_origin].
    + destruct Hc as [_ ->].
      rewrite lookup_insert_ne; [assumption | apply lower_not_origin].
Qed.

Lemma parse_line_directives_scalar (toks : list string)
    (pr pr' : gmap string entry) (o : option exn) :
  origin_free pr -> directives_scalar pr ->
  parse_line toks pr = (pr', o) -> directives_scalar pr'.
Proof.
  intros Hof Hds H. destruct o as [e|].
  - now rewrite (parse_line_raise_state _ _ _ _ H).
  - destruct (parse_line_accepted _ _ _ Hof H) as (ty & rd & _ & _ & Hc).
    destruct (Py.startswith Py.dollar ty) eqn:Hty.
    + destruct Hc as [->|[v ->]]; [assumption|].
      intros key l Hk. destruct (decide (Py.lower ty = key)) as [<-|Hne].
      * now rewrite lookup_insert_eq in Hk.
      * rewrite lookup_insert_ne in Hk by assumption. eapply Hds, Hk.
    + destruct Hc as [_ ->].
      intros key l Hk. destruct (decide (Py.lower ty = key)) as [<-|Hne].
      * now rewrite lower_startswith_dollar.
      * rewrite lookup_insert_ne in Hk by assumption. eapply Hds, Hk.
Qed.

(** *** Counting the records *)

Lemma record_count_insert (pr : gmap string entry) (key : string) (e : entry) :
  (record_count (<[key := e]> pr) + from_option entry_count 0 (pr !! key)
   = entry_count e + record_count pr)%nat.
Proof.
  unfold record_count.
  assert (Hcomm : forall (m : gmap string entry) (j1 j2 : string) z1 z2 y,
             j1 <> j2 -> m !! j1 = Some z1 -> m !! j2 = Some z2 ->
             (entry_count z1 + (entry_count z2 + y)
              = entry_count z2 + (entry_count z1 + y))%nat)
    by (intros; lia).
  rewrite <- (insert_delete_eq pr key e).
  rewrite map_fold_insert_L; [|apply Hcomm|apply lookup_delete_eq].
  destruct (pr !! key) as [y|] eqn:Hk; simpl.
  - rewrite (map_fold_delete_L _ _ key y pr); [lia|apply Hcomm|assumption].
  - rewrite delete_id by assumption. lia.
Qed.

End Accumulator.

(** ** The loop over the lines *)

Section Lines.

Lemma parse_lines_loop_app (b : bool) (l1 l2 : list string)
    (pr : gmap string entry) :
  parse_lines_loop b (l1 ++ l2) pr
  = parse_lines_loop b l1 pr ≫= parse_lines_loop b l2.
Proof.
  revert pr. induction l1 as [|line l1 IH]; intros pr; simpl; [reflexivity|].
  destruct (parse_line (tokenize_line line) pr) as [pr' [e|]]; [|apply IH].
  destruct e; try reflexivity.
  destruct b; [apply IH | reflexivity].
Qed.

(** Where the strict parse returns, the lenient parse returns the same. *)
Lemma parse_lines_loop_strict_lenient (lines : list string)
    (pr zf : gmap string entry) :
  parse_lines_loop false lines pr = Ok zf ->
  parse_lines_loop true lines pr = Ok zf.
Proof.
  revert pr. induction lines as [|line lines IH]; intros pr; simpl; [auto|].
  destruct (parse_line (tokenize_line line) pr) as [pr' [[]|]];
    try discriminate.
  apply IH.
Qed.

Lemma records_of_type_app (ty : string) (l1 l2 : list string) :
  records_of_type ty (l1 ++ l2) = records_of_type ty l1 ++ records_of_type ty l2.
Proof. unfold records_of_type. apply omap_app. Qed.

Lemma names_rr_type_inv (ty : string) :
  names_rr_type ty = true ->
  Py.mem ty SUPPORTED_RECORDS = true /\ Py.startswith Py.dollar ty = false.
Proof.
  unfold names_rr_type. intros [H1 H2]%andb_true_iff.
  now apply negb_true_iff in H2.
Qed.

(** The accumulator after the loop: the records counted are those the lines
    yield, and the list under every record type holds the records of that
    type in the order of the lines. *)
Lemma parse_lines_loop_records (b : bool) (lines : list string) :
  forall pr zf,
    origin_free pr -> directives_scalar pr ->
    parse_lines_loop b lines pr = Ok zf ->
    origin_free zf /\ directives_scalar zf
    /\ record_count zf
       = (record_count pr + length (List.filter yields_record lines))%nat
    /\ forall ty, names_rr_type ty = true ->
         records_under (Py.lower ty) zf
         = records_under (Py.lower ty) pr ++ records_of_type ty lines.
Proof.
  induction lines as [|line lines IH]; intros pr zf Hof Hds H; simpl in H.
  { injection H as <-.
    split; [assumption|]. split; [assumption|]. split; [simpl; lia|].
    intros ty _. simpl. now rewrite List.app_nil_r. }
  destruct (parse_line (tokenize_line line) pr) as [pr' o] eqn:Hl.
  pose proof (parse_line_origin_free _ _ _ _ Hof Hl) as Hof'.
  pose proof (parse_line_directives_scalar _ _ _ _ Hof Hds Hl) as Hds'.
  destruct o as [e|].
  - (* a refused line, skipped in lenient mode *)
    destruct e; try discriminate. destruct b; [|discriminate].
    apply parse_line_refused in Hl as (-> & _ & Hr & _).
    assert (Hy : yields_record line = false)
      by (unfold yields_record, line_record; now rewrite Hr).
    assert (Hrec : forall ty, records_of_type ty (line :: lines)
                              = records_of_type ty lines).
    { intros ty. unfold records_of_type, line_record. simpl. now rewrite Hr. }
    destruct (IH _ _ Hof Hds H) as (? & ? & Hcount & Hlists).
    split; [assumption|]. split; [assumption|]. split.
    + rewrite Hcount. simpl. now rewrite Hy.
    + intros ty Hty. now rewrite (Hlists ty Hty), Hrec.
  - (* an accepted line *)
    destruct (parse_line_accepted _ _ _ Hof Hl) as (ty' & rd & Hr & Hmem & Hc).
    assert (Hy : yields_record line = negb (Py.startswith Py.dollar ty'))
      by (unfold yields_record, line_record; now rewrite Hr).
    assert (Hrec : forall ty, records_of_type ty (line :: lines)
                              = (if String.eqb ty' ty then [rd] else [])
                                ++ records_of_type ty lines).
    { intros ty. unfold records_of_type, line_record. simpl. rewrite Hr.
      now destruct (String.eqb ty' ty). }
    destruct (IH _ _ Hof' Hds' H) as (? & ? & Hcount & Hlists).
    split; [assumption|]. split; [assumption|]. split.
    + rewrite Hcount. simpl. rewrite Hy.
      destruct (Py.startswith Py.dollar ty') eqn:Hty'; simpl.
      * destruct Hc as [->|[v ->]]; [lia|].
        pose proof (record_count_insert pr (Py.lower ty') (Scalar v)) as Hi.
        destruct (pr !! Py.lower ty') as [[v'|l]|] eqn:Hk; simpl in Hi; try lia.
        apply Hds in Hk. rewrite lower_startswith_dollar in Hk. congruence.
      * destruct Hc as [Hk ->].
        pose proof (record_count_insert pr (Py.lower ty')
                      (Records (records_under (Py.lower ty') pr ++ [rd]))) as Hi.
        simpl in Hi. rewrite length_app in Hi. simpl in Hi.
        assert (Hfo : from_option entry_count 0 (pr !! Py.lower ty')
                      = length (records_under (Py.lower ty') pr)).
        { unfold records_under.
          destruct Hk as [Hk|[l Hk]]; rewrite Hk; reflexivity. }
        lia.
    + intros ty Hty. rewrite (Hlists ty Hty), Hrec.
      apply names_rr_type_inv in Hty as [Hmem2 Hnd].
      rewrite List.app_assoc. f_equal.
      destruct (String.eqb_spec ty' ty) as [->|Hne].
      * rewrite Hnd in Hc. destruct Hc as [_ ->].
        unfold records_under at 1. now rewrite lookup_insert_eq.
      * assert (Hkey : Py.lower ty' <> Py.lower ty).
        { intros Heq. apply Hne. now apply lower_inj_supported. }
        rewrite List.app_nil_r. unfold records_under.
        destruct (Py.startswith Py.dollar ty').
        -- destruct Hc as [->|[v ->]]; [reflexivity|].
           now rewrite lookup_insert_ne.
        -- destruct Hc as [_ ->]. now rewrite lookup_insert_ne.
Qed.

End Lines.

(** ** Directive lines *)

Section Directives.

#[local] Arguments Py.mem : simpl never.

Lemma py_int_not_supported (s : string) :
  Py.mem s SUPPORTED_RECORDS = true -> Argparse.py_int s = None.
Proof.
  intros H%mem_supported. simpl in H.
  repeat (destruct H as [<-|H]; [reflexivity|]). contradiction.
Qed.

Lemma find_record_type_singleton (key : string) (v : value) :
  Py.mem key SUPPORTED_RECORDS = true ->
  Py.startswith Py.dollar key = true ->
  value_is v key = false ->
  find_record_type {[ key := v ]} = Some (key, {[ key := v ]}).
Proof.
  intros Hm Hd Hv. unfold find_record_type.
  rewrite map_to_list_singleton. simpl. rewrite Hm, Hd. simpl. now rewrite Hv.
Qed.

(** The record of a directive with its one value. *)
Lemma parse_record_directive (d s : string) (v : value)
    (pr : gmap string entry) :
  Py.mem s SUPPORTED_RECORDS = false ->
  Py.mem d SUPPORTED_RECORDS = true ->
  Py.startswith Py.dollar d = true ->
  Argparse.parse_known_args make_parser [d; s] = Some ({[ d := v ]}, []) ->
  value_is v d = false ->
  v <> VNone ->
  parse_record [d; s] pr = Ok (d, {[ d := v ]}).
Proof.
  intros Hs Hd Hdol Hp Hv Hn.
  assert (Hdisp : dispatch [d; s] = Ok ([d; s], false)).
  { unfold dispatch, supported_at. simpl. now rewrite Hs. }
  unfold parse_record. rewrite Hdisp.
  cbv beta iota delta [mbind result_bind]. rewrite Hp.
  rewrite (find_record_type_singleton _ _ Hd Hdol Hv).
  assert (Hc : clean_fields {[ d := v ]} = ({[ d := v ]} : gmap string value)).
  { unfold clean_fields. now apply map_filter_singleton_True. }
  rewrite Hc.
  assert (Hptr : String.eqb d "PTR" = false).
  { destruct (String.eqb_spec d "PTR") as [->|]; [discriminate Hdol|reflexivity]. }
  rewrite Hptr. reflexivity.
Qed.

(** A directive with its one value: the value is stored as a scalar under
    the lower-cased directive, over whatever was there. *)
Lemma parse_line_directive (d s : string) (v : value)
    (pr : gmap string entry) :
  Py.mem s SUPPORTED_RECORDS = false ->
  Py.mem d SUPPORTED_RECORDS = true ->
  Py.startswith Py.dollar d = true ->
  Argparse.parse_known_args make_parser [d; s] = Some ({[ d := v ]}, []) ->
  value_is v d = false ->
  v <> VNone ->
  parse_line [d; s] pr = (<[Py.lower d := Scalar v]> pr, None).
Proof.
  intros Hs Hd Hdol Hp Hv Hn.
  unfold parse_line.
  rewrite (parse_record_directive _ _ _ _ Hs Hd Hdol Hp Hv Hn).
  unfold accumulate.
  rewrite map_size_singleton, Hdol, lookup_singleton_eq. reflexivity.
Qed.

Lemma parse_known_args_ttl (s : string) (n : Z) :
  Argparse.py_int s = Some n ->
  Argparse.option_like s = false ->
  Argparse.parse_known_args make_parser ["$TTL"; s]
  = Some ({[ "$TTL" := VInt n ]}, []).
Proof.
  intros Hi Ho.
  rewrite (parse_known_args_directive "$TTL" s
             (Positional "$TTL" ArgInt false) eq_refl eq_refl eq_refl), Ho.
  cbn [argty Argparse.get_value]. rewrite Hi. reflexivity.
Qed.

Lemma int_not_supported (s : string) (n : Z) :
  Argparse.py_int s = Some n -> Py.mem s SUPPORTED_RECORDS = false.
Proof.
  intros Hi. destruct (Py.mem s SUPPORTED_RECORDS) eqn:Hm; [|reflexivity].
  apply py_int_not_supported in Hm. congruence.
Qed.

Lemma parse_line_ttl (s : string) (n : Z) (pr : gmap string entry) :
  Argparse.py_int s = Some n ->
  Argparse.option_like s = false ->
  parse_line ["$TTL"; s] pr = (<["$ttl" := Scalar (VInt n)]> pr, None).
Proof.
  intros Hi Ho.
  apply (parse_line_directive "$TTL" s (VInt n)); try reflexivity; try discriminate.
  - eapply int_not_supported, Hi.
  - now apply parse_known_args_ttl.
Qed.

Lemma parse_line_origin (s : string) (pr : gmap string entry) :
  Py.mem s SUPPORTED_RECORDS = false ->
  Argparse.option_like s = false ->
  parse_line ["$ORIGIN"; s] pr = (<["$origin" := Scalar (VStr s)]> pr, None).
Proof.
  intros Hm Ho.
  apply (parse_line_directive "$ORIGIN" s (VStr s)); try reflexivity;
    try discriminate; try assumption.
  - rewrite (parse_known_args_directive "$ORIGIN" s
               (Positional "$ORIGIN" ArgStr false) eq_refl eq_refl eq_refl), Ho.
    reflexivity.
  - simpl. destruct (String.eqb_spec s "$ORIGIN") as [->|]; [discriminate Hm|reflexivity].
Qed.

(** An accepted directive line stores its value as a scalar under the
    lower-cased directive, over whatever was there: a string for [$ORIGIN],
    an integer for [$TTL]. *)
Lemma directive_stored (toks : list string) (pr : gmap string entry)
    (ty : string) (rd : gmap string value) :
  parse_record toks pr = Ok (ty, rd) ->
  Py.startswith Py.dollar ty = true ->
  exists v,
    rd !! ty = Some v
    /\ parse_line toks pr = (<[Py.lower ty := Scalar v]> pr, None)
    /\ ((ty = "$ORIGIN" /\ exists s, v = VStr s)
        \/ (ty = "$TTL" /\ exists n, v = VInt n)).
Proof.
  intros Hr Hty.
  destruct (directive_line_shape _ _ _ _ Hr Hty) as (a & v & _ & _ & Hv & Hk).
  exists v. split; [exact Hv|]. split.
  - unfold parse_line. rewrite Hr. unfold accumulate.
    destruct (Nat.eqb_spec (size rd) 0) as [Hz|_].
    { apply map_size_empty_iff in Hz. subst rd. now rewrite lookup_empty in Hv. }
    now rewrite Hty, Hv.
  - destruct Hk as [[-> ->]|[-> (n & _ & ->)]]; eauto.
Qed.

(** Only a [$TTL] directive line writes under the key of the TTL. *)
Lemma parse_line_ttl_frame (line : string) (pr pr' : gmap string entry)
    (o : option exn) :
  origin_free pr ->
  parse_line (tokenize_line line) pr = (pr', o) ->
  ttl_directive line = false ->
  pr' !! "$ttl" = pr !! "$ttl".
Proof.
  intros Hof H Hnt. destruct o as [e|].
  { now rewrite (parse_line_raise_state _ _ _ _ H). }
  destruct (parse_line_accepted _ _ _ Hof H) as (ty & rd & Hr & Hmem & Hc).
  assert (Hne : Py.lower ty <> "$ttl").
  { intros Heq.
    assert (ty = "$TTL") as -> by (apply lower_inj_supported; auto).
    destruct (directive_line_shape _ _ _ _ Hr eq_refl) as (a & v & _ & _ & Hv & _).
    unfold ttl_directive, directive_value, line_record in Hnt.
    rewrite Hr in Hnt. simpl in Hnt. rewrite Hv in Hnt. discriminate. }
  destruct (Py.startswith Py.dollar ty).
  - destruct Hc as [->|[v ->]]; [reflexivity|]. now rewrite lookup_insert_ne.
  - destruct Hc as [_ ->]. now rewrite lookup_insert_ne.
Qed.

(** The value of the standard [$TTL] line. *)
Lemma directive_value_ttl (line s : string) (n : Z) :
  tokenize_line line = ["$TTL"; s] ->
  Argparse.py_int s = Some n ->
  Argparse.option_like s = false ->
  directive_value "$TTL" line = Some (VInt n).
Proof.
  intros Htok Hi Ho.
  unfold directive_value, line_record. rewrite Htok.
  rewrite (parse_record_directive "$TTL" s (VInt n)); try reflexivity;
    try discriminate.
  - eapply int_not_supported, Hi.
  - now apply parse_known_args_ttl.
Qed.

(** The values of the directives are typed. *)
Lemma directive_value_typed (d line : string) (v : value) :
  directive_value d line = Some v ->
  Py.startswith Py.dollar d = true ->
  (d = "$ORIGIN" /\ exists s, v = VStr s)
  \/ (d = "$TTL" /\ exists n, v = VInt n).
Proof.
  unfold directive_value, line_record.
  destruct (parse_record (tokenize_line line) ∅) as [[ty rd]|e] eqn:Hr;
    [|discriminate].
  destruct (String.eqb_spec ty d) as [->|]; [|discriminate].
  intros Hv Hd.
  destruct (directive_stored _ _ _ _ Hr Hd) as (v' & Hv' & _ & Hk).
  rewrite Hv in Hv'. injection Hv' as <-. exact Hk.
Qed.

(** One line and the entry of a directive: an accepted line of the
    directive overwrites it, and no other line touches it. *)
Lemma parse_line_directive_value (d line : string)
    (pr pr' : gmap string entry) (o : option exn) :
  Py.mem d SUPPORTED_RECORDS = true ->
  Py.startswith Py.dollar d = true ->
  origin_free pr ->
  parse_line (tokenize_line line) pr = (pr', o) ->
  pr' !! Py.lower d
  = match o, directive_value d line with
    | None, Some v => Some (Scalar v)
    | _, _ => pr !! Py.lower d
    end.
Proof.
  intros Hmd Hd Hof H. destruct o as [e|].
  { now rewrite (parse_line_raise_state _ _ _ _ H). }
  destruct (parse_line_accepted _ _ _ Hof H) as (ty & rd & Hr & Hmem & Hc).
  unfold directive_value, line_record. rewrite Hr.
  destruct (String.eqb_spec ty d) as [->|Hne].
  - rewrite <- (parse_record_origin_free _ _ Hof) in Hr.
    destruct (directive_stored _ _ _ _ Hr Hd) as (v & Hv & Hl & _).
    rewrite Hv. rewrite Hl in H. injection H as <-.
    apply lookup_insert_eq.
  - assert (Hkey : Py.lower ty <> Py.lower d).
    { intros Heq. apply Hne. now apply lower_inj_supported. }
    destruct (Py.startswith Py.dollar ty).
    + destruct Hc as [->|[v ->]]; [reflexivity|]. now rewrite lookup_insert_ne.
    + destruct Hc as [_ ->]. now rewrite lookup_insert_ne.
Qed.

End Directives.

(** ** The whole parse *)

Section WholeParse.

Lemma origin_free_empty : origin_free ∅.
Proof. apply lookup_empty. Qed.

Lemma directives_scalar_empty : directives_scalar ∅.
Proof. intros key l H. now rewrite lookup_empty in H. Qed.

Lemma parse_lines_loop_split (b : bool) (l1 l2 : list string)
    (pr zf : gmap string entry) :
  parse_lines_loop b (l1 ++ l2) pr = Ok zf ->
  exists mid, parse_lines_loop b l1 pr = Ok mid
              /\ parse_lines_loop b l2 mid = Ok zf.
Proof.
  rewrite parse_lines_loop_app.
  destruct (parse_lines_loop b l1 pr) as [mid|e]; simpl; [eauto|discriminate].
Qed.

Lemma parse_lines_loop_ttl_frame (b : bool) (lines : list string) :
  forall pr zf,
    origin_free pr ->
    parse_lines_loop b lines pr = Ok zf ->
    forallb (fun l => negb (ttl_directive l)) lines = true ->
    zf !! "$ttl" = pr !! "$ttl".
Proof.
  induction lines as [|line lines IH]; intros pr zf Hof H Hall; simpl in H.
  { now injection H as <-. }
  simpl in Hall. apply andb_true_iff in Hall as [Hl%negb_true_iff Hall].
  destruct (parse_line (tokenize_line line) pr) as [pr' o] eqn:Hp.
  pose proof (parse_line_origin_free _ _ _ _ Hof Hp) as Hof'.
  rewrite <- (parse_line_ttl_frame _ _ _ _ Hof Hp Hl).
  destruct o as [e|]; [|now apply IH].
  destruct e; try discriminate. destruct b; [now apply IH | discriminate].
Qed.

(** The entry of a directive after the loop: the value of the last line
    accepted as that directive, or what the accumulator held when there is
    no such line. *)
Lemma parse_lines_loop_directive (b : bool) (d : string) (lines : list string) :
  Py.mem d SUPPORTED_RECORDS = true ->
  Py.startswith Py.dollar d = true ->
  forall pr zf,
    origin_free pr ->
    parse_lines_loop b lines pr = Ok zf ->
    zf !! Py.lower d
    = match last (omap (directive_value d) lines) with
      | Some v => Some (Scalar v)
      | None => pr !! Py.lower d
      end.
Proof.
  intros Hmd Hd.
  induction lines as [|line lines IH]; intros pr zf Hof H; simpl in H.
  { now injection H as <-. }
  destruct (parse_line (tokenize_line line) pr) as [pr' o] eqn:Hl.
  pose proof (parse_line_origin_free _ _ _ _ Hof Hl) as Hof'.
  pose proof (parse_line_directive_value d _ _ _ _ Hmd Hd Hof Hl) as Hval.
  cbn [omap list_omap].
  destruct o as [e|].
  - destruct e as [m| | | | |]; try discriminate.
    destruct b; [|discriminate].
    apply parse_line_refused in Hl as (_ & _ & Hr & _).
    assert (directive_value d line = None) as ->.
    { unfold directive_value, line_record. now rewrite Hr. }
    rewrite (IH _ _ Hof' H). now rewrite Hval.
  - rewrite (IH _ _ Hof' H), Hval.
    destruct (directive_value d line) as [v|]; [|reflexivity].
    rewrite last_cons. now destruct (last _).
Qed.

End WholeParse.




(** C9. In the zone file that [parse_zone_file] returns, the entry under
    the lower-cased [$ttl] is the integer of the last [$TTL] directive line,
    a scalar that overwrites those of the lines before it; an [$ORIGIN]
    directive is stored the same way, as a scalar string under [$origin];
    and the entry under each lower-cased record type is the list of the
    records of that type, in the order of the lines that yield them.  A
    directive line is a line that the parser accepts as that directive,
    whether its value is written after the directive or after two dashes;
    the entry of a directive is the value of the last such line, and there
    is no entry when there is no such line.  On the zone of six lines below,
    two of them [$TTL] directives, this gives 7200 for the TTL, the origin,
    the two A records in their order and the NS record. *)
Theorem directives_scalar_records_in_line_order :
  parse_zone_file
    (text_of_lines ["$TTL 3600"; "$ORIGIN example.com"; "www A 1.2.3.4";
                    "$TTL 7200"; "mail 300 IN A 5.6.7.8";
                    "@ NS ns1.example.com"]) false
  = Ok {[ "$ttl" := Scalar (VInt 7200);
          "$origin" := Scalar (VStr "example.com");
          "a" := Records
                   [ {[ "name" := VStr "www"; "class" := VStr "IN";
                        "ip" := VStr "1.2.3.4"; "_missing_class" := VTrue ]};
                     {[ "name" := VStr "mail"; "ttl" := VInt 300;
                        "class" := VStr "IN"; "ip" := VStr "5.6.7.8" ]} ];
          "ns" := Records
                    [ {[ "name" := VStr "@"; "class" := VStr "IN";
                         "host" := VStr "ns1.example.com";
                         "_missing_class" := VTrue ]} ] ]}
  /\ (forall text b zf pre line post s n,
         parse_zone_file text b = Ok zf ->
         record_lines text = pre ++ line :: post ->
         tokenize_line line = ["$TTL"; s] ->
         Argparse.py_int s = Some n ->
         Argparse.option_like s = false ->
         forallb (fun l => negb (ttl_directive l)) post = true ->
         zf !! "$ttl" = Some (Scalar (VInt n)))
  /\ (forall text b zf d,
         parse_zone_file text b = Ok zf ->
         d = "$TTL" \/ d = "$ORIGIN" ->
         zf !! Py.lower d
         = Scalar <$> last (omap (directive_value d) (record_lines text)))
  /\ (forall line v,
         (directive_value "$TTL" line = Some v -> exists n, v = VInt n)
         /\ (directive_value "$ORIGIN" line = Some v -> exists s, v = VStr s))
  /\ (forall s pr,
         Py.mem s SUPPORTED_RECORDS = false ->
         Argparse.option_like s = false ->
         parse_line ["$ORIGIN"; s] pr
         = (<["$origin" := Scalar (VStr s)]> pr, None))
  /\ (forall text b zf ty,
         parse_zone_file text b = Ok zf ->
         names_rr_type ty = true ->
         records_under (Py.lower ty) zf = records_of_type ty (record_lines text)).
Proof.
  split; [vm_compute; reflexivity|]. split; [|split; [|split; [|split]]].
  - intros text b zf pre line post s n Hzf Hlines Htok Hint Hopt Hpost.
    unfold parse_zone_file, parse_lines in Hzf. fold (record_lines text) in Hzf.
    rewrite Hlines in Hzf.
    apply parse_lines_loop_split in Hzf as (mid & Hpre & Hrest).
    destruct (parse_lines_loop_records _ _ _ _ origin_free_empty
                directives_scalar_empty Hpre) as (Hof & _).
    simpl in Hrest. rewrite Htok, (parse_line_ttl _ _ _ Hint Hopt) in Hrest.
    assert (Hof' : origin_free (<["$ttl" := Scalar (VInt n)]> mid)).
    { unfold origin_free. rewrite lookup_insert_ne; [exact Hof | discriminate]. }
    rewrite (parse_lines_loop_ttl_frame _ _ _ _ Hof' Hrest Hpost).
    apply lookup_insert_eq.
  - intros text b zf d Hzf Hd.
    unfold parse_zone_file, parse_lines in Hzf. fold (record_lines text) in Hzf.
    rewrite (parse_lines_loop_directive b d (record_lines text))
      with (pr := ∅) (zf := zf);
      [ | destruct Hd as [->| ->]; reflexivity
        | destruct Hd as [->| ->]; reflexivity
        | apply origin_free_empty | exact Hzf ].
    rewrite lookup_empty. now destruct (last _).
  - intros line v. split; intros H;
      destruct (directive_value_typed _ _ _ H eq_refl)
        as [[Hd Hv]|[Hd Hv]]; try discriminate Hd; exact Hv.
  - apply parse_line_origin.
  - intros text b zf ty Hzf Hty.
    destruct (parse_lines_loop_records _ _ _ _ origin_free_empty
                directives_scalar_empty Hzf) as (_ & _ & _ & Hlists).
    rewrite (Hlists ty Hty). unfold records_under at 1.
    now rewrite lookup_empty.
Qed.

Lemma directives_scalar_records_in_line_order_witness :
  zone_of (parse_zone_file
             (text_of_lines ["$TTL 3600"; "www A 1.2.3.4"; "$TTL 7200";
                             "mail A 5.6.7.8"]) true) !! "$ttl"
  = Some (Scalar (VInt 7200))
  /\ length (records_under "a"
       (zone_of (parse_zone_file
          (text_of_lines ["$TTL 3600"; "www A 1.2.3.4"; "$TTL 7200";
                          "mail A 5.6.7.8"]) true)))
     = 2%nat
  /\ zone_of (parse_zone_file
                (text_of_lines ["$TTL 7200"; "$TTL -- 9999"]) true) !! "$ttl"
     = Some (Scalar (VInt 9999)).
Proof.
  split; [|split].
  - apply (proj1 (proj2 directives_scalar_records_in_line_order)
             (text_of_lines ["$TTL 3600"; "www A 1.2.3.4"; "$TTL 7200";
                             "mail A 5.6.7.8"]) true _
             ["$TTL 3600"; "www A 1.2.3.4"] "$TTL 7200" ["mail A 5.6.7.8"]
             "7200" 7200%Z);
      vm_compute; reflexivity.
  - rewrite (proj2 (proj2 (proj2 (proj2 (proj2
               directives_scalar_records_in_line_order))))
               (text_of_lines ["$TTL 3600"; "www A 1.2.3.4"; "$TTL 7200";
                               "mail A 5.6.7.8"]) true _ "A");
      vm_compute; reflexivity.
  - change "$ttl" with (Py.lower "$TTL").
    rewrite (proj1 (proj2 (proj2 directives_scalar_records_in_line_order))
               (text_of_lines ["$TTL 7200"; "$TTL -- 9999"]) true _ "$TTL");
      [vm_compute; reflexivity | vm_compute; reflexivity | now left].
Defined.

(** ** PTR lines *)

Section Ptr.

#[local] Arguments Py.mem : simpl never.

(** A PTR line of three tokens, on any accumulator without the upper-cased
    origin key: the record is built up to the full name, and the
    concatenation fails. *)
Lemma ptr_line_type_error (name host : string) (pr : gmap string entry) :
  origin_free pr ->
  Argparse.option_like name = false ->
  Argparse.option_like host = false ->
  parse_line [name; "PTR"; host] pr = (pr, Some TypeError).
Proof.
  intros Hof Hn Hh. unfold parse_line.
  rewrite (parse_record_origin_free _ _ Hof).
  unfold parse_record.
  change (dispatch [name; "PTR"; host])
    with (Ok (["PTR"; name; "IN"; "PTR"; host], true) : result _).
  cbv beta iota delta [mbind result_bind].
  assert (He : existsb Argparse.option_like [name; "IN"; "PTR"; host] = false).
  { simpl. now rewrite Hn, Hh. }
  rewrite (parse_known_args_unmarked _ _ _ He).
  vm_compute. reflexivity.
Qed.

End Ptr.

(** C1, on the code.  The origin of [$ORIGIN example.com] is stored under
    the lower-cased key, and line 318 looks it up under the upper-cased one:
    the PTR line that follows finds no origin, and the concatenation of
    line 322 raises [TypeError], in strict and in lenient mode alike.  So
    does every PTR line of a name and a host, on every accumulator without
    the upper-cased key, which are all the parser reaches.  Had the origin
    been found under that key, the record would carry the full name
    [1.example.com]. *)
Theorem ptr_line_raises_type_error :
  parse_zone_file "$ORIGIN example.com" false
  = Ok {[ "$origin" := Scalar (VStr "example.com") ]}
  /\ parse_zone_file (two_lines "$ORIGIN example.com" "1 PTR host") false
     = Raise TypeError
  /\ parse_zone_file (two_lines "$ORIGIN example.com" "1 PTR host") true
     = Raise TypeError
  /\ parse_line ["1"; "PTR"; "host"] {[ "$origin" := Scalar (VStr "example.com") ]}
     = ({[ "$origin" := Scalar (VStr "example.com") ]}, Some TypeError)
  /\ (forall name host pr,
         origin_free pr ->
         Argparse.option_like name = false ->
         Argparse.option_like host = false ->
         parse_line [name; "PTR"; host] pr = (pr, Some TypeError))
  /\ (exists r,
         fst (parse_line ["1"; "PTR"; "host"]
                {[ "$ORIGIN" := Scalar (VStr "example.com") ]}) !! "ptr"
         = Some (Records [r])
         /\ r !! "fullname" = Some (VStr "1.example.com")).
Proof.
  repeat split; try (vm_compute; reflexivity).
  - exact ptr_line_type_error.
  - eexists. split; vm_compute; reflexivity.
Qed.


(** * Further properties of the code *)

(** ** The two modes of parse_lines *)

Section Modes.

Lemma parse_lines_loop_lenient_no_invalid (lines : list string) :
  forall pr m,
    parse_lines_loop true lines pr <> Raise (InvalidLineException m).
Proof.
  induction lines as [|line lines IH]; intros pr m; simpl; [discriminate|].
  destruct (parse_line (tokenize_line line) pr) as [pr' [e|]]; [|apply IH].
  destruct e; try discriminate. apply IH.
Qed.

(** Where the strict loop raises [InvalidLineException], the lines before
    the refused one were all accepted, and the message is that line's. *)
Lemma parse_lines_loop_strict_invalid (lines : list string) :
  forall pr m,
    parse_lines_loop false lines pr = Raise (InvalidLineException m) ->
    exists pre line post mid,
      lines = pre ++ line :: post
      /\ parse_lines_loop false pre pr = Ok mid
      /\ parse_line (tokenize_line line) mid
         = (mid, Some (InvalidLineException m))
      /\ m = Py.join " " (tokenize_line line).
Proof.
  induction lines as [|line lines IH]; intros pr m H; simpl in H;
    [discriminate|].
  destruct (parse_line (tokenize_line line) pr) as [pr' o] eqn:Hl.
  destruct o as [e|].
  - destruct e; try discriminate. injection H as ->.
    destruct (parse_line_refused _ _ _ _ Hl) as (-> & Hm & _ & _).
    exists [], line, lines, pr. repeat split; auto.
  - destruct (IH _ _ H) as (pre & l & post & mid & -> & Hpre & Hbad & Hm).
    exists (line :: pre), l, post, mid. repeat split; auto.
    simpl. now rewrite Hl.
Qed.

End Modes.

(** X1. The lenient parse never raises [InvalidLineException], whatever the
    text. *)
Theorem lenient_never_raises_invalid_line (text m : string) :
  parse_zone_file text true <> Raise (InvalidLineException m).
Proof. apply parse_lines_loop_lenient_no_invalid. Qed.

(** X2. A text that the strict parse accepts gives the same zone file in
    lenient mode. *)
Theorem strict_result_is_lenient_result (text : string)
    (zf : gmap string entry) :
  parse_zone_file text false = Ok zf -> parse_zone_file text true = Ok zf.
Proof. apply parse_lines_loop_strict_lenient. Qed.

Lemma strict_result_is_lenient_result_witness :
  parse_zone_file "www 300 IN A 1.2.3.4" true
  = parse_zone_file "www 300 IN A 1.2.3.4" false.
Proof.
  apply (strict_result_is_lenient_result "www 300 IN A 1.2.3.4"
           (zone_of (parse_zone_file "www 300 IN A 1.2.3.4" false))).
  vm_compute. reflexivity.
Defined.

(** X3. When the strict parse raises [InvalidLineException], the message is
    the tokens, joined by spaces, of the first line that the parser refuses:
    every line before it was accepted. *)
Theorem strict_reports_first_refused_line (text m : string) :
  parse_zone_file text false = Raise (InvalidLineException m) ->
  exists pre line post mid,
    record_lines text = pre ++ line :: post
    /\ parse_lines_loop false pre ∅ = Ok mid
    /\ parse_line (tokenize_line line) mid = (mid, Some (InvalidLineException m))
    /\ m = Py.join " " (tokenize_line line).
Proof. apply parse_lines_loop_strict_invalid. Qed.

Lemma strict_reports_first_refused_line_witness :
  exists pre line post mid,
    record_lines (text_of_lines ["www A 1.2.3.4"; "no such record"; "junk"])
    = pre ++ line :: post
    /\ parse_lines_loop false pre ∅ = Ok mid
    /\ parse_line (tokenize_line line) mid
       = (mid, Some (InvalidLineException "no such record"))
    /\ "no such record" = Py.join " " (tokenize_line line).
Proof.
  apply (strict_reports_first_refused_line
           (text_of_lines ["www A 1.2.3.4"; "no such record"; "junk"])
           "no such record").
  vm_compute. reflexivity.
Defined.

(** ** Lines that the dispatcher refuses *)

Section Refusals.

#[local] Arguments Py.mem : simpl never.

(** The subparsers are named by supported records only. *)
Lemma make_parser_unknown (cmd : string) :
  Py.mem cmd SUPPORTED_RECORDS = false ->
  List.find (fun sp => String.eqb (fst sp) cmd) make_parser = None.
Proof.
  intros Hm.
  destruct (List.find _ make_parser) as [[c ps]|] eqn:Hf; [|reflexivity].
  apply make_parser_find in Hf as [_ Hok]. unfold subparser_ok in Hok.
  apply andb_true_iff in Hok as [[_ Hc]%andb_true_iff _]. congruence.
Qed.

Lemma dispatch_no_type (toks : list string) :
  supported_at 1 toks = false ->
  supported_at 2 toks = false ->
  supported_at 3 toks = false ->
  dispatch toks = Ok (toks, false).
Proof. unfold dispatch. now intros -> -> ->. Qed.

Lemma parse_record_refused_by_argparse (toks argv : list string) (ci : bool)
    (pr : gmap string entry) :
  dispatch toks = Ok (argv, ci) ->
  (forall rd, Argparse.parse_known_args make_parser argv <> Some (rd, [])) ->
  parse_line toks pr = (pr, Some (InvalidLineException (Py.join " " toks))).
Proof.
  intros Hd Hp. unfold parse_line, parse_record. rewrite Hd.
  cbv beta iota delta [mbind result_bind].
  destruct (Argparse.parse_known_args make_parser argv) as [[rd [|u us]]|];
    try reflexivity.
  now destruct (Hp rd).
Qed.

(** A [$TTL] word followed by a supported name is refused. *)
Lemma ttl_then_supported_refused (s : string) :
  Py.mem s SUPPORTED_RECORDS = true ->
  forall rd,
    Argparse.parse_known_args make_parser [s; "$TTL"; "IN"; s] <> Some (rd, []).
Proof.
  revert s.
  apply (supported_cases
           (fun s => forall rd,
                Argparse.parse_known_args make_parser [s; "$TTL"; "IN"; s]
                <> Some (rd, [])));
    intros rd; vm_compute; discriminate.
Qed.

(** The slots of a line of two tokens. *)
Lemma dispatch_pair (d s : string) :
  dispatch [d; s]
  = if Py.mem s SUPPORTED_RECORDS then Ok ([s; d; "IN"; s], true)
    else Ok ([d; s], false).
Proof.
  unfold dispatch, supported_at. simpl.
  now destruct (Py.mem s SUPPORTED_RECORDS).
Qed.

(** The line of [$TTL] and one token, in full. *)
Lemma parse_line_ttl_line (s : string) (pr : gmap string entry) :
  parse_line ["$TTL"; s] pr
  = match Argparse.py_int s with
    | Some n =>
        if Argparse.option_like s
        then (pr, Some (InvalidLineException ("$TTL " ++ s)))
        else (<["$ttl" := Scalar (VInt n)]> pr, None)
    | None => (pr, Some (InvalidLineException ("$TTL " ++ s)))
    end.
Proof.
  assert (Hrefuse :
            Argparse.py_int s = None \/ Argparse.option_like s = true ->
            parse_line ["$TTL"; s] pr
            = (pr, Some (InvalidLineException ("$TTL " ++ s)))).
  { intros Hbad.
    change ("$TTL " ++ s)%string with (Py.join " " ["$TTL"; s]).
    destruct (Py.mem s SUPPORTED_RECORDS) eqn:Hm.
    - apply (parse_record_refused_by_argparse _ [s; "$TTL"; "IN"; s] true).
      + now rewrite dispatch_pair, Hm.
      + now apply ttl_then_supported_refused.
    - apply (parse_record_refused_by_argparse _ ["$TTL"; s] false).
      + now rewrite dispatch_pair, Hm.
      + intros rd.
        rewrite (parse_known_args_directive "$TTL" s
                   (Positional "$TTL" ArgInt false) eq_refl eq_refl eq_refl).
        destruct (Argparse.option_like s); [discriminate|].
        destruct Hbad as [Hi|]; [|discriminate].
        cbn [argty Argparse.get_value]. rewrite Hi. discriminate. }
  destruct (Argparse.py_int s) as [n|] eqn:Hi; [|auto].
  destruct (Argparse.option_like s) eqn:Ho; [auto|].
  now apply parse_line_ttl.
Qed.

(** An [$ORIGIN] word followed by a supported name is refused. *)
Lemma origin_then_supported_refused (s : string) :
  Py.mem s SUPPORTED_RECORDS = true ->
  forall rd,
    Argparse.parse_known_args make_parser [s; "$ORIGIN"; "IN"; s]
    <> Some (rd, []).
Proof.
  revert s.
  apply (supported_cases
           (fun s => forall rd,
                Argparse.parse_known_args make_parser [s; "$ORIGIN"; "IN"; s]
                <> Some (rd, [])));
    intros rd; vm_compute; discriminate.
Qed.

(** The line of [$ORIGIN] and one token, in full. *)
Lemma parse_line_origin_line (s : string) (pr : gmap string entry) :
  parse_line ["$ORIGIN"; s] pr
  = if Py.mem s SUPPORTED_RECORDS || Argparse.option_like s
    then (pr, Some (InvalidLineException ("$ORIGIN " ++ s)))
    else (<["$origin" := Scalar (VStr s)]> pr, None).
Proof.
  change ("$ORIGIN " ++ s)%string with (Py.join " " ["$ORIGIN"; s]).
  destruct (Py.mem s SUPPORTED_RECORDS) eqn:Hm; cbn [orb].
  - apply (parse_record_refused_by_argparse _ [s; "$ORIGIN"; "IN"; s] true).
    + now rewrite dispatch_pair, Hm.
    + now apply origin_then_supported_refused.
  - destruct (Argparse.option_like s) eqn:Ho.
    + apply (parse_record_refused_by_argparse _ ["$ORIGIN"; s] false).
      * now rewrite dispatch_pair, Hm.
      * intros rd.
        rewrite (parse_known_args_directive "$ORIGIN" s
                   (Positional "$ORIGIN" ArgStr false) eq_refl eq_refl eq_refl).
        rewrite Ho. discriminate.
    + now apply parse_line_origin.
Qed.

End Refusals.

(** X4. A line with no supported record name among its first four tokens
    is refused with [InvalidLineException], carrying its tokens joined by
    spaces, and the accumulator is left as it was; the line without tokens
    is one of them. *)
Theorem line_without_record_type_refused (toks : list string)
    (pr : gmap string entry) :
  supported_at 0 toks = false ->
  supported_at 1 toks = false ->
  supported_at 2 toks = false ->
  supported_at 3 toks = false ->
  parse_line toks pr = (pr, Some (InvalidLineException (Py.join " " toks))).
Proof.
  intros H0 H1 H2 H3.
  apply (parse_record_refused_by_argparse _ _ _ _ (dispatch_no_type _ H1 H2 H3)).
  intros rd. destruct toks as [|cmd args]; [discriminate|].
  unfold supported_at in H0. simpl in H0.
  unfold Argparse.parse_known_args. now rewrite (make_parser_unknown _ H0).
Qed.

Lemma line_without_record_type_refused_witness :
  parse_line ["www"; "3600"; "IN"; "HINFO"; "A"; "1.2.3.4"] ∅
  = (∅, Some (InvalidLineException "www 3600 IN HINFO A 1.2.3.4"))
  /\ parse_line [] ∅ = (∅, Some (InvalidLineException "")).
Proof.
  split.
  - apply (line_without_record_type_refused
             ["www"; "3600"; "IN"; "HINFO"; "A"; "1.2.3.4"] ∅); reflexivity.
  - apply (line_without_record_type_refused [] ∅); reflexivity.
Defined.

(** X5. The [$TTL] directive takes exactly the decimal integers: the line of
    [$TTL] and one token stores the integer of the token when the token
    reads as one, a negative one such as [-5] included, and is not taken
    for an option; it is refused with [InvalidLineException] otherwise, the
    accumulator unchanged. *)
Theorem ttl_directive_takes_integers (s : string) (pr : gmap string entry) :
  parse_line ["$TTL"; s] pr
  = match Argparse.py_int s with
    | Some n =>
        if Argparse.option_like s
        then (pr, Some (InvalidLineException ("$TTL " ++ s)))
        else (<["$ttl" := Scalar (VInt n)]> pr, None)
    | None => (pr, Some (InvalidLineException ("$TTL " ++ s)))
    end.
Proof. apply parse_line_ttl_line. Qed.

(** ** Blanks, comments and escapes in the tokenizer *)

Section Scanner.

Lemma tokenize_loop_leading_blanks (ws rest : string) :
  all_chars Py.isspace ws = true ->
  tokenize_loop (ws ++ rest) tok_init = tokenize_loop rest tok_init.
Proof.
  induction ws as [|c ws IH]; simpl; [reflexivity|].
  intros [Hc Hws]%andb_true_iff. rewrite Hc. simpl. now apply IH.
Qed.

(** Outside quotes and escapes, a run of whitespace ends the token once. *)
Lemma tokenize_loop_blanks (ws rest : string) (r : list string) (buf : string) :
  all_chars Py.isspace ws = true ->
  ws <> "" ->
  tokenize_loop (ws ++ rest) (TokState r false false buf)
  = tokenize_loop rest
      (TokState (if Py.nonempty buf then r ++ [buf] else r) false false "").
Proof.
  destruct ws as [|c ws]; [congruence|]. intros H _. simpl in H.
  apply andb_true_iff in H as [Hc Hws]. simpl. rewrite Hc. simpl.
  clear c Hc. revert Hws.
  generalize (if Py.nonempty buf then r ++ [buf] else r). intros r'.
  induction ws as [|c ws IH]; simpl; [reflexivity|].
  intros [Hc Hws]%andb_true_iff. rewrite Hc. simpl. now apply IH.
Qed.

(** A text without backslash, double quote or semicolon leaves the scanner
    outside quotes and escapes. *)
Lemma tokenize_loop_unspecial (a : string) :
  unspecial a = true ->
  forall r buf, exists r' buf',
    forall rest,
      tokenize_loop (a ++ rest) (TokState r false false buf)
      = tokenize_loop rest (TokState r' false false buf').
Proof.
  unfold unspecial. induction a as [|c a IH]; simpl.
  - intros _ r buf. now exists r, buf.
  - intros [Hc Ha]%andb_true_iff r buf.
    apply negb_true_iff in Hc. unfold special in Hc.
    apply orb_false_iff in Hc as [[Hb Hd]%orb_false_iff Hs].
    rewrite Hb, Hd, Hs. simpl.
    destruct (Py.isspace c).
    + destruct (IH Ha (if Py.nonempty buf then r ++ [buf] else r) "")
        as (r' & buf' & H). now exists r', buf'.
    + destruct (IH Ha r (buf ++ Py.chr c)%string) as (r' & buf' & H).
      now exists r', buf'.
Qed.

(** Without a backslash in the text, the escape flag stays clear; without a
    semicolon, the scan goes through. *)
Lemma tokenize_loop_unescaped (pre : string) :
  Py.contains Py.semicolon pre = false ->
  Py.contains Py.backslash pre = false ->
  forall r q buf, exists r' q' buf',
    tokenize_loop pre (TokState r false q buf) = TokState r' false q' buf'
    /\ forall rest,
         tokenize_loop (pre ++ rest) (TokState r false q buf)
         = tokenize_loop rest (TokState r' false q' buf').
Proof.
  induction pre as [|c pre IH]; simpl.
  - intros _ _ r q buf. now exists r, q, buf.
  - intros [Hs Hpre]%orb_false_iff [Hb Hpre']%orb_false_iff r q buf.
    rewrite Hb, Hs. simpl.
    destruct (Py.isspace c).
    + destruct q; simpl; apply (IH Hpre Hpre').
    + rewrite andb_true_r. destruct (Ascii.eqb c Py.dquote).
      * destruct q; apply (IH Hpre Hpre').
      * apply (IH Hpre Hpre').
Qed.

Lemma replace_absent (c : ascii) (r s : string) :
  Py.contains c s = false -> Py.replace c r s = s.
Proof.
  induction s as [|d s IH]; simpl; [reflexivity|].
  intros [Hd Hs]%orb_false_iff. now rewrite Hd, (IH Hs).
Qed.

Lemma replace_append (c : ascii) (r s t : string) :
  Py.replace c r (s ++ t) = (Py.replace c r s ++ Py.replace c r t)%string.
Proof.
  induction s as [|d s IH]; simpl; [reflexivity|].
  now rewrite IH, append_assoc.
Qed.

(** What [serialize] writes for a token: its semicolons escaped, inside
    quotes when it holds a space. *)
Lemma serialize_tok_escaped (tok : string) :
  serialize_tok tok
  = if Py.contains Py.space tok
    then quoted (Py.replace Py.semicolon "\;" tok)
    else Py.replace Py.semicolon "\;" tok.
Proof.
  unfold serialize_tok.
  assert (Hq : Py.replace Py.semicolon "\;" (quoted tok)
               = quoted (Py.replace Py.semicolon "\;" tok)).
  { unfold quoted. simpl. now rewrite replace_append. }
  destruct (Py.contains Py.space tok).
  - destruct (Py.contains Py.semicolon (quoted tok)) eqn:Hc; [exact Hq|].
    now rewrite <- Hq, replace_absent.
  - destruct (Py.contains Py.semicolon tok) eqn:Hc; [reflexivity|].
    now rewrite replace_absent.
Qed.

(** A run of characters with its semicolons escaped goes to the token
    buffer with the semicolons bare. *)
Lemma tokenize_loop_escaped (w rest : string) (r : list string) (q : bool)
    (buf : string) :
  all_chars (fun c => negb (Ascii.eqb c Py.backslash)
                      && negb (Ascii.eqb c Py.dquote)
                      && (q || negb (Py.isspace c))) w = true ->
  tokenize_loop (Py.replace Py.semicolon "\;" w ++ rest) (TokState r false q buf)
  = tokenize_loop rest (TokState r false q (buf ++ w)).
Proof.
  revert buf. induction w as [|c w IH]; intros buf; simpl.
  - now rewrite append_nil_r.
  - intros [[[Hb Hd]%andb_true_iff Hws]%andb_true_iff Hw]%andb_true_iff.
    apply negb_true_iff in Hb, Hd.
    destruct (Ascii.eqb_spec c Py.semicolon) as [->|Hns].
    + simpl. rewrite (IH _ Hw). now rewrite append_chr.
    + assert (Hs : Ascii.eqb c Py.semicolon = false)
        by now apply Ascii.eqb_neq.
      simpl. rewrite Hb, Hd, Hs. simpl.
      destruct (Py.isspace c) eqn:Hc.
      * rewrite orb_false_r in Hws. subst q. simpl.
        rewrite (IH _ Hw). now rewrite append_chr.
      * rewrite (IH _ Hw). now rewrite append_chr.
Qed.

Lemma serializable_chars (tok : string) (q : bool) :
  Py.contains Py.dquote tok = false ->
  Py.contains Py.backslash tok = false ->
  q = true \/ unspaced tok = true ->
  all_chars (fun c => negb (Ascii.eqb c Py.backslash)
                      && negb (Ascii.eqb c Py.dquote)
                      && (q || negb (Py.isspace c))) tok = true.
Proof.
  unfold unspaced. induction tok as [|c tok IH]; simpl; [reflexivity|].
  intros [Hd Ht]%orb_false_iff [Hb Ht']%orb_false_iff Hq.
  rewrite Hd, Hb. simpl.
  destruct Hq as [->|[Hc Hu]%andb_true_iff].
  - simpl. apply IH; auto.
  - rewrite Hc, orb_true_r. simpl. apply IH; auto.
Qed.

Lemma unspaced_strip (tok : string) :
  unspaced tok = true ->
  Py.strip Py.newline (Py.strip Py.space tok) = tok.
Proof.
  intros Hu.
  assert (Hs : Py.strip Py.space tok = tok).
  { unfold Py.strip, Py.lstrip, Py.rstrip.
    rewrite lstrip_by_id, rstrip_by_id; try reflexivity;
      revert Hu; apply all_chars_impl; intros c Hc;
      destruct (Ascii.eqb_spec c Py.space) as [->|]; auto; discriminate. }
  rewrite Hs. unfold Py.strip, Py.lstrip, Py.rstrip.
  rewrite lstrip_by_id, rstrip_by_id; try reflexivity;
    revert Hu; apply all_chars_impl; intros c Hc;
    destruct (Ascii.eqb_spec c Py.newline) as [->|]; auto; discriminate.
Qed.

Lemma tokenize_serializable_from (tokens r : list string) :
  forallb serializable_token tokens = true ->
  tokenize_finish (tokenize_loop (serialize tokens) (TokState r false false ""))
  = r ++ tokens.
Proof.
  revert r. induction tokens as [|tok tokens IH]; intros r Hall.
  - simpl. now rewrite List.app_nil_r.
  - simpl in Hall. apply andb_true_iff in Hall as [Htok Hall].
    unfold serializable_token in Htok.
    apply andb_true_iff in Htok
      as [[[Hne Hd%negb_true_iff]%andb_true_iff Hb%negb_true_iff]%andb_true_iff Hq].
    destruct tokens as [|tok' tokens].
    + unfold serialize. simpl. rewrite serialize_tok_escaped.
      destruct (Py.contains Py.space tok).
      * unfold quoted. simpl.
        rewrite tokenize_loop_escaped by (apply serializable_chars; auto).
        reflexivity.
      * simpl in Hq.
        rewrite <- (append_nil_r (Py.replace _ _ tok)).
        rewrite tokenize_loop_escaped by (apply serializable_chars; auto).
        unfold tokenize_finish. simpl.
        now rewrite (unspaced_strip _ Hq), Hne.
    + change (serialize (tok :: tok' :: tokens))
        with (serialize_tok tok ++ " " ++ serialize (tok' :: tokens))%string.
      rewrite serialize_tok_escaped.
      destruct (Py.contains Py.space tok).
      * unfold quoted. simpl. rewrite append_assoc.
        rewrite tokenize_loop_escaped by (apply serializable_chars; auto).
        simpl. rewrite (IH _ Hall). now rewrite <- List.app_assoc.
      * simpl in Hq.
        rewrite tokenize_loop_escaped by (apply serializable_chars; auto).
        simpl. rewrite Hne. rewrite (IH _ Hall). now rewrite <- List.app_assoc.
Qed.

End Scanner.

(** X6. Whitespace in front of a line is ignored, a line of whitespace has
    no tokens, and after a text without backslash, double quote or
    semicolon any run of whitespace separates tokens as one space does. *)
Theorem whitespace_runs_collapse (ws : string) :
  all_chars Py.isspace ws = true ->
  (forall line, tokenize_line (ws ++ line) = tokenize_line line)
  /\ tokenize_line ws = []
  /\ (ws <> "" ->
      forall a b, unspecial a = true ->
        tokenize_line (a ++ ws ++ b) = tokenize_line (a ++ " " ++ b)).
Proof.
  intros Hws. split; [|split].
  - intros line. unfold tokenize_line.
    now rewrite tokenize_loop_leading_blanks.
  - unfold tokenize_line. rewrite <- (append_nil_r ws).
    now rewrite tokenize_loop_leading_blanks.
  - intros Hne a b Ha. unfold tokenize_line, tok_init.
    destruct (tokenize_loop_unspecial a Ha [] "") as (r' & buf' & H).
    rewrite !H.
    rewrite (tokenize_loop_blanks ws b r' buf' Hws Hne).
    now rewrite (tokenize_loop_blanks " " b r' buf').
Qed.

Lemma whitespace_runs_collapse_witness :
  tokenize_line ("www" ++ String Py.tab (String Py.tab " ") ++ "A 1.2.3.4")
  = tokenize_line "www A 1.2.3.4".
Proof.
  apply (proj2 (proj2 (whitespace_runs_collapse
                         (String Py.tab (String Py.tab " ")) eq_refl)));
    [discriminate | reflexivity].
Defined.

(** X7. In a line without backslash, everything from the first semicolon on
    is dropped, inside quotes as outside: the tokens are those read before
    the semicolon and then the buffer, flushed even when it is empty. *)
Theorem comment_is_dropped (pre post : string) :
  Py.contains Py.semicolon pre = false ->
  Py.contains Py.backslash pre = false ->
  tokenize_line (pre ++ ";" ++ post)
  = ret (tokenize_loop pre tok_init) ++ [tokbuf (tokenize_loop pre tok_init)]
  /\ tokenize_line (pre ++ ";" ++ post) = tokenize_line (pre ++ ";").
Proof.
  intros Hs Hb.
  destruct (tokenize_loop_unescaped pre Hs Hb [] false "")
    as (r' & q' & buf' & Hst & H).
  assert (Hany : forall post',
             tokenize_line (pre ++ ";" ++ post') = r' ++ [buf']).
  { intros post'. unfold tokenize_line, tok_init. rewrite H. reflexivity. }
  split.
  - rewrite Hany. unfold tok_init. now rewrite Hst.
  - rewrite Hany. symmetry. exact (Hany "").
Qed.

Lemma comment_is_dropped_witness :
  tokenize_line "www A 1.2.3.4 ; the web server" = ["www"; "A"; "1.2.3.4"; ""].
Proof.
  exact (proj1 (comment_is_dropped "www A 1.2.3.4 " " the web server"
                  eq_refl eq_refl)).
Defined.

(** X8. Tokenizing undoes [serialize] on every sequence of tokens that are
    not empty, hold no double quote and no backslash, and hold a space
    whenever they hold whitespace: the semicolons that [serialize] escapes
    come back bare. *)
Theorem tokenize_serialize_with_semicolons (tokens : list string) :
  forallb serializable_token tokens = true ->
  tokenize_line (serialize tokens) = tokens.
Proof. intros H. apply (tokenize_serializable_from tokens [] H). Qed.

Lemma tokenize_serialize_with_semicolons_witness :
  tokenize_line (serialize ["www"; "TXT"; "v=spf1; a mx; -all"; "k;v"])
  = ["www"; "TXT"; "v=spf1; a mx; -all"; "k;v"].
Proof.
  exact (tokenize_serialize_with_semicolons
           ["www"; "TXT"; "v=spf1; a mx; -all"; "k;v"] eq_refl).
Defined.

(** ** flatten, line by line *)

Section Flatten.

Lemma split_app_sep (sep : ascii) (l rest : string) :
  Py.contains sep l = false ->
  Py.split sep (l ++ String sep rest) = l :: Py.split sep rest.
Proof.
  induction l as [|c l IH]; simpl.
  - intros _. now rewrite Ascii.eqb_refl.
  - intros [Hc Hl]%orb_false_iff. now rewrite Hc, (IH Hl).
Qed.

(** Cutting a text made of physical lines gives the lines back. *)
Lemma split_text_of_lines (l : string) (lines : list string) :
  forallb single_line (l :: lines) = true ->
  Py.split Py.newline (text_of_lines (l :: lines)) = l :: lines.
Proof.
  revert l. induction lines as [|l' lines IH]; intros l Hall;
    simpl in Hall; apply andb_true_iff in Hall as [Hl%negb_true_iff Hall].
  - now apply split_no_sep.
  - change (text_of_lines (l :: l' :: lines))
      with (l ++ String Py.newline (text_of_lines (l' :: lines)))%string.
    rewrite (split_app_sep _ _ _ Hl). f_equal. now apply IH.
Qed.

Lemma flatten_tokens_app (l1 l2 : list string) :
  flatten_tokens (l1 ++ l2) = flatten_tokens l1 ++ flatten_tokens l2.
Proof. unfold flatten_tokens. apply flat_map_app. Qed.

Lemma flatten_tokens_cons (l : string) (lines : list string) :
  flatten_tokens (l :: lines)
  = (if Py.nonempty l then line_words l ++ [""] else []) ++ flatten_tokens lines.
Proof. reflexivity. Qed.

Lemma line_words_empty : line_words "" = [].
Proof. reflexivity. Qed.

(** [flatten] on a text given by its physical lines. *)
Lemma flatten_text_of_lines (lines : list string) :
  forallb single_line lines = true ->
  flatten (text_of_lines lines)
  = text_of_lines (flattened (flatten_loop (flatten_tokens lines) flat_init)).
Proof.
  intros Hall. unfold flatten. destruct lines as [|l lines].
  - reflexivity.
  - now rewrite (split_text_of_lines _ _ Hall).
Qed.

Lemma flatten_loop_app (t1 t2 : list string) (st : flat_state) :
  flatten_loop (t1 ++ t2) st = flatten_loop t2 (flatten_loop t1 st).
Proof.
  revert st. induction t1 as [|tok t1 IH]; intros [c cap fl]; simpl;
    [reflexivity|].
  destruct (negb c && negb (Py.nonempty tok)).
  - destruct (negb _); apply IH.
  - destruct (Py.startswith Py.lparen tok);
      destruct (_ && Py.endswith Py.rparen _); apply IH.
Qed.

(** The words of a line, none of which opens a group, are gathered. *)
Lemma flatten_loop_plain_words (ws : list string) :
  Forall (fun w => Py.nonempty w = true) ws ->
  existsb (Py.startswith Py.lparen) ws = false ->
  forall cap fl,
    flatten_loop ws (FlatState false cap fl) = FlatState false (cap ++ ws) fl.
Proof.
  induction ws as [|w ws IH]; intros Hne Hop cap fl; simpl.
  - now rewrite List.app_nil_r.
  - apply Forall_cons_iff in Hne as [Hw Hne].
    simpl in Hop. apply orb_false_iff in Hop as [Hp Hop].
    rewrite Hw, Hp. simpl. rewrite (IH Hne Hop).
    now rewrite <- List.app_assoc.
Qed.

Lemma line_words_nonempty (l : string) :
  Forall (fun w => Py.nonempty w = true) (line_words l).
Proof.
  unfold line_words. apply List.Forall_forall. intros w Hw.
  now apply filter_In in Hw as [_ Hw].
Qed.

(** One physical line without a group, met outside a group with nothing
    gathered: its words make one flattened line, if it has any. *)
Lemma flatten_loop_plain_line (l : string) (fl : list string) :
  opens_group l = false ->
  flatten_loop (flatten_tokens [l]) (FlatState false [] fl)
  = FlatState false []
      (fl ++ if has_words l then [Py.join " " (line_words l)] else []).
Proof.
  intros Hop. rewrite flatten_tokens_cons. simpl (flatten_tokens []).
  rewrite List.app_nil_r. unfold has_words.
  destruct (Py.nonempty l) eqn:Hl.
  - rewrite flatten_loop_app.
    rewrite (flatten_loop_plain_words _ (line_words_nonempty l) Hop). simpl.
    destruct (line_words l) as [|w ws]; simpl;
      [now rewrite List.app_nil_r | reflexivity].
  - destruct l; [|discriminate]. simpl. now rewrite List.app_nil_r.
Qed.

Lemma flatten_loop_plain_lines (lines : list string) :
  forallb (fun l => negb (opens_group l)) lines = true ->
  forall fl,
    flatten_loop (flatten_tokens lines) (FlatState false [] fl)
    = FlatState false []
        (fl ++ map (fun l => Py.join " " (line_words l))
                   (List.filter has_words lines)).
Proof.
  induction lines as [|l lines IH]; intros Hall fl; simpl in Hall.
  - simpl. now rewrite List.app_nil_r.
  - apply andb_true_iff in Hall as [Hl%negb_true_iff Hall].
    change (l :: lines) with ([l] ++ lines).
    rewrite flatten_tokens_app, flatten_loop_app.
    rewrite (flatten_loop_plain_line _ _ Hl), (IH Hall).
    simpl. destruct (has_words l); simpl.
    + now rewrite <- List.app_assoc.
    + now rewrite List.app_nil_r.
Qed.

(** *** Inside a group that is never closed *)

Lemma endswith_contains (c : ascii) (s : string) :
  Py.endswith c s = true -> Py.contains c s = true.
Proof.
  induction s as [|d s IH]; simpl; [discriminate|].
  destruct s as [|e s].
  - intros ->. reflexivity.
  - intros H. rewrite (IH H). apply orb_true_r.
Qed.

Lemma lstrip_contains (c d : ascii) (s : string) :
  Py.contains c s = false -> Py.contains c (Py.lstrip d s) = false.
Proof.
  unfold Py.lstrip. induction s as [|e s IH]; simpl; [reflexivity|].
  intros [He Hs]%orb_false_iff.
  destruct (Ascii.eqb e d); [now apply IH|]. simpl. now rewrite He, Hs.
Qed.

Lemma not_endswith (c : ascii) (s : string) :
  Py.contains c s = false -> Py.endswith c s = false.
Proof.
  intros H. destruct (Py.endswith c s) eqn:He; [|reflexivity].
  apply endswith_contains in He. congruence.
Qed.

(** While a group is open and no token holds a closing parenthesis, nothing
    is added to the flattened lines. *)
Lemma flatten_loop_open_group (toks : list string) :
  forallb (fun t => negb (Py.contains Py.rparen t)) toks = true ->
  forall cap fl,
    flattened (flatten_loop toks (FlatState true cap fl)) = fl.
Proof.
  induction toks as [|tok toks IH]; intros Hall cap fl; simpl; [reflexivity|].
  simpl in Hall. apply andb_true_iff in Hall as [Ht%negb_true_iff Hall].
  destruct (Py.startswith Py.lparen tok).
  - rewrite (not_endswith _ _ (lstrip_contains _ Py.lparen _ Ht)). simpl.
    now apply IH.
  - rewrite (not_endswith _ _ Ht). simpl. now apply IH.
Qed.

Lemma contains_replace (c d : ascii) (r s : string) :
  Py.contains c s = false -> Py.contains c r = false ->
  Py.contains c (Py.replace d r s) = false.
Proof.
  intros Hs Hr. induction s as [|e s IH]; simpl; [reflexivity|].
  simpl in Hs. apply orb_false_iff in Hs as [He Hs].
  rewrite contains_append, (IH Hs).
  destruct (Ascii.eqb e d); simpl; [now rewrite Hr | now rewrite He].
Qed.

Lemma split_contains (c sep : ascii) (s : string) :
  Py.contains c s = false ->
  forallb (fun w => negb (Py.contains c w)) (Py.split sep s) = true.
Proof.
  induction s as [|d s IH]; simpl; [reflexivity|].
  intros [Hd Hs]%orb_false_iff. specialize (IH Hs).
  destruct (Ascii.eqb d sep); simpl; [assumption|].
  destruct (Py.split sep s) as [|w ws]; simpl in *.
  - now rewrite Hd.
  - apply andb_true_iff in IH as [Hw%negb_true_iff Hws].
    now rewrite Hd, Hw, Hws.
Qed.

Lemma forallb_filter {A} (p q : A -> bool) (l : list A) :
  forallb p l = true -> forallb p (List.filter q l) = true.
Proof.
  induction l as [|x l IH]; simpl; [reflexivity|].
  intros [Hx Hl]%andb_true_iff.
  destruct (q x); simpl; [now rewrite Hx, IH | now apply IH].
Qed.

Lemma flatten_tokens_no_rparen (lines : list string) :
  forallb (fun l => negb (Py.contains Py.rparen l)) lines = true ->
  forallb (fun t => negb (Py.contains Py.rparen t)) (flatten_tokens lines) = true.
Proof.
  induction lines as [|l lines IH]; simpl; [reflexivity|].
  intros [Hl%negb_true_iff Hall]%andb_true_iff.
  fold (flatten_tokens lines). rewrite forallb_app, (IH Hall), andb_true_r.
  destruct (Py.nonempty l); [|reflexivity].
  rewrite forallb_app. simpl. rewrite andb_true_r.
  apply forallb_filter, split_contains, contains_replace;
    [assumption | reflexivity].
Qed.

(** The tokens of a line up to its first word that opens a group. *)
Lemma flatten_loop_opening (ws : list string) :
  Forall (fun w => Py.nonempty w = true) ws ->
  existsb (Py.startswith Py.lparen) ws = true ->
  forallb (fun t => negb (Py.contains Py.rparen t)) ws = true ->
  forall rest cap fl,
    forallb (fun t => negb (Py.contains Py.rparen t)) rest = true ->
    flattened (flatten_loop (ws ++ rest) (FlatState false cap fl)) = fl.
Proof.
  induction ws as [|w ws IH]; intros Hne Hop Hnr rest cap fl Hrest;
    [discriminate|].
  apply Forall_cons_iff in Hne as [Hw Hne].
  simpl in Hnr. apply andb_true_iff in Hnr as [Hwr%negb_true_iff Hnr].
  simpl in Hop. simpl. rewrite Hw. simpl.
  destruct (Py.startswith Py.lparen w).
  - rewrite (not_endswith _ _ (lstrip_contains _ Py.lparen _ Hwr)). simpl.
    apply flatten_loop_open_group. now rewrite forallb_app, Hnr, Hrest.
  - now apply IH.
Qed.

Lemma flatten_plain_text (lines : list string) :
  forallb single_line lines = true ->
  forallb (fun l => negb (opens_group l)) lines = true ->
  flatten (text_of_lines lines)
  = text_of_lines (map (fun l => Py.join " " (line_words l))
                       (List.filter has_words lines)).
Proof.
  intros Hsl Hop. rewrite (flatten_text_of_lines _ Hsl).
  unfold flat_init. now rewrite (flatten_loop_plain_lines _ Hop).
Qed.

End Flatten.

(** X9. On a text of physical lines none of whose words starts with an
    opening parenthesis, [flatten] only normalises the blanks: each line
    that has words becomes its words joined by single spaces, and the lines
    without words are dropped. *)
Theorem flatten_without_groups (lines : list string) :
  forallb single_line lines = true ->
  forallb (fun l => negb (opens_group l)) lines = true ->
  flatten (text_of_lines lines)
  = text_of_lines (map (fun l => Py.join " " (line_words l))
                       (List.filter has_words lines)).
Proof. apply flatten_plain_text. Qed.

Lemma flatten_without_groups_witness :
  flatten (text_of_lines [("www   A" ++ Py.chr Py.tab ++ "1.2.3.4")%string; "";
                          "   "; " mail A 5.6.7.8 "])
  = text_of_lines ["www A 1.2.3.4"; "mail A 5.6.7.8"].
Proof.
  exact (flatten_without_groups
           [("www   A" ++ Py.chr Py.tab ++ "1.2.3.4")%string; ""; "   ";
            " mail A 5.6.7.8 "] eq_refl eq_refl).
Defined.

(** X10. A group that is opened and never closed is lost without an error:
    when a line has a word that starts with an opening parenthesis and no
    closing parenthesis follows in that line or after, [flatten] returns
    what it returns for the lines before, and that line and all the lines
    after it are dropped. *)
Theorem flatten_drops_unclosed_group (pre : list string) (opener : string)
    (post : list string) :
  forallb single_line (pre ++ opener :: post) = true ->
  forallb (fun l => negb (opens_group l)) pre = true ->
  opens_group opener = true ->
  forallb (fun l => negb (Py.contains Py.rparen l)) (opener :: post) = true ->
  flatten (text_of_lines (pre ++ opener :: post)) = flatten (text_of_lines pre).
Proof.
  intros Hsl Hpre Hop Hnr.
  pose proof Hsl as Hsl'. rewrite forallb_app in Hsl'.
  apply andb_true_iff in Hsl' as [Hslpre _].
  rewrite (flatten_text_of_lines _ Hsl), (flatten_text_of_lines _ Hslpre).
  f_equal. rewrite flatten_tokens_app, flatten_loop_app.
  unfold flat_init. rewrite (flatten_loop_plain_lines _ Hpre).
  rewrite flatten_tokens_cons.
  assert (Hne : Py.nonempty opener = true).
  { destruct opener; [discriminate Hop | reflexivity]. }
  rewrite Hne, <- List.app_assoc.
  pose proof (flatten_tokens_no_rparen _ Hnr) as Htoks.
  rewrite flatten_tokens_cons, Hne, <- List.app_assoc, forallb_app in Htoks.
  apply andb_true_iff in Htoks as [Hws Hrest].
  apply flatten_loop_opening; auto using line_words_nonempty.
Qed.

Lemma flatten_drops_unclosed_group_witness :
  flatten (text_of_lines ["www A 1.2.3.4";
                          "example.com. IN SOA ns1 admin ( 2024";
                          "3600 600 86400 300";
                          "mail A 5.6.7.8"])
  = flatten (text_of_lines ["www A 1.2.3.4"]).
Proof.
  exact (flatten_drops_unclosed_group
           ["www A 1.2.3.4"] "example.com. IN SOA ns1 admin ( 2024"
           ["3600 600 86400 300"; "mail A 5.6.7.8"]
           eq_refl eq_refl eq_refl eq_refl).
Defined.

(** ** Texts without records, and trailing comments *)

Section Comments.

Lemma lstrip_by_prefix (p : ascii -> bool) (l : string) :
  exists ws, all_chars p ws = true /\ l = (ws ++ Py.lstrip_by p l)%string.
Proof.
  induction l as [|c l IH]; simpl.
  - now exists "".
  - destruct (p c) eqn:Hc.
    + destruct IH as (ws & Hws & Hl). exists (String c ws). simpl.
      rewrite Hc, Hws. split; [reflexivity | now rewrite <- Hl].
    + now exists "".
Qed.

(** A blank line and a comment line are rewritten to the empty line. *)
Lemma blank_or_comment_serialized (l : string) :
  blank_or_comment l = true -> serialize (tokenize_line l) = "".
Proof.
  unfold blank_or_comment. intros H.
  destruct (lstrip_by_prefix Py.isspace l) as (ws & Hws & Hl).
  rewrite Hl. unfold tokenize_line. rewrite tokenize_loop_leading_blanks by assumption.
  destruct (Py.lstrip_by Py.isspace l) as [|c r]; [reflexivity|].
  apply Ascii.eqb_eq in H. subst c. reflexivity.
Qed.

Lemma remove_comments_blank (lines : list string) :
  forallb blank_or_comment lines = true ->
  forallb (fun l => negb (Py.nonempty l))
    (omap (fun line =>
             if Py.nonempty line then Some (serialize (tokenize_line line))
             else None) lines) = true.
Proof.
  induction lines as [|l lines IH]; simpl; [reflexivity|].
  intros [Hl Hall]%andb_true_iff.
  destruct (Py.nonempty l); simpl; [|now apply IH].
  rewrite (blank_or_comment_serialized _ Hl). simpl. now apply IH.
Qed.

Lemma flatten_tokens_empty_lines (lines : list string) :
  forallb (fun l => negb (Py.nonempty l)) lines = true ->
  flatten_tokens lines = [].
Proof.
  induction lines as [|l lines IH]; simpl; [reflexivity|].
  intros [Hl%negb_true_iff Hall]%andb_true_iff.
  fold (flatten_tokens lines). now rewrite Hl, (IH Hall).
Qed.

Lemma empty_lines_single (lines : list string) :
  forallb (fun l => negb (Py.nonempty l)) lines = true ->
  forallb single_line lines = true.
Proof.
  induction lines as [|l lines IH]; simpl; [reflexivity|].
  intros [Hl%negb_true_iff Hall]%andb_true_iff.
  destruct l; [|discriminate]. now rewrite (IH Hall).
Qed.

Lemma flatten_empty_lines (lines : list string) :
  forallb (fun l => negb (Py.nonempty l)) lines = true ->
  flatten (text_of_lines lines) = "".
Proof.
  intros H. rewrite (flatten_text_of_lines _ (empty_lines_single _ H)).
  now rewrite (flatten_tokens_empty_lines _ H).
Qed.

(** The text that reaches [parse_lines] is empty. *)
Lemma normalized_blank_text (text : string) :
  forallb blank_or_comment (Py.split Py.newline text) = true ->
  add_default_name (flatten (remove_comments text)) = "".
Proof.
  intros H. unfold remove_comments.
  change (Py.join (Py.chr Py.newline) ?l) with (text_of_lines l).
  now rewrite (flatten_empty_lines _ (remove_comments_blank _ H)).
Qed.

(** *** A line of bare words *)

Lemma bare_word_stable (w : string) : bare_word w = true -> stable_token w = true.
Proof.
  unfold bare_word, stable_token.
  intros [[-> ->]%andb_true_iff ->]%andb_true_iff. simpl. apply orb_true_r.
Qed.

Lemma bare_words_stable (ws : list string) :
  forallb bare_word ws = true -> forallb stable_token ws = true.
Proof.
  induction ws as [|w ws IH]; simpl; [reflexivity|].
  intros [Hw Hws]%andb_true_iff. now rewrite (bare_word_stable _ Hw), IH.
Qed.

Lemma unspaced_no_char (c : ascii) (w : string) :
  Py.isspace c = true -> unspaced w = true -> Py.contains c w = false.
Proof.
  intros Hc Hw. apply (all_chars_contains _ _ _ Hw). now rewrite Hc.
Qed.

Lemma bare_word_parts (w : string) :
  bare_word w = true ->
  Py.nonempty w = true /\ unspecial w = true /\ unspaced w = true.
Proof.
  unfold bare_word. now intros [[? ?]%andb_true_iff ?]%andb_true_iff.
Qed.

Lemma serialize_tok_bare (w : string) : bare_word w = true -> serialize_tok w = w.
Proof.
  intros (_ & Hu & Hs)%bare_word_parts.
  rewrite (serialize_tok_stable _ Hu).
  now rewrite (unspaced_no_char Py.space w eq_refl Hs).
Qed.

Lemma serialize_bare (ws : list string) :
  forallb bare_word ws = true -> serialize ws = Py.join " " ws.
Proof.
  intros H. unfold serialize. f_equal.
  induction ws as [|w ws IH]; simpl; [reflexivity|].
  simpl in H. apply andb_true_iff in H as [Hw Hws].
  now rewrite (serialize_tok_bare _ Hw), IH.
Qed.

(** The state of the scanner after serialized tokens and a space. *)
Lemma tokenize_loop_tokens_sep (ws : list string) :
  forallb stable_token ws = true ->
  forall r rest,
    tokenize_loop (serialize ws ++ " " ++ rest) (TokState r false false "")
    = tokenize_loop rest (TokState (r ++ ws) false false "").
Proof.
  induction ws as [|w ws IH]; intros Hall r rest.
  - simpl. now rewrite List.app_nil_r.
  - simpl in Hall. apply andb_true_iff in Hall as [Hw Hws].
    destruct ws as [|w' ws].
    + unfold serialize. simpl (Py.join _ _).
      now rewrite tokenize_loop_token_sep.
    + change (serialize (w :: w' :: ws))
        with (serialize_tok w ++ " " ++ serialize (w' :: ws))%string.
      rewrite !append_assoc.
      rewrite tokenize_loop_token_sep by assumption.
      rewrite (IH Hws). now rewrite <- List.app_assoc.
Qed.

Lemma join_contains (c : ascii) (ws : list string) :
  forallb (fun w => negb (Py.contains c w)) ws = true ->
  Py.contains c " " = false ->
  Py.contains c (Py.join " " ws) = false.
Proof.
  intros Hall Hc. induction ws as [|w ws IH]; [reflexivity|].
  simpl in Hall. apply andb_true_iff in Hall as [Hw%negb_true_iff Hws].
  destruct ws as [|w' ws]; [exact Hw|].
  change (Py.join " " (w :: w' :: ws))
    with (w ++ " " ++ Py.join " " (w' :: ws))%string.
  now rewrite !contains_append, Hw, Hc, (IH Hws).
Qed.

Lemma bare_words_without (c : ascii) (ws : list string) :
  Py.isspace c = true ->
  forallb bare_word ws = true ->
  forallb (fun w => negb (Py.contains c w)) ws = true.
Proof.
  intros Hc. induction ws as [|w ws IH]; simpl; [reflexivity|].
  intros [(_ & _ & Hs)%bare_word_parts Hws]%andb_true_iff.
  now rewrite (unspaced_no_char c w Hc Hs), IH.
Qed.

(** Cutting a line of words at the spaces gives the words back. *)
Lemma split_join_space (w : string) (ws : list string) :
  forallb (fun w => negb (Py.contains Py.space w)) (w :: ws) = true ->
  forall tail,
    Py.split Py.space (Py.join " " (w :: ws) ++ String Py.space tail)
    = (w :: ws) ++ Py.split Py.space tail.
Proof.
  revert w. induction ws as [|w' ws IH]; intros w Hall tail;
    simpl in Hall; apply andb_true_iff in Hall as [Hw%negb_true_iff Hall].
  - simpl (Py.join _ _). now rewrite split_app_sep.
  - change (Py.join " " (w :: w' :: ws))
      with (w ++ String Py.space (Py.join " " (w' :: ws)))%string.
    rewrite append_assoc. cbn [String.append].
    rewrite (split_app_sep _ _ _ Hw).
    change ((w :: w' :: ws) ++ Py.split Py.space tail)
      with (w :: ((w' :: ws) ++ Py.split Py.space tail)).
    f_equal. now apply IH.
Qed.

Lemma filter_nonempty_bare (ws : list string) :
  forallb bare_word ws = true -> List.filter Py.nonempty ws = ws.
Proof.
  induction ws as [|w ws IH]; simpl; [reflexivity|].
  intros [(-> & _)%bare_word_parts Hws]%andb_true_iff. now rewrite IH.
Qed.

(** The words of a line of bare words, with or without a space behind. *)
Lemma line_words_join (ws : list string) :
  forallb bare_word ws = true ->
  line_words (Py.join " " ws) = ws
  /\ line_words (Py.join " " ws ++ " ") = ws.
Proof.
  intros Hb.
  pose proof (bare_words_without Py.space ws eq_refl Hb) as Hsp.
  pose proof (bare_words_without Py.tab ws eq_refl Hb) as Htab.
  pose proof (join_contains Py.tab ws Htab eq_refl) as Hjt.
  unfold line_words.
  rewrite !replace_absent
    by (try rewrite contains_append; rewrite ?Hjt; reflexivity).
  destruct ws as [|w ws]; [split; reflexivity|].
  split.
  - assert (Hs : Py.split Py.space (Py.join " " (w :: ws)) = w :: ws).
    { clear Hb Htab Hjt. revert w Hsp.
      induction ws as [|w' ws IH]; intros w Hall;
        simpl in Hall; apply andb_true_iff in Hall as [Hw%negb_true_iff Hall].
      - now apply split_no_sep.
      - change (Py.join " " (w :: w' :: ws))
          with (w ++ String Py.space (Py.join " " (w' :: ws)))%string.
        rewrite (split_app_sep _ _ _ Hw). f_equal. now apply IH. }
    rewrite Hs. now apply filter_nonempty_bare.
  - change (Py.join " " (w :: ws) ++ " ")%string
      with (Py.join " " (w :: ws) ++ String Py.space "")%string.
    rewrite (split_join_space _ _ Hsp). simpl (Py.split _ "").
    rewrite List.filter_app, (filter_nonempty_bare _ Hb).
    simpl. now rewrite List.app_nil_r.
Qed.

End Comments.

Section TrailingComment.

Lemma remove_comments_single_line (t : string) :
  single_line t = true ->
  remove_comments t
  = if Py.nonempty t then serialize (tokenize_line t) else "".
Proof.
  intros Ht%negb_true_iff. unfold remove_comments.
  rewrite (split_no_sep _ _ Ht). simpl. now destruct (Py.nonempty t).
Qed.

Lemma flatten_single_line (x : string) :
  single_line x = true ->
  opens_group x = false ->
  flatten x = if has_words x then Py.join " " (line_words x) else "".
Proof.
  intros Hs Ho.
  change x with (text_of_lines [x]) at 1.
  rewrite flatten_plain_text; simpl; rewrite ?Hs, ?Ho; try reflexivity.
  now destruct (has_words x).
Qed.

Lemma join_nonempty (w : string) (ws : list string) :
  Py.nonempty w = true -> Py.nonempty (Py.join " " (w :: ws)) = true.
Proof.
  intros Hw. destruct w; [discriminate|]. now destruct ws.
Qed.

Lemma bare_line_single (ws : list string) (tail : string) :
  forallb bare_word ws = true ->
  single_line tail = true ->
  single_line (Py.join " " ws ++ tail) = true.
Proof.
  intros Hb Ht%negb_true_iff. unfold single_line.
  rewrite contains_append, Ht, orb_false_r.
  rewrite join_contains; auto. now apply bare_words_without.
Qed.

(** The line of bare words, through the first two passes, with and without
    a comment behind it. *)
Lemma flatten_remove_comments_bare (ws : list string) (c : string) :
  forallb bare_word ws = true ->
  existsb (Py.startswith Py.lparen) ws = false ->
  single_line c = true ->
  flatten (remove_comments (Py.join " " ws ++ " ;" ++ c))
  = flatten (remove_comments (Py.join " " ws)).
Proof.
  intros Hb Hop Hc.
  destruct ws as [|w ws].
  { rewrite !remove_comments_single_line; [reflexivity|reflexivity|].
    simpl. unfold single_line in *. simpl. exact Hc. }
  pose proof (bare_words_stable _ Hb) as Hst.
  pose proof (line_words_join _ Hb) as [Hw1 Hw2].
  assert (Hne : Py.nonempty (Py.join " " (w :: ws)) = true).
  { apply join_nonempty. simpl in Hb.
    now apply andb_true_iff in Hb as [(? & _)%bare_word_parts _]. }
  assert (Hne2 : Py.nonempty (Py.join " " (w :: ws) ++ " ;" ++ c) = true).
  { destruct (Py.join " " (w :: ws)); [discriminate | reflexivity]. }
  rewrite !remove_comments_single_line.
  2:{ rewrite <- (append_nil_r (Py.join " " (w :: ws))).
      now apply bare_line_single. }
  2:{ apply (bare_line_single _ _ Hb). unfold single_line in *. exact Hc. }
  rewrite Hne, Hne2.
  (* the tokens *)
  assert (Ht1 : tokenize_line (Py.join " " (w :: ws)) = w :: ws).
  { rewrite <- (serialize_bare _ Hb).
    apply (tokenize_serialize_from (w :: ws) [] Hst). }
  assert (Ht2 : tokenize_line (Py.join " " (w :: ws) ++ " ;" ++ c)
                = (w :: ws) ++ [""]).
  { rewrite <- (serialize_bare _ Hb). unfold tokenize_line, tok_init.
    change (" ;" ++ c)%string with (" " ++ String Py.semicolon c)%string.
    rewrite (tokenize_loop_tokens_sep _ Hst). reflexivity. }
  rewrite Ht1, Ht2.
  (* what is written back *)
  assert (Hs2 : serialize ((w :: ws) ++ [""])
                = (Py.join " " (w :: ws) ++ " ")%string).
  { rewrite <- (serialize_bare _ Hb). unfold serialize. rewrite map_app.
    simpl (map serialize_tok [""]). change (serialize_tok "") with "".
    change (map serialize_tok (w :: ws))
      with (serialize_tok w :: map serialize_tok ws).
    generalize (serialize_tok w) (map serialize_tok ws). intros x l.
    revert x. induction l as [|y l IH]; intros x; [reflexivity|].
    change (Py.join " " ((x :: y :: l) ++ [""]))
      with (x ++ " " ++ Py.join " " ((y :: l) ++ [""]))%string.
    rewrite IH.
    change (Py.join " " (x :: y :: l))
      with (x ++ " " ++ Py.join " " (y :: l))%string.
    now rewrite !append_assoc. }
  rewrite Hs2, (serialize_bare _ Hb).
  (* flattening *)
  assert (Ho1 : opens_group (Py.join " " (w :: ws)) = false)
    by (unfold opens_group; now rewrite Hw1).
  assert (Ho2 : opens_group (Py.join " " (w :: ws) ++ " ") = false)
    by (unfold opens_group; now rewrite Hw2).
  rewrite !flatten_single_line; auto.
  - unfold has_words. now rewrite Hw1, Hw2.
  - rewrite <- (append_nil_r (Py.join " " (w :: ws))).
    now apply bare_line_single.
  - now apply bare_line_single.
Qed.

End TrailingComment.

(** X11. A text whose lines are all blank or comments has no line for the
    parser but the empty one: the strict parse raises
    [InvalidLineException] with the empty message, and the lenient parse
    returns the empty zone file.  The empty text is such a text. *)
Theorem text_without_records (text : string) :
  forallb blank_or_comment (Py.split Py.newline text) = true ->
  parse_zone_file text false = Raise (InvalidLineException "")
  /\ parse_zone_file text true = Ok ∅.
Proof.
  intros H. unfold parse_zone_file. rewrite (normalized_blank_text _ H).
  split; reflexivity.
Qed.

Lemma text_without_records_witness :
  parse_zone_file "" false = Raise (InvalidLineException "")
  /\ parse_zone_file
       (text_of_lines ["; zone of example.com"; ""; "   ; nothing yet"]) true
     = Ok ∅.
Proof.
  split.
  - apply (text_without_records ""). reflexivity.
  - apply (text_without_records
             (text_of_lines ["; zone of example.com"; ""; "   ; nothing yet"])).
    reflexivity.
Defined.

(** X12. A comment behind a line of bare words, none of which starts with
    an opening parenthesis, does not change what [parse_zone_file] returns
    or raises for the line. *)
Theorem trailing_comment_ignored (ws : list string) (c : string) (b : bool) :
  forallb bare_word ws = true ->
  existsb (Py.startswith Py.lparen) ws = false ->
  single_line c = true ->
  parse_zone_file (Py.join " " ws ++ " ;" ++ c) b
  = parse_zone_file (Py.join " " ws) b.
Proof.
  intros Hb Hop Hc. unfold parse_zone_file.
  now rewrite (flatten_remove_comments_bare _ _ Hb Hop Hc).
Qed.

Lemma trailing_comment_ignored_witness :
  parse_zone_file "www 300 IN A 1.2.3.4 ; the web server" false
  = parse_zone_file "www 300 IN A 1.2.3.4" false.
Proof.
  exact (trailing_comment_ignored ["www"; "300"; "IN"; "A"; "1.2.3.4"]
           " the web server" false eq_refl eq_refl eq_refl).
Defined.


(** X13. The [$ORIGIN] directive takes any token that is not the name of a
    supported record and is not taken for an option: it is stored as it
    stands, a scalar string under [$origin]; otherwise the line is refused
    with [InvalidLineException] and the accumulator is unchanged. *)
Theorem origin_directive_takes_any_name (s : string) (pr : gmap string entry) :
  parse_line ["$ORIGIN"; s] pr
  = if Py.mem s SUPPORTED_RECORDS || Argparse.option_like s
    then (pr, Some (InvalidLineException ("$ORIGIN " ++ s)))
    else (<["$origin" := Scalar (VStr s)]> pr, None).
Proof. apply parse_line_origin_line. Qed.

(** ** The shape of the zone file *)

Section ZoneShape.

#[local] Arguments Py.mem : simpl never.

(** No field of the record of an accepted line holds [None]. *)
Lemma parse_record_no_none (toks : list string) (pr : gmap string entry)
    (ty : string) (rd : gmap string value) :
  parse_record toks pr = Ok (ty, rd) ->
  forall k, rd !! k <> Some VNone.
Proof.
  unfold parse_record.
  destruct (dispatch toks) as [[argv ci]|e]; simpl; [|discriminate].
  destruct (Argparse.parse_known_args make_parser argv) as [[rd0 [|u us]]|];
    try discriminate.
  destruct (find_record_type rd0) as [[ty' rd1]|]; [|discriminate].
  assert (Hclean : forall k, clean_fields rd1 !! k <> Some VNone).
  { intros k Hk. unfold clean_fields in Hk.
    apply map_lookup_filter_Some in Hk as [_ Hk]. now apply Hk. }
  assert (Hins : forall (m : gmap string value) key v,
             v <> VNone -> (forall k, m !! k <> Some VNone) ->
             forall k, <[key := v]> m !! k <> Some VNone).
  { intros m key v Hv Hm k. destruct (decide (key = k)) as [->|Hne].
    - rewrite lookup_insert_eq. congruence.
    - rewrite lookup_insert_ne by assumption. apply Hm. }
  intros H.
  assert (Hgoal : forall m : gmap string value,
             (forall k, m !! k <> Some VNone) ->
             Ok (ty', if ci then <["_missing_class" := VTrue]> m else m)
             = Ok (ty, rd) ->
             forall k, rd !! k <> Some VNone).
  { intros m Hm [= _ <-]. destruct ci; [apply Hins; [discriminate|]|]; apply Hm. }
  destruct (String.eqb ty' "PTR").
  - destruct (ptr_fullname _ _) as [fn|e]; simpl in H; [|discriminate].
    eapply Hgoal; [|exact H]. apply Hins; [discriminate | exact Hclean].
  - simpl in H. eapply Hgoal; [exact Hclean | exact H].
Qed.

Lemma record_ok_of_line (toks : list string) (pr : gmap string entry)
    (ty : string) (rd : gmap string value) :
  parse_record toks pr = Ok (ty, rd) ->
  Py.startswith Py.dollar ty = false ->
  record_ok rd.
Proof.
  intros H Hty. split.
  - eapply rr_record_has_name; eassumption.
  - eapply parse_record_no_none, H.
Qed.

(** An accepted directive line stores a string under [$origin] or an
    integer under [$ttl]. *)
Lemma directive_accepted (toks : list string) (pr pr' : gmap string entry)
    (ty : string) (rd : gmap string value) :
  origin_free pr ->
  parse_record toks ∅ = Ok (ty, rd) ->
  Py.startswith Py.dollar ty = true ->
  parse_line toks pr = (pr', None) ->
  (exists s, pr' = <["$origin" := Scalar (VStr s)]> pr)
  \/ (exists n, pr' = <["$ttl" := Scalar (VInt n)]> pr).
Proof.
  intros Hof Hr Hty Hl.
  rewrite <- (parse_record_origin_free _ _ Hof) in Hr.
  destruct (directive_stored _ _ _ _ Hr Hty) as (v & _ & Hst & Hk).
  rewrite Hst in Hl. injection Hl as <-.
  destruct Hk as [[-> [s ->]]|[-> [n ->]]]; eauto.
Qed.

Lemma zone_ok_insert (pr : gmap string entry) (key : string) (e : entry) :
  zone_ok pr -> entry_ok key e -> zone_ok (<[key := e]> pr).
Proof.
  intros Hz He k e' Hk. destruct (decide (key = k)) as [->|Hne].
  - rewrite lookup_insert_eq in Hk. now injection Hk as <-.
  - rewrite lookup_insert_ne in Hk by assumption. eapply Hz, Hk.
Qed.

(** One line keeps the shape of the zone file. *)
Lemma parse_line_zone_ok (toks : list string) (pr pr' : gmap string entry)
    (o : option exn) :
  origin_free pr -> zone_ok pr ->
  parse_line toks pr = (pr', o) -> zone_ok pr'.
Proof.
  intros Hof Hz H. destruct o as [e|].
  { now rewrite (parse_line_raise_state _ _ _ _ H). }
  destruct (parse_line_accepted _ _ _ Hof H) as (ty & rd & Hr & Hmem & Hc).
  destruct (Py.startswith Py.dollar ty) eqn:Hty.
  - destruct (directive_accepted _ _ _ _ _ Hof Hr Hty H) as [[s ->]|[n ->]];
      apply zone_ok_insert; simpl; eauto.
  - destruct Hc as [Hk ->]. apply zone_ok_insert; [assumption|].
    simpl. split; [now destruct (records_under _ _)|]. split.
    + apply Forall_app. split.
      * unfold records_under.
        destruct Hk as [->|[l Hk]]; [constructor|]. rewrite Hk.
        now destruct (Hz _ _ Hk) as (_ & Hl & _).
      * constructor; [|constructor]. eapply record_ok_of_line; eassumption.
    + exists ty. split; [|reflexivity].
      unfold names_rr_type. now rewrite Hmem, Hty.
Qed.

Lemma parse_lines_loop_zone_ok (b : bool) (lines : list string) :
  forall pr zf,
    origin_free pr -> zone_ok pr ->
    parse_lines_loop b lines pr = Ok zf -> zone_ok zf.
Proof.
  induction lines as [|line lines IH]; intros pr zf Hof Hz H; simpl in H.
  { now injection H as <-. }
  destruct (parse_line (tokenize_line line) pr) as [pr' o] eqn:Hl.
  pose proof (parse_line_origin_free _ _ _ _ Hof Hl) as Hof'.
  pose proof (parse_line_zone_ok _ _ _ _ Hof Hz Hl) as Hz'.
  destruct o as [e|]; [|eapply IH; eassumption].
  destruct e; try discriminate. destruct b; [|discriminate].
  eapply IH; eassumption.
Qed.

Lemma zone_ok_empty : zone_ok ∅.
Proof. intros key e H. now rewrite lookup_empty in H. Qed.

End ZoneShape.

(** X14. Every zone file that [parse_zone_file] returns has the same shape:
    an entry is the origin, a string under [$origin], or the TTL, an
    integer under [$ttl], or a list under the lower-cased name of a
    supported resource record; such a list is never empty, and each of its
    records holds its name, a string, and no field that is [None]. *)
Theorem zone_file_shape (text : string) (b : bool) (zf : gmap string entry) :
  parse_zone_file text b = Ok zf -> zone_ok zf.
Proof.
  apply parse_lines_loop_zone_ok; [apply origin_free_empty | apply zone_ok_empty].
Qed.

Lemma zone_file_shape_witness :
  zone_ok (zone_of (parse_zone_file
                      (text_of_lines ["$TTL 3600"; "www A 1.2.3.4"; "bogus";
                                      "@ MX 10 mail.example.com"]) true)).
Proof.
  apply (zone_file_shape
           (text_of_lines ["$TTL 3600"; "www A 1.2.3.4"; "bogus";
                           "@ MX 10 mail.example.com"]) true).
  vm_compute. reflexivity.
Defined.

(** ** The lookups that cannot fail *)

Section Lookups.

#[local] Arguments Py.mem : simpl never.

(** The namespace of a resource record holds the name, a string, and the
    record type leaves it there. *)
Lemma namespace_has_name (cmd : string) (args u : list string)
    (rd0 rd1 : gmap string value) (ty : string) :
  Argparse.parse_known_args make_parser (cmd :: args) = Some (rd0, u) ->
  find_record_type rd0 = Some (ty, rd1) ->
  Py.startswith Py.dollar ty = false ->
  exists a, clean_fields rd1 !! "name" = Some (VStr a).
Proof.
  intros Hp Hf Hty.
  pose proof (record_type_is_command _ _ _ _ _ _ Hp Hf) as ->.
  destruct (namespace_name _ _ _ _ Hp Hty) as [a H0].
  apply find_record_type_some in Hf as (Hmem & v & Hv & Hrd1).
  exists a. unfold clean_fields. apply map_lookup_filter_Some.
  split; [|discriminate].
  subst rd1. destruct (value_is v cmd); [|assumption].
  rewrite lookup_delete_ne; [assumption|].
  intros ->. discriminate Hmem.
Qed.

(** What the part of [parse_line] before the accumulator can raise. *)
Lemma parse_record_raises (toks : list string) (pr : gmap string entry)
    (e : exn) :
  parse_record toks pr = Raise e ->
  e = InvalidLineException (Py.join " " toks)
  \/ e = IndexError \/ e = AssertionError \/ e = TypeError.
Proof.
  unfold parse_record.
  destruct (dispatch toks) as [[argv ci]|e'] eqn:Hd; simpl.
  2:{ intros [= <-]. apply dispatch_raise in Hd. auto. }
  destruct argv as [|cmd args]; [intros [= <-]; auto|].
  destruct (Argparse.parse_known_args make_parser (cmd :: args))
    as [[rd0 [|u us]]|] eqn:Hp; try (intros [= <-]; auto).
  destruct (find_record_type rd0) as [[ty rd1]|] eqn:Hf; [|intros [= <-]; auto].
  destruct (String.eqb_spec ty "PTR") as [->|_]; simpl; [|discriminate].
  destruct (namespace_has_name _ _ _ _ _ _ Hp Hf eq_refl) as [a Ha].
  unfold ptr_fullname. rewrite Ha.
  destruct (get_current_origin _ _) as [[]|]; simpl; try discriminate;
    intros [= <-]; auto.
Qed.

(** What one line can raise against a zone file of the right shape. *)
Lemma parse_line_raises (toks : list string) (pr pr' : gmap string entry)
    (e : exn) :
  zone_ok pr ->
  parse_line toks pr = (pr', Some e) ->
  e = InvalidLineException (Py.join " " toks)
  \/ e = IndexError \/ e = AssertionError \/ e = TypeError.
Proof.
  intros Hz H.
  destruct (parse_record toks pr) as [[ty rd]|e'] eqn:Hr.
  2:{ unfold parse_line in H. rewrite Hr in H. injection H as _ <-.
      eapply parse_record_raises, Hr. }
  destruct (Py.startswith Py.dollar ty) eqn:Hty.
  - destruct (directive_stored _ _ _ _ Hr Hty) as (v & _ & Hst & _).
    rewrite Hst in H. discriminate.
  - unfold parse_line in H. rewrite Hr in H. unfold accumulate in H.
    rewrite Hty in H. destruct (negb _); [|discriminate].
    destruct (pr !! Py.lower ty) as [[v|l]|] eqn:Hk; try discriminate.
    apply Hz in Hk. simpl in Hk.
    assert (Hlow : Py.startswith Py.dollar (Py.lower ty) = true).
    { destruct Hk as [[-> _]|[-> _]]; reflexivity. }
    rewrite lower_startswith_dollar in Hlow. congruence.
Qed.

Lemma parse_lines_loop_raises (b : bool) (lines : list string) :
  forall pr e,
    origin_free pr -> zone_ok pr ->
    parse_lines_loop b lines pr = Raise e ->
    (exists m, e = InvalidLineException m)
    \/ e = IndexError \/ e = AssertionError \/ e = TypeError.
Proof.
  induction lines as [|line lines IH]; intros pr e Hof Hz H; simpl in H.
  { discriminate. }
  destruct (parse_line (tokenize_line line) pr) as [pr' o] eqn:Hl.
  pose proof (parse_line_origin_free _ _ _ _ Hof Hl) as Hof'.
  pose proof (parse_line_zone_ok _ _ _ _ Hof Hz Hl) as Hz'.
  destruct o as [e'|]; [|eapply IH; eassumption].
  pose proof (parse_line_raises _ _ _ _ Hz Hl) as He.
  destruct e' as [m| | | | |].
  - destruct b; [eapply IH; eassumption|]. injection H as <-. eauto.
  - injection H as <-. auto.
  - injection H as <-. auto.
  - injection H as <-. auto.
  - destruct He as [|[|[|]]]; discriminate.
  - destruct He as [|[|[|]]]; discriminate.
Qed.

End Lookups.

(** X15. The dictionary lookups of [parse_line] cannot fail: whatever the
    text and the mode, [parse_zone_file] raises neither [KeyError] (the
    record of a PTR line has its name, line 322, and the record of a
    directive has its value, line 332) nor [AttributeError] (the entry that
    line 335 appends to is a list, never the scalar of a directive). *)
Theorem lookups_never_fail (text : string) (b : bool) :
  parse_zone_file text b <> Raise KeyError
  /\ parse_zone_file text b <> Raise AttributeError.
Proof.
  assert (H : forall e, parse_zone_file text b = Raise e ->
                        (exists m, e = InvalidLineException m)
                        \/ e = IndexError \/ e = AssertionError \/ e = TypeError).
  { intros e. apply parse_lines_loop_raises;
      [apply origin_free_empty | apply zone_ok_empty]. }
  split; intros He; apply H in He as [[m Hm]|[|[|]]]; discriminate.
Qed.

(** ** The slots of a resource record line *)

Section Slots.

#[local] Arguments Py.mem : simpl never.

Lemma string_field_cases (P : string -> string -> Prop) :
  P "NS" "host" -> P "A" "ip" -> P "AAAA" "ip" -> P "CNAME" "alias" ->
  P "TXT" "txt" -> P "SPF" "data" ->
  forall ty f, string_field ty = Some f -> P ty f.
Proof.
  intros H1 H2 H3 H4 H5 H6 ty f.
  unfold string_field, make_parser, make_rr_subparser.
  cbn -[String.eqb].
  repeat (match goal with
          | |- context [String.eqb ?a ty] =>
              destruct (String.eqb_spec a ty) as [<-|?];
              [cbn; try discriminate; intros [= <-]; assumption|]
          end).
  discriminate.
Qed.

(** A token that starts with a digit is no record name and no option. *)
Lemma digit_not_supported (s : string) :
  first_isdigit s = Ok true -> Py.mem s SUPPORTED_RECORDS = false.
Proof.
  intros H. destruct (Py.mem s SUPPORTED_RECORDS) eqn:Hm; [|reflexivity].
  revert s Hm H.
  apply (supported_cases (fun s => first_isdigit s = Ok true -> _));
    discriminate.
Qed.

Lemma digit_not_option (s : string) :
  first_isdigit s = Ok true -> Argparse.option_like s = false.
Proof.
  destruct s as [|c s]; [discriminate|]. simpl. intros [= H].
  destruct (Ascii.eqb_spec c "-") as [->|Hne]; [discriminate|].
  unfold Argparse.option_like.
  destruct c as [[] [] [] [] [] [] [] []]; try reflexivity.
  now contradiction Hne.
Qed.

(** Lines 269-273, 275-282: the slots after the dispatch. *)
Lemma dispatch_plain (name ty : string) (rest : list string) :
  Py.mem ty SUPPORTED_RECORDS = true ->
  dispatch (name :: ty :: rest) = Ok (ty :: name :: "IN" :: ty :: rest, true).
Proof.
  intros H. unfold dispatch, supported_at.
  cbn [lookup list_lookup]. now rewrite H.
Qed.

Lemma dispatch_ttl (name ttl ty : string) (rest : list string) :
  first_isdigit ttl = Ok true ->
  Py.mem ty SUPPORTED_RECORDS = true ->
  dispatch (name :: ttl :: ty :: rest)
  = Ok (ty :: name :: ttl :: "IN" :: ty :: rest, true).
Proof.
  intros Hd H. unfold dispatch, supported_at.
  cbn [lookup list_lookup item nth].
  now rewrite (digit_not_supported _ Hd), H, Hd.
Qed.

Lemma dispatch_class (name cls ty : string) (rest : list string) :
  first_isdigit cls = Ok false ->
  Py.mem cls SUPPORTED_RECORDS = false ->
  Py.mem ty SUPPORTED_RECORDS = true ->
  dispatch (name :: cls :: ty :: rest)
  = Ok (ty :: name :: cls :: ty :: rest, false).
Proof.
  intros Hd Hc H. unfold dispatch, supported_at.
  cbn [lookup list_lookup item nth].
  now rewrite Hc, H, Hd.
Qed.

Ltac run_subparser :=
  match goal with
  | |- context [List.find ?p make_parser] =>
      let r := eval vm_compute in (List.find p make_parser) in
      change (List.find p make_parser) with r
  end;
  cbn [mbind option_bind consume_unmarked optional argty dest
       Argparse.get_value fmap option_fmap option_map length
       Argparse.required List.filter negb Nat.sub].

(** Lines 265-326 on a line of a name, a type and a value. *)
Lemma parse_record_plain (name ty f v : string) (pr : gmap string entry) :
  string_field ty = Some f ->
  Argparse.option_like name = false ->
  Argparse.option_like v = false ->
  parse_record [name; ty; v] pr
  = Ok (ty, {[ "name" := VStr name; "class" := VStr "IN"; f := VStr v;
               "_missing_class" := VTrue ]}).
Proof.
  intros Hf Hn Hv. revert ty f Hf.
  apply string_field_cases.
  all: unfold parse_record.
  all: rewrite dispatch_plain by reflexivity.
  all: cbn [mbind result_bind].
  all: rewrite parse_known_args_unmarked
         by (cbn [existsb]; rewrite Hn, Hv; reflexivity).
  all: vm_compute; reflexivity.
Qed.

(** Lines 265-326 on a line of a name, a TTL, a type and a value. *)
Lemma parse_record_ttl (name ttl ty f v : string) (pr : gmap string entry) :
  string_field ty = Some f ->
  Argparse.option_like name = false ->
  Argparse.option_like v = false ->
  first_isdigit ttl = Ok true ->
  parse_record [name; ttl; ty; v] pr
  = match Argparse.py_int ttl with
    | Some n =>
        Ok (ty, {[ "name" := VStr name; "ttl" := VInt n; "class" := VStr "IN";
                   f := VStr v; "_missing_class" := VTrue ]})
    | None => Raise (InvalidLineException (Py.join " " [name; ttl; ty; v]))
    end.
Proof.
  intros Hf Hn Hv Hd. pose proof (digit_not_option _ Hd) as Ho.
  revert ty f Hf.
  apply string_field_cases.
  all: unfold parse_record.
  all: rewrite dispatch_ttl by (assumption || reflexivity).
  all: cbn [mbind result_bind].
  all: rewrite parse_known_args_unmarked
         by (cbn [existsb]; rewrite Hn, Hv, Ho; reflexivity).
  all: run_subparser.
  all: destruct (Argparse.py_int ttl) as [n|]; vm_compute; reflexivity.
Qed.

(** Lines 265-326 on a line of a name, a class, a type and a value. *)
Lemma parse_record_class (name cls ty f v : string) (pr : gmap string entry) :
  string_field ty = Some f ->
  existsb Argparse.option_like [name; cls; v] = false ->
  first_isdigit cls = Ok false ->
  Py.mem cls SUPPORTED_RECORDS = false ->
  parse_record [name; cls; ty; v] pr
  = Ok (ty, {[ "name" := VStr name; "class" := VStr cls; f := VStr v ]}).
Proof.
  intros Hf Ho Hd Hc. simpl in Ho.
  apply orb_false_iff in Ho as [Hn [Ho [Hv _]%orb_false_iff]%orb_false_iff].
  revert ty f Hf.
  apply string_field_cases.
  all: unfold parse_record.
  all: rewrite dispatch_class by (assumption || reflexivity).
  all: cbn [mbind result_bind].
  all: rewrite parse_known_args_unmarked
         by (cbn [existsb]; rewrite Hn, Hv, Ho; reflexivity).
  all: vm_compute; reflexivity.
Qed.

(** Lines 328-335 on a record that holds its name. *)
Lemma accumulate_record (ty : string) (rd : gmap string value)
    (pr : gmap string entry) (a : value) :
  Py.startswith Py.dollar ty = false ->
  rd !! "name" = Some a ->
  list_slot ty pr ->
  accumulate ty rd pr = (with_record ty rd pr, None).
Proof.
  intros Hty Ha Hpr. unfold accumulate, with_record, records_under.
  destruct (Nat.eqb_spec (size rd) 0) as [Hz|_].
  { apply map_size_empty_iff in Hz. subst rd. now rewrite lookup_empty in Ha. }
  rewrite Hty. simpl.
  destruct (pr !! Py.lower ty) as [[x|l]|] eqn:Hk; try reflexivity.
  now destruct (Hpr x).
Qed.

Lemma list_slot_empty (ty : string) : list_slot ty ∅.
Proof. intros x. now rewrite lookup_empty. Qed.

End Slots.

(** X16. A line of a name, a record type and a value, with neither TTL nor
    class (the types with one string field: NS, A, AAAA, CNAME, TXT, SPF):
    the record gets the class [IN] and the mark [_missing_class], holds no
    TTL, and is appended to the records of its type.  The name may be any
    token that is not taken for an option, the name of a record type
    included. *)
Theorem class_defaults_to_in (name ty f v : string) (pr : gmap string entry) :
  string_field ty = Some f ->
  Argparse.option_like name = false ->
  Argparse.option_like v = false ->
  list_slot ty pr ->
  parse_line [name; ty; v] pr
  = (with_record ty {[ "name" := VStr name; "class" := VStr "IN";
                       f := VStr v; "_missing_class" := VTrue ]} pr,
     None).
Proof.
  intros Hf Hn Hv Hpr. unfold parse_line.
  rewrite (parse_record_plain _ _ _ _ _ Hf Hn Hv).
  revert ty f Hf Hpr.
  apply (string_field_cases (fun ty f => list_slot ty pr -> _));
    intros Hpr; now apply (accumulate_record _ _ _ (VStr name)).
Qed.

Lemma class_defaults_to_in_witness :
  parse_line ["www"; "A"; "1.2.3.4"] ∅
  = (with_record "A" {[ "name" := VStr "www"; "class" := VStr "IN";
                        "ip" := VStr "1.2.3.4"; "_missing_class" := VTrue ]} ∅,
     None).
Proof.
  apply (class_defaults_to_in "www" "A" "ip" "1.2.3.4" ∅);
    [reflexivity | reflexivity | reflexivity | apply list_slot_empty].
Defined.

(** X17. A line of a name, a token that starts with a digit, a record type
    and a value (the same types): the token is the TTL.  When [int] reads
    it, the record holds it as an integer, gets the class [IN] and the mark
    [_missing_class], and is appended to the records of its type; when
    [int] refuses it (as it does [1h]), the line is refused with
    [InvalidLineException] and the accumulator is unchanged. *)
Theorem digit_token_is_ttl (name ttl ty f v : string) (pr : gmap string entry) :
  string_field ty = Some f ->
  Argparse.option_like name = false ->
  Argparse.option_like v = false ->
  first_isdigit ttl = Ok true ->
  list_slot ty pr ->
  parse_line [name; ttl; ty; v] pr
  = match Argparse.py_int ttl with
    | Some n =>
        (with_record ty {[ "name" := VStr name; "ttl" := VInt n;
                           "class" := VStr "IN"; f := VStr v;
                           "_missing_class" := VTrue ]} pr,
         None)
    | None =>
        (pr, Some (InvalidLineException (Py.join " " [name; ttl; ty; v])))
    end.
Proof.
  intros Hf Hn Hv Hd Hpr. unfold parse_line.
  rewrite (parse_record_ttl _ _ _ _ _ _ Hf Hn Hv Hd).
  destruct (Argparse.py_int ttl) as [n|]; [|reflexivity].
  revert ty f Hf Hpr.
  apply (string_field_cases (fun ty f => list_slot ty pr -> _));
    intros Hpr; now apply (accumulate_record _ _ _ (VStr name)).
Qed.

Lemma digit_token_is_ttl_witness :
  parse_line ["www"; "300"; "A"; "1.2.3.4"] ∅
  = (with_record "A" {[ "name" := VStr "www"; "ttl" := VInt 300;
                        "class" := VStr "IN"; "ip" := VStr "1.2.3.4";
                        "_missing_class" := VTrue ]} ∅,
     None)
  /\ parse_line ["www"; "1h"; "A"; "1.2.3.4"] ∅
     = (∅, Some (InvalidLineException "www 1h A 1.2.3.4")).
Proof.
  split.
  - apply (digit_token_is_ttl "www" "300" "A" "ip" "1.2.3.4" ∅);
      [reflexivity | reflexivity | reflexivity | reflexivity
      | apply list_slot_empty].
  - apply (digit_token_is_ttl "www" "1h" "A" "ip" "1.2.3.4" ∅);
      [reflexivity | reflexivity | reflexivity | reflexivity
      | apply list_slot_empty].
Defined.

(** X18. A line of a name, a class, a record type and a value (the same
    types): the class is any token that is not empty, does not start with a
    digit, is not the name of a supported record and is not taken for an
    option.  It is stored as it stands, whether or not it is [IN]; the
    record holds no TTL and no mark [_missing_class]. *)
Theorem class_is_not_checked (name cls ty f v : string)
    (pr : gmap string entry) :
  string_field ty = Some f ->
  existsb Argparse.option_like [name; cls; v] = false ->
  first_isdigit cls = Ok false ->
  Py.mem cls SUPPORTED_RECORDS = false ->
  list_slot ty pr ->
  parse_line [name; cls; ty; v] pr
  = (with_record ty {[ "name" := VStr name; "class" := VStr cls;
                       f := VStr v ]} pr,
     None).
Proof.
  intros Hf Ho Hd Hc Hpr. unfold parse_line.
  rewrite (parse_record_class _ _ _ _ _ _ Hf Ho Hd Hc).
  revert ty f Hf Hpr.
  apply (string_field_cases (fun ty f => list_slot ty pr -> _));
    intros Hpr; now apply (accumulate_record _ _ _ (VStr name)).
Qed.

Lemma class_is_not_checked_witness :
  parse_line ["www"; "CH"; "TXT"; "hello"] ∅
  = (with_record "TXT" {[ "name" := VStr "www"; "class" := VStr "CH";
                          "txt" := VStr "hello" ]} ∅,
     None).
Proof.
  apply (class_is_not_checked "www" "CH" "TXT" "txt" "hello" ∅);
    [reflexivity | reflexivity | reflexivity | reflexivity
    | apply list_slot_empty].
Defined.

(** ** Groups *)

Section Groups.

Lemma startswith_contains (c : ascii) (s : string) :
  Py.contains c s = false -> Py.startswith c s = false.
Proof.
  destruct s as [|d s]; simpl; [reflexivity|]. now intros [H _]%orb_false_iff.
Qed.

Lemma paren_free_inv (t : string) :
  paren_free t = true ->
  Py.startswith Py.lparen t = false /\ Py.endswith Py.rparen t = false.
Proof.
  intros [Hl%negb_true_iff Hr%negb_true_iff]%andb_true_iff.
  split; [now apply startswith_contains | now apply not_endswith].
Qed.

(** Inside a group every token without parenthesis is gathered, the empty
    token of a line end included. *)
Lemma flatten_loop_inside (toks : list string) :
  forallb paren_free toks = true ->
  forall cap fl,
    flatten_loop toks (FlatState true cap fl) = FlatState true (cap ++ toks) fl.
Proof.
  induction toks as [|tok toks IH]; intros Hall cap fl; simpl.
  - now rewrite List.app_nil_r.
  - simpl in Hall. apply andb_true_iff in Hall as [Ht Hall].
    apply paren_free_inv in Ht as [Hs He]. rewrite Hs, He. simpl.
    rewrite (IH Hall). now rewrite <- List.app_assoc.
Qed.

Lemma forallb_paren_free (l : list string) :
  forallb (fun t => negb (Py.contains Py.lparen t)) l = true ->
  forallb (fun t => negb (Py.contains Py.rparen t)) l = true ->
  forallb paren_free l = true.
Proof.
  induction l as [|x l IH]; simpl; [reflexivity|].
  intros [Hx Hl]%andb_true_iff [Hy Hr]%andb_true_iff.
  unfold paren_free at 1. now rewrite Hx, Hy, IH.
Qed.

Lemma flatten_tokens_paren_free (lines : list string) :
  forallb paren_free lines = true ->
  forallb paren_free (flatten_tokens lines) = true.
Proof.
  induction lines as [|l lines IH]; simpl; [reflexivity|].
  intros [[Hl%negb_true_iff Hr%negb_true_iff]%andb_true_iff Hall]%andb_true_iff.
  fold (flatten_tokens lines). rewrite forallb_app, (IH Hall), andb_true_r.
  destruct (Py.nonempty l); [|reflexivity].
  rewrite forallb_app. simpl. rewrite andb_true_r.
  apply forallb_paren_free;
    apply forallb_filter, split_contains, contains_replace;
    assumption || reflexivity.
Qed.

(** A group from its opening word to the end of the line of its closing
    word: one flattened line. *)
Lemma flatten_loop_group (pre inner post : list string) (o c : string)
    (fl : list string) :
  Forall (fun w => Py.nonempty w = true) (pre ++ post) ->
  existsb (Py.startswith Py.lparen) (pre ++ post) = false ->
  group_opener o = true ->
  forallb paren_free inner = true ->
  group_closer c = true ->
  flatten_loop (pre ++ o :: inner ++ c :: post ++ [""]) (FlatState false [] fl)
  = FlatState false []
      (fl ++ [Py.join " " (pre ++ Py.lstrip Py.lparen o :: inner
                               ++ Py.rstrip Py.rparen c :: post)]).
Proof.
  intros [Hpre Hpost]%Forall_app Hop Ho Hin Hc.
  rewrite existsb_app in Hop. apply orb_false_iff in Hop as [Hop1 Hop2].
  apply andb_true_iff in Ho as [Ho1 Ho2%negb_true_iff].
  apply andb_true_iff in Hc as [Hc1%negb_true_iff Hc2].
  rewrite flatten_loop_app, (flatten_loop_plain_words _ Hpre Hop1).
  assert (Hne : Py.nonempty o = true) by (now destruct o).
  cbn [flatten_loop]. rewrite Hne, Ho1.
  rewrite (not_endswith _ _ (lstrip_contains _ Py.lparen _ Ho2)).
  cbn [negb andb].
  rewrite flatten_loop_app, (flatten_loop_inside _ Hin).
  cbn [flatten_loop]. rewrite Hc1, Hc2. cbn [negb andb].
  rewrite flatten_loop_app, (flatten_loop_plain_words _ Hpost Hop2).
  cbn [flatten_loop Py.nonempty negb andb].
  rewrite <- !List.app_assoc. simpl app.
  match goal with
  | |- context [Nat.eqb (length ?l) 0] =>
      assert (Hl : Nat.eqb (length l) 0 = false)
  end.
  { rewrite !length_app. simpl. rewrite !length_app. simpl.
    apply Nat.eqb_neq. lia. }
  rewrite Hl. reflexivity.
Qed.

End Groups.

(** X19. A group over several lines becomes one line.  The first line ends
    its words before the group with a word that opens it; the lines between
    hold no parenthesis; the last line has the word that closes the group.
    [flatten] returns one line: the words in their order, joined by single
    spaces, the opening parentheses stripped from the front of the opening
    word and the closing ones from the end of the closing word, and an empty
    word for each line end inside the group. *)
Theorem flatten_closed_group (l0 ln o c : string)
    (mid pre in0 in1 post : list string) :
  forallb single_line (l0 :: mid ++ [ln]) = true ->
  line_words l0 = pre ++ o :: in0 ->
  line_words ln = in1 ++ c :: post ->
  group_opener o = true ->
  group_closer c = true ->
  existsb (Py.startswith Py.lparen) (pre ++ post) = false ->
  forallb paren_free (in0 ++ in1) = true ->
  forallb paren_free mid = true ->
  flatten (text_of_lines (l0 :: mid ++ [ln]))
  = Py.join " " (pre ++ Py.lstrip Py.lparen o :: in0 ++ "" :: flatten_tokens mid
                     ++ in1 ++ Py.rstrip Py.rparen c :: post).
Proof.
  intros Hsl H0 Hn Ho Hc Hop Hin Hmid.
  rewrite (flatten_text_of_lines _ Hsl).
  assert (Hl0 : Py.nonempty l0 = true).
  { destruct l0; [|reflexivity]. rewrite line_words_empty in H0.
    now destruct pre. }
  assert (Hln : Py.nonempty ln = true).
  { destruct ln; [|reflexivity]. rewrite line_words_empty in Hn.
    now destruct in1. }
  rewrite forallb_app in Hin. apply andb_true_iff in Hin as [Hin0 Hin1].
  assert (Hne : Forall (fun w => Py.nonempty w = true) (pre ++ post)).
  { pose proof (line_words_nonempty l0) as F0. rewrite H0 in F0.
    pose proof (line_words_nonempty ln) as Fn. rewrite Hn in Fn.
    apply Forall_app in F0 as [F0 _].
    apply Forall_app in Fn as [_ Fn]. apply Forall_cons_iff in Fn as [_ Fn].
    now apply Forall_app. }
  assert (Htok : flatten_tokens (l0 :: mid ++ [ln])
                 = pre ++ o :: (in0 ++ "" :: flatten_tokens mid ++ in1)
                       ++ c :: post ++ [""]).
  { rewrite flatten_tokens_cons, flatten_tokens_app, Hl0.
    rewrite (flatten_tokens_cons ln []), Hln, H0, Hn.
    simpl (flatten_tokens []). rewrite List.app_nil_r.
    rewrite <- !List.app_assoc. simpl. rewrite <- !List.app_assoc.
    reflexivity. }
  rewrite Htok. unfold flat_init.
  rewrite (flatten_loop_group pre _ post o c [] Hne Hop Ho); [| |exact Hc].
  - simpl. rewrite <- !List.app_assoc. simpl. rewrite <- !List.app_assoc.
    reflexivity.
  - rewrite forallb_app, Hin0. simpl.
    rewrite forallb_app, Hin1, (flatten_tokens_paren_free _ Hmid).
    reflexivity.
Qed.

Lemma flatten_closed_group_witness :
  flatten (text_of_lines ["@ IN SOA ns admin ("; "  2024  "; ""; "  3600";
                          "  86400 )"])
  = "@ IN SOA ns admin   2024  3600  86400 ".
Proof.
  exact (flatten_closed_group "@ IN SOA ns admin (" "  86400 )" "(" ")"
           ["  2024  "; ""; "  3600"] ["@"; "IN"; "SOA"; "ns"; "admin"] []
           ["86400"] []
           eq_refl eq_refl eq_refl eq_refl eq_refl eq_refl eq_refl eq_refl).
Defined.
